(** * csvq result views: header resolution and multi-format encoding

    A shallow embedding of [lib/query/encode.go] and of the header
    operations exercised by [lib/query/header_test.go], with the
    properties of the result-view layer stated and proved over it.

    Go packages are rendered as modules ([value], [ternary], [text],
    [cmd]) so that qualified names read as in the source
    ([value.String], [cmd.TSV], [text.Centering]).  Go strings are
    [string], a sequence of bytes; a rune is a code point, a [Z]. *)

From Stdlib Require Import ZArith String Ascii List Bool Lia DecimalString.
From stdpp Require Import gmap strings list.
Import ListNotations.

Local Open Scope string_scope.
Local Open Scope list_scope.

(** ** Package [ternary] (github.com/mithrandie/ternary) *)

Module ternary.

Inductive Value := TRUE | FALSE | UNKNOWN.

(** [Value.String]: the three-valued label itself. *)
Definition String (t : Value) : string :=
  match t with
  | TRUE => "TRUE"
  | FALSE => "FALSE"
  | UNKNOWN => "UNKNOWN"
  end.

(** [Value.ParseBool]: only TRUE collapses to [true]. *)
Definition ParseBool (t : Value) : bool :=
  match t with
  | TRUE => true
  | _ => false
  end.

Definition eqb (a b : Value) : bool :=
  match a, b with
  | TRUE, TRUE | FALSE, FALSE | UNKNOWN, UNKNOWN => true
  | _, _ => false
  end.

End ternary.

(** ** Package [text] (github.com/mithrandie/go-text) *)

Module text.

Inductive FieldAlignment := NotAligned | Centering | RightAligned.

Inductive LineBreak := LF | CR | CRLF.

Inductive Encoding := UTF8 | SJIS.

End text.

(** ** Package [strconv] *)

Module strconv.

Definition FormatBool (b : bool) : string := if b then "true" else "false".

(** Base-10 text of a signed integer, [strconv.FormatInt(i, 10)]. *)
Definition FormatInt (i : Z) : string := NilZero.string_of_int (Z.to_int i).

End strconv.

(** ** Package [value] (lib/value)

    Modelled from the spec: [lib/value] is not among the sources.  The
    seven variants are those of the spec's data model and of the type
    switch of [ConvertFieldContents].  [value.Primary] is a Go
    interface, so a value of any further implementing type (or the nil
    interface) can reach a consumer: [Other] stands for all of them. *)

Module value.

(** Timestamp with nanosecond precision and a zone offset in seconds. *)
Record Time := { unixNano : Z; zoneOffset : Z }.

Inductive Primary :=
| String (raw : string)
| Integer (v : Z)
| Float (bits : Z)
| Boolean (b : bool)
| Ternary (t : ternary.Value)
| Datetime (t : Time)
| Null
| Other (tag : nat).

End value.

(** ** Package [cmd] (lib/cmd): formats, style classes, flags

    Modelled from the spec: [lib/cmd] is not among the sources; the
    constants are the ones [encode.go] names. *)

Module cmd.

Inductive Format := CSV | TSV | FIXED | JSON | LTSV | GFM | ORG | TEXT.

Definition Format_eqb (a b : Format) : bool :=
  match a, b with
  | CSV, CSV | TSV, TSV | FIXED, FIXED | JSON, JSON
  | LTSV, LTSV | GFM, GFM | ORG, ORG | TEXT, TEXT => true
  | _, _ => false
  end.

(** The style classes ("effects") a palette renders. *)
Inductive Effect :=
| NoEffect
| StringEffect
| NumberEffect
| BooleanEffect
| TernaryEffect
| DatetimeEffect
| NullEffect.

Definition Effect_eqb (a b : Effect) : bool :=
  match a, b with
  | NoEffect, NoEffect | StringEffect, StringEffect
  | NumberEffect, NumberEffect | BooleanEffect, BooleanEffect
  | TernaryEffect, TernaryEffect | DatetimeEffect, DatetimeEffect
  | NullEffect, NullEffect => true
  | _, _ => false
  end.

Record Flags := {
  Quiet : bool;
  Color : bool;
  EastAsianEncoding : bool;
  CountDiacriticalSign : bool;
  CountFormatCode : bool
}.

End cmd.

(** ** Text of floats and timestamps

    [value.Float.String] (shortest round-trippable decimal) and
    [time.Time.Format(time.RFC3339Nano)] belong to the Go runtime; the
    converter only passes their result through. *)

Class ValueText := {
  Float_String : Z -> string;
  Datetime_Format_RFC3339Nano : value.Time -> string
}.

(** ** Field content converter ([encode.go], [ConvertFieldContents]) *)

Section Converter.
Context {VT : ValueText}.

Definition ConvertFieldContents (val : value.Primary) (forTextTable : bool)
  : string * cmd.Effect * text.FieldAlignment :=
  let s := "" in
  let effect := cmd.NoEffect in
  let align := text.NotAligned in
  match val with
  | value.String raw => (raw, cmd.StringEffect, align)
  | value.Integer v => (strconv.FormatInt v, cmd.NumberEffect, text.RightAligned)
  | value.Float f => (Float_String f, cmd.NumberEffect, text.RightAligned)
  | value.Boolean b => (strconv.FormatBool b, cmd.BooleanEffect, text.Centering)
  | value.Ternary t =>
      if forTextTable then
        (ternary.String t, cmd.TernaryEffect, text.Centering)
      else if negb (ternary.eqb t ternary.UNKNOWN) then
        (strconv.FormatBool (ternary.ParseBool t), cmd.BooleanEffect, text.Centering)
      else (s, effect, align)
  | value.Datetime t => (Datetime_Format_RFC3339Nano t, cmd.DatetimeEffect, align)
  | value.Null =>
      if forTextTable then ("NULL", cmd.NullEffect, text.Centering)
      else (s, effect, align)
  | value.Other _ => (s, effect, align)
  end.

(** The variants the type switch has a case for. *)
Definition documented (val : value.Primary) : bool :=
  match val with
  | value.Other _ => false
  | _ => true
  end.

End Converter.

(** ** Package [parser] (lib/parser): the reference expressions

    Modelled from the spec: [lib/parser] is not among the sources.  Only
    the expression kinds that the spec's [ContainsObject] dispatches on
    and that [header_test.go] builds are represented. *)

Module parser.

Record Identifier := { Literal : string }.

#[local] Set Warnings "-register-all".

Inductive QueryExpression :=
| FieldReference (View : string) (Column : string)
| ColumnNumber (View : string) (Number : Z)
| IntegerValue (n : Z)
| AggregateFunction (Name : string) (Args : list QueryExpression)
| AllColumns.

Definition join (sep : string) (l : list string) : string :=
  String.concat sep l.

(** The text an expression is written as ([QueryExpression.String]). *)
Fixpoint String (e : QueryExpression) : string :=
  match e with
  | FieldReference v c => if String.eqb v "" then c else v ++ "." ++ c
  | ColumnNumber v n => v ++ "." ++ strconv.FormatInt n
  | IntegerValue n => strconv.FormatInt n
  | AggregateFunction name args => name ++ "(" ++ join ", " (map String args) ++ ")"
  | AllColumns => "*"
  end.

End parser.

(** ** Header ([lib/query/header.go])

    [header.go] is not among the sources: its operations are modelled
    from section 4.1 of the spec, and every case of [header_test.go] is
    replayed against the model below. *)

(** One column's metadata; field names are the spec's. *)
Record HeaderField := {
  view : string;
  column : string;
  aliases : list string;
  number : nat;
  isFromTable : bool;
  isJoinColumn : bool
}.

Abbreviation Header := (list HeaderField).

(** Resolution and update errors, with the expression they are about. *)
Inductive HeaderError :=
| FieldAmbiguousError (e : parser.QueryExpression)
| FieldNotExistError (e : parser.QueryExpression)
| FieldLengthNotMatchError
| DuplicateFieldNameError (i : parser.Identifier).

(** The message of an error, with the location prefix of an expression
    that has no source position. *)
Definition Error (e : HeaderError) : string :=
  "[L:- C:-] " ++
  match e with
  | FieldAmbiguousError x => "field " ++ parser.String x ++ " is ambiguous"
  | FieldNotExistError x => "field " ++ parser.String x ++ " does not exist"
  | FieldLengthNotMatchError => "field length does not match"
  | DuplicateFieldNameError i => "field name " ++ parser.Literal i ++ " is a duplicate"
  end.

Definition InternalIdColumn : string := "@__internal_id".

(** Positions (from [i] on) of the fields that satisfy [p], in header order. *)
Fixpoint positionsFrom (p : HeaderField -> bool) (i : nat) (h : Header) : list nat :=
  match h with
  | [] => []
  | f :: rest =>
      if p f then i :: positionsFrom p (S i) rest else positionsFrom p (S i) rest
  end.

Definition positions (p : HeaderField -> bool) (h : Header) : list nat :=
  positionsFrom p 0 h.

Fixpoint numberedFrom (v : string) (n : nat) (words : list string) : Header :=
  match words with
  | [] => []
  | w :: rest =>
      {| view := v; column := w; aliases := []; number := n;
         isFromTable := true; isJoinColumn := false |} :: numberedFrom v (S n) rest
  end.

(** Modelled from the spec: [NewHeader], a fresh header of table columns
    numbered from 1. *)
Definition NewHeader (v : string) (words : list string) : Header :=
  numberedFrom v 1 words.

(** Modelled from the spec: [NewHeaderWithId], the same behind the
    reserved internal id column. *)
Definition NewHeaderWithId (v : string) (words : list string) : Header :=
  {| view := v; column := InternalIdColumn; aliases := []; number := 0;
     isFromTable := false; isJoinColumn := false |} :: numberedFrom v 1 words.

(** Modelled from the spec: [TableColumns], a reference per field with
    [isFromTable], qualified when the field has a view. *)
Definition TableColumns (h : Header) : list parser.QueryExpression :=
  map (fun f => parser.FieldReference (view f) (column f)) (List.filter isFromTable h).

(** Modelled from the spec: [TableColumnNames], "same filter, names
    only". *)
Definition TableColumnNames (h : Header) : list string :=
  map column (List.filter isFromTable h).

(** A field answers to [name] by its column or by one of its aliases. *)
Definition answersTo (name : string) (f : HeaderField) : bool :=
  String.eqb (column f) name || existsb (String.eqb name) (aliases f).

(** A join-produced duplicate column of [name]. *)
Definition joinDuplicate (name : string) (f : HeaderField) : bool :=
  String.eqb (column f) name && isJoinColumn f.

Definition inView (qualifier : string) (f : HeaderField) : bool :=
  String.eqb (view f) qualifier.

(** Modelled from the spec: [ContainsNumber].  A number below 1 never
    resolves; the qualifier restricts the fields when one is given. *)
Definition ContainsNumber (qualifier : string) (n : Z) : Header -> HeaderError + nat :=
  fun h =>
    let ref := parser.ColumnNumber qualifier n in
    if (n <? 1)%Z then inl (FieldNotExistError ref)
    else
      match positions (fun f => (String.eqb qualifier "" || inView qualifier f)
                                && (Z.of_nat (number f) =? n)%Z) h with
      | i :: _ => inr i
      | [] => inl (FieldNotExistError ref)
      end.

(** A field that answers to [name] without being a join-produced
    duplicate column of it. *)
Definition plainMatch (name : string) (f : HeaderField) : bool :=
  answersTo name f && negb (joinDuplicate name f).

(** Modelled from the spec: [Contains].  With a qualifier exactly one
    field of that view must answer to the name.  Without one, no match
    does not exist and one match resolves.  More than one match is
    ambiguous unless the duplicates are join-produced duplicate
    columns, which collapse to the first of them: by the Ambiguity law,
    two or more answering fields that are no join duplicates are
    ambiguous whatever else answers; otherwise the first join duplicate
    is the answer ([TestHeader_Contains] resolves [c4] to the join
    column at index 5 although the one field at index 4 carries the
    same name). *)
Definition Contains (qualifier name : string) (h : Header) : HeaderError + nat :=
  let ref := parser.FieldReference qualifier name in
  if negb (String.eqb qualifier "") then
    match positions (fun f => inView qualifier f && answersTo name f) h with
    | [i] => inr i
    | _ => inl (FieldNotExistError ref)
    end
  else
    match positions (answersTo name) h with
    | [] => inl (FieldNotExistError ref)
    | [i] => inr i
    | _ =>
        match positions (plainMatch name) h, positions (joinDuplicate name) h with
        | _ :: _ :: _, _ => inl (FieldAmbiguousError ref)
        | _, j :: _ => inr j
        | _, [] => inl (FieldAmbiguousError ref)
        end
    end.

(** One candidate resolves, none does not exist, several are
    ambiguous. *)
Definition uniquely (e : parser.QueryExpression) (found : list nat) : HeaderError + nat :=
  match found with
  | [] => inl (FieldNotExistError e)
  | [i] => inr i
  | _ => inl (FieldAmbiguousError e)
  end.

(** Resolution by the text of an expression over the candidate fields
    [p]. *)
Definition byColumnText (p : HeaderField -> bool) (e : parser.QueryExpression) (h : Header)
  : HeaderError + nat :=
  uniquely e (positions (fun f => p f && String.eqb (column f) (parser.String e)) h).

(** Modelled from the spec: [ContainsObject].  References go to
    [Contains] and [ContainsNumber]; a bare integer literal scans all
    fields for its decimal text; an expression such as an aggregate
    function is looked up by its text among the fields that do not come
    from a table ([TestHeader_ContainsObject] resolves [count( * )] to
    index 5 although the table field at index 2 has the same column). *)
Definition ContainsObject (e : parser.QueryExpression) (h : Header) : HeaderError + nat :=
  match e with
  | parser.FieldReference v c => Contains v c h
  | parser.ColumnNumber v n => ContainsNumber v n h
  | parser.IntegerValue _ => byColumnText (fun _ => true) e h
  | _ => byColumnText (fun f => negb (isFromTable f)) e h
  end.

(** *** The headers of [header_test.go] *)

(** [TestHeader_TableColumns], [TestHeader_TableColumnNames]. *)
Definition tableColumnsHeader : Header :=
  [ Build_HeaderField "t1" "c1" ["a1"] 0 true false;
    Build_HeaderField "t1" "c2" ["a3"] 0 false false;
    Build_HeaderField "" "c3" [] 0 true false ].

(** [TestHeader_ContainsObject]. *)
Definition containsObjectHeader : Header :=
  [ Build_HeaderField "t1" "c1" ["a1"] 1 true false;
    Build_HeaderField "t1" "c2" ["a2"] 2 true false;
    Build_HeaderField "t1" "count(*)" [] 3 true false;
    Build_HeaderField "" "c3" [] 0 false false;
    Build_HeaderField "t2" "c1" ["a3"] 1 true false;
    Build_HeaderField "" "count(*)" [] 0 false false;
    Build_HeaderField "" "1" [] 0 false false;
    Build_HeaderField "" "1" [] 0 false false ].

(** [TestHeader_ContainsNumber]. *)
Definition containsNumberHeader : Header :=
  [ Build_HeaderField "t1" "c1" ["a1"] 1 true false;
    Build_HeaderField "t1" "c2" ["a2"] 2 true false;
    Build_HeaderField "" "c3" [] 0 false false;
    Build_HeaderField "t2" "c1" ["a3"] 1 true false ].

(** [TestHeader_Contains]. *)
Definition containsHeader : Header :=
  [ Build_HeaderField "t1" "c1" ["a1"] 0 true false;
    Build_HeaderField "t1" "c2" ["a2"] 0 false false;
    Build_HeaderField "" "c3" [] 0 true false;
    Build_HeaderField "t2" "c1" ["a3"] 0 true false;
    Build_HeaderField "t3" "c4" [] 0 true false;
    Build_HeaderField "" "c4" [] 0 true true ].

(** [headerUpdateTests]: the header every case starts from. *)
Definition updateHeader : Header :=
  [ Build_HeaderField "table1" "column1" ["alias1"] 0 false false;
    Build_HeaderField "table1" "column2" ["alias2"] 0 false false;
    Build_HeaderField "table2" "column3" [] 0 false false ].

(** A header as a join leaves it when both sides also keep their own
    column of the shared name: [c1] of [t1], [c1] of [t2], and the join
    column [c1]. *)
Definition joinedHeader : Header :=
  [ Build_HeaderField "t1" "c1" [] 1 true false;
    Build_HeaderField "t2" "c1" [] 1 true false;
    Build_HeaderField "" "c1" [] 0 true true ].

(** *** [Update]: rebinding a header in place

    A [Header] is a Go slice: a value of that type refers to a backing
    array, and a method with a value receiver still writes through to
    it.  [TestHeader_Update] calls [v.Header.Update(...)], keeps only
    the returned [error], and then inspects [v.Header] itself.  Headers
    therefore live in a store of backing arrays, and a header variable
    is the address of one. *)

Abbreviation store := (gmap nat Header).

(** The fields a header variable refers to; the nil header has none. *)
Definition fieldsOf (s : store) (h : nat) : Header := default [] (s !! h).

(** The first replacement that repeats an earlier one. *)
Fixpoint firstDuplicate (names : list string) (fields : list parser.Identifier)
  : option parser.Identifier :=
  match fields with
  | [] => None
  | f :: rest =>
      if existsb (String.eqb (parser.Literal f)) names then Some f
      else firstDuplicate (names ++ [parser.Literal f]) rest
  end.

(** The checks made before any field is touched. *)
Definition checkReplacements (fields : option (list parser.Identifier)) (h : Header)
  : option HeaderError :=
  match fields with
  | None => None
  | Some fs =>
      if negb (Nat.eqb (length fs) (length h)) then Some FieldLengthNotMatchError
      else
        match firstDuplicate [] fs with
        | Some d => Some (DuplicateFieldNameError d)
        | None => None
        end
  end.

(** One field rebound to [reference]: aliases and numbering cleared,
    the column replaced when a replacement is given. *)
Definition rebind (reference : string) (replacement : option parser.Identifier)
  (f : HeaderField) : HeaderField :=
  {| view := reference;
     column := match replacement with
               | Some i => parser.Literal i
               | None => column f
               end;
     aliases := [];
     number := 0;
     isFromTable := isFromTable f;
     isJoinColumn := isJoinColumn f |}.

Definition rebound (reference : string) (fields : option (list parser.Identifier))
  (h : Header) : Header :=
  match fields with
  | None => map (rebind reference None) h
  | Some fs => zip_with (fun f i => rebind reference (Some i) f) h fs
  end.

(** Modelled from the spec: [Update(newReference, replacementFields?) ->
    error].  The replacements are plain identifiers; [None] is the nil
    slice of the call without replacement fields.  The result is the
    returned error and the store after the call. *)
Definition Update (h : nat) (reference : string)
  (fields : option (list parser.Identifier)) (s : store) : option HeaderError * store :=
  match checkReplacements fields (fieldsOf s h) with
  | Some err => (Some err, s)
  | None => (None, alter (rebound reference fields) h s)
  end.

(** ** Views ([lib/query/view.go]) *)

(** Modelled from the spec: a cell wraps its value in an
    execution-time evaluation cache; [Value] dereferences it. *)
Record Cell := { Value : value.Primary; cache : list value.Primary }.

Definition RecordSet := list (list Cell).

Record View := { ViewHeader : Header; ViewRecordSet : RecordSet }.

Definition RecordLen (v : View) : nat := length (ViewRecordSet v).

Definition FieldLen (v : View) : nat := length (ViewHeader v).

(** ** The shared flattening step ([encode.go], [bareValues]) *)

Definition bareValues (v : View) : list string * list (list value.Primary) :=
  let header := TableColumnNames (ViewHeader v) in
  let records :=
    fold_left
      (fun records record =>
         let row := fold_left (fun row cell => row ++ [Value cell]) record [] in
         records ++ [row])
      (ViewRecordSet v) [] in
  (header, records).

(** ** Collaborating writers *)

Module csv.
Record Field := NewField { Contents : string; Quote : bool }.
Record Writer := { Delimiter : ascii; LineBreak : text.LineBreak; Encoding : text.Encoding }.
End csv.

Module fixedlen.
Record Field := NewField { Contents : string; Alignment : text.FieldAlignment }.
Record Writer := {
  Positions : list nat;
  LineBreak : text.LineBreak;
  Encoding : text.Encoding;
  InsertSpace : bool
}.
End fixedlen.

Module txjson.
Inductive EscapeType := Backslash | HexDigits | AllWithHexDigits.
Record Encoder := {
  EscapeType_ : EscapeType;
  LineBreak : text.LineBreak;
  PrettyPrint : bool;
  Palette : bool
}.
End txjson.

Module ltsv.
Record Writer := { Header : list string; LineBreak : text.LineBreak; Encoding : text.Encoding }.
End ltsv.

Module table.

Inductive Format := PlainTable | GFMTable | OrgTable.

Record Field := NewField { Contents : string; Alignment : text.FieldAlignment }.

(** What an encoder has been told by the time [Encode] is called. *)
Record Encoder := {
  format : Format;
  recordLen : nat;
  LineBreak : text.LineBreak;
  EastAsianEncoding : bool;
  CountDiacriticalSign : bool;
  CountFormatCode : bool;
  WithoutHeader : bool;
  Encoding : text.Encoding;
  header : option (list Field);
  records : list (list Field);
  alignments : option (list text.FieldAlignment)
}.

Definition NewEncoder (f : Format) (n : nat) : Encoder :=
  {| format := f; recordLen := n; LineBreak := text.LF;
     EastAsianEncoding := false; CountDiacriticalSign := false;
     CountFormatCode := false; WithoutHeader := false; Encoding := text.UTF8;
     header := None; records := []; alignments := None |}.

Definition SetHeader (e : Encoder) (h : list Field) : Encoder :=
  {| format := format e; recordLen := recordLen e; LineBreak := LineBreak e;
     EastAsianEncoding := EastAsianEncoding e;
     CountDiacriticalSign := CountDiacriticalSign e;
     CountFormatCode := CountFormatCode e; WithoutHeader := WithoutHeader e;
     Encoding := Encoding e;
     header := Some h; records := records e; alignments := alignments e |}.

Definition AppendRecord (e : Encoder) (r : list Field) : Encoder :=
  {| format := format e; recordLen := recordLen e; LineBreak := LineBreak e;
     EastAsianEncoding := EastAsianEncoding e;
     CountDiacriticalSign := CountDiacriticalSign e;
     CountFormatCode := CountFormatCode e; WithoutHeader := WithoutHeader e;
     Encoding := Encoding e;
     header := header e; records := records e ++ [r]; alignments := alignments e |}.

Definition SetFieldAlignments (e : Encoder) (a : list text.FieldAlignment) : Encoder :=
  {| format := format e; recordLen := recordLen e; LineBreak := LineBreak e;
     EastAsianEncoding := EastAsianEncoding e;
     CountDiacriticalSign := CountDiacriticalSign e;
     CountFormatCode := CountFormatCode e; WithoutHeader := WithoutHeader e;
     Encoding := Encoding e;
     header := header e; records := records e; alignments := Some a |}.

End table.

(** What a collaborator answers to a request for text.  A writer keeps
    the text of its records in a buffer until it is flushed; the
    flushes that a full buffer forces in between are not modelled. *)
Inductive reply := Text (s : string) | Refused (msg : string).

(** The collaborators of the encoder: process-wide flags and palette,
    the caller's output stream, and the format writers of go-text.
    [fp_Write written chunk] is the error, if any, with which the
    stream refuses [chunk] after having taken [written]. *)
Class Environment := {
  GetFlags : cmd.Flags;
  GetPalette_isNil : bool;
  Palette_Render : cmd.Effect -> string -> string;
  fp_Write : list string -> string -> option string;
  csv_Write : csv.Writer -> list csv.Field -> reply;
  fixedlen_GeneratePositions : text.Encoding -> list (list fixedlen.Field) -> list nat;
  fixedlen_Write : fixedlen.Writer -> list fixedlen.Field -> reply;
  JsonStructure : Type;
  ConvertTableValueToJsonStructure :
    list string -> list (list value.Primary) -> string + JsonStructure;
  txjson_Encode : txjson.Encoder -> JsonStructure -> string;
  ltsv_NewWriter : list string -> option string;
  ltsv_Write : ltsv.Writer -> list string -> reply;
  table_Encode : table.Encoder -> reply
}.

(** ** Effects of an encode

    An encoder writes to the caller's stream, may log a warning, and
    may switch the process-wide palette on.  It ends with no error, with
    an error, or with a run-time panic (an index out of range). *)

Record World := {
  written : list string;
  warnings : list (string * bool);
  paletteEnabled : bool
}.

Inductive error :=
| EmptyResultSetError
| errorString (msg : string)
| collaboratorError (msg : string).

Inductive outcome (A : Type) :=
| Done (a : A)
| Failed (e : error)
| Panicked.

Arguments Done {A} a.
Arguments Failed {A} e.
Arguments Panicked {A}.

Definition M (A : Type) : Type := World -> outcome A * World.

Definition ret {A} (a : A) : M A := fun w => (Done a, w).

Definition raise {A} (e : error) : M A := fun w => (Failed e, w).

Definition bind {A B} (m : M A) (k : A -> M B) : M B :=
  fun w =>
    match m w with
    | (Done a, w') => k a w'
    | (Failed e, w') => (Failed e, w')
    | (Panicked, w') => (Panicked, w')
    end.

Definition lift {A} (o : outcome A) : M A := fun w => (o, w).

Definition andThen {A B} (o : outcome A) (k : A -> outcome B) : outcome B :=
  match o with
  | Done a => k a
  | Failed e => Failed e
  | Panicked => Panicked
  end.

Notation "'let*' x := m 'in' k" := (bind m (fun x => k))
  (at level 10, x pattern, m at level 100, k at level 200).

(** [for i, v := range xs { fields[i] = cell(v) }]: an index past the
    end of [fields] panics. *)
Fixpoint assignFrom {A F} (cell : A -> F) (i : nat) (xs : list A) (fields : list F)
  : option (list F) :=
  match xs with
  | [] => Some fields
  | v :: rest =>
      if Nat.ltb i (length fields) then assignFrom cell (S i) rest (<[i := cell v]> fields)
      else None
  end.

Definition fromReply (r : reply) : outcome string :=
  match r with
  | Text t => Done t
  | Refused msg => Failed (collaboratorError msg)
  end.

(** The record loop of the writers that reuse one [fields] array: each
    record overwrites it by index and is handed to [write], whose text
    joins the writer's buffer [buf]. *)
Fixpoint writeRecords {F} (cell : value.Primary -> F) (write : list F -> reply)
  (records : list (list value.Primary)) (fields : list F) (buf : string) : outcome string :=
  match records with
  | [] => Done buf
  | record :: rest =>
      match assignFrom cell 0 record fields with
      | None => Panicked
      | Some fields' =>
          andThen (fromReply (write fields'))
                  (fun t => writeRecords cell write rest fields' (buf ++ t))
      end
  end.

(** The loop of the measuring fixed-length writer over complete rows. *)
Fixpoint writeRows {F} (write : list F -> reply) (rows : list (list F)) (buf : string)
  : outcome string :=
  match rows with
  | [] => Done buf
  | fields :: rest =>
      andThen (fromReply (write fields)) (fun t => writeRows write rest (buf ++ t))
  end.

(** ** Runes ([unicode/utf8], [runtime], [bytes])

    A Go string is a sequence of bytes; [[]rune(str)] decodes it as
    UTF-8 into code points, and [bytes.Buffer.WriteRune] encodes a code
    point back.  A rune is an [int32], here a [Z].  The constants and
    the functions are those of the Go runtime and of [unicode/utf8]. *)
Module utf8.

Definition RuneError : Z := 0xFFFD.
Definition RuneSelf : Z := 0x80.
Definition MaxRune : Z := 0x10FFFF.

Definition surrogateMin : Z := 0xD800.
Definition surrogateMax : Z := 0xDFFF.

Definition tx : Z := 0x80.
Definition t2 : Z := 0xC0.
Definition t3 : Z := 0xE0.
Definition t4 : Z := 0xF0.
Definition t5 : Z := 0xF8.

Definition maskx : Z := 0x3F.
Definition mask2 : Z := 0x1F.
Definition mask3 : Z := 0x0F.
Definition mask4 : Z := 0x07.

Definition rune1Max : Z := 2 ^ 7 - 1.
Definition rune2Max : Z := 2 ^ 11 - 1.
Definition rune3Max : Z := 2 ^ 16 - 1.

Definition locb : Z := 0x80.
Definition hicb : Z := 0xBF.

(** The number a byte of a string stands for, the byte an integer is
    cut to ([byte(x)]: its low eight bits), and [uint32(r)]. *)
Definition uint8 (c : ascii) : Z := Z.of_N (N_of_ascii c).

Definition byte (x : Z) : ascii := ascii_of_N (Z.to_N (x mod 256)).

Definition uint32 (r : Z) : Z := r mod 2 ^ 32.

(** [locb <= b && b <= hicb]. *)
Definition continuation (c : ascii) : bool :=
  Z.leb locb (uint8 c) && Z.leb (uint8 c) hicb.

(** [runtime.decoderune(s, k)], given the string from [k] on: the rune
    and the number of bytes it takes.  It is called for a first byte
    that is not below [RuneSelf]; whatever is no well-formed sequence
    gives [RuneError] and takes one byte. *)
Definition decoderune (s : string) : Z * nat :=
  match s with
  | EmptyString => (RuneError, 1)
  | String c0 rest =>
      let s0 := uint8 c0 in
      if Z.leb t2 s0 && Z.ltb s0 t3 then
        match rest with
        | String c1 _ =>
            if continuation c1 then
              let r := Z.lor (Z.shiftl (Z.land s0 mask2) 6) (Z.land (uint8 c1) maskx) in
              if Z.ltb rune1Max r then (r, 2) else (RuneError, 1)
            else (RuneError, 1)
        | EmptyString => (RuneError, 1)
        end
      else if Z.leb t3 s0 && Z.ltb s0 t4 then
        match rest with
        | String c1 (String c2 _) =>
            if continuation c1 && continuation c2 then
              let r := Z.lor (Z.lor (Z.shiftl (Z.land s0 mask3) 12)
                                    (Z.shiftl (Z.land (uint8 c1) maskx) 6))
                             (Z.land (uint8 c2) maskx) in
              if Z.ltb rune2Max r && negb (Z.leb surrogateMin r && Z.leb r surrogateMax)
              then (r, 3)
              else (RuneError, 1)
            else (RuneError, 1)
        | _ => (RuneError, 1)
        end
      else if Z.leb t4 s0 && Z.ltb s0 t5 then
        match rest with
        | String c1 (String c2 (String c3 _)) =>
            if continuation c1 && continuation c2 && continuation c3 then
              let r := Z.lor (Z.lor (Z.lor (Z.shiftl (Z.land s0 mask4) 18)
                                           (Z.shiftl (Z.land (uint8 c1) maskx) 12))
                                    (Z.shiftl (Z.land (uint8 c2) maskx) 6))
                             (Z.land (uint8 c3) maskx) in
              if Z.ltb rune3Max r && Z.leb r MaxRune then (r, 4) else (RuneError, 1)
            else (RuneError, 1)
        | _ => (RuneError, 1)
        end
      else (RuneError, 1)
  end.

(** [[]rune(s)] ([runtime.stringtoslicerune], a [for range] loop over
    the string): a byte below [RuneSelf] is its own rune, anything else
    goes through [decoderune]. *)
Fixpoint stringtoslicerune (s : string) : list Z :=
  match s with
  | EmptyString => []
  | String c0 s1 =>
      if Z.ltb (uint8 c0) RuneSelf then uint8 c0 :: stringtoslicerune s1
      else
        let '(r, width) := decoderune s in
        r :: match width, s1 with
             | 2, String _ s2 => stringtoslicerune s2
             | 3, String _ (String _ s3) => stringtoslicerune s3
             | 4, String _ (String _ (String _ s4)) => stringtoslicerune s4
             | _, _ => stringtoslicerune s1
             end
  end.

(** The three bytes and the four bytes of a rune. *)
Definition threeBytes (r : Z) : string :=
  String (byte (Z.lor t3 (Z.shiftr r 12 mod 256)))
    (String (byte (Z.lor tx (Z.land (Z.shiftr r 6 mod 256) maskx)))
       (String (byte (Z.lor tx (Z.land (r mod 256) maskx))) EmptyString)).

Definition fourBytes (r : Z) : string :=
  String (byte (Z.lor t4 (Z.shiftr r 18 mod 256)))
    (String (byte (Z.lor tx (Z.land (Z.shiftr r 12 mod 256) maskx)))
       (String (byte (Z.lor tx (Z.land (Z.shiftr r 6 mod 256) maskx)))
          (String (byte (Z.lor tx (Z.land (r mod 256) maskx))) EmptyString))).

(** [utf8.AppendRune(nil, r)]: the bytes of a rune; one that is out of
    range or a surrogate half is written as [RuneError]. *)
Definition AppendRune (r : Z) : string :=
  if Z.leb (uint32 r) rune1Max then String (byte r) EmptyString
  else
    let i := uint32 r in
    if Z.leb i rune2Max then
      String (byte (Z.lor t2 (Z.shiftr r 6 mod 256)))
        (String (byte (Z.lor tx (Z.land (r mod 256) maskx))) EmptyString)
    else if Z.ltb MaxRune i || (Z.leb surrogateMin i && Z.leb i surrogateMax) then
      threeBytes RuneError
    else if Z.leb i rune3Max then threeBytes r
    else fourBytes r.

(** [utf8.ValidRune]: in range and no surrogate half. *)
Definition ValidRune (r : Z) : bool :=
  if Z.leb 0 r && Z.ltb r surrogateMin then true
  else if Z.ltb surrogateMax r && Z.leb r MaxRune then true
  else false.

End utf8.

(** The per-line rendering of a cell of the plain text table
    ([encodeText], the loop over [runes]): every physical line is
    rendered on its own, and a line break of any style becomes a line
    feed. *)
Definition lineFeed : string := String "010" EmptyString.

(** [buf.WriteRune(r)] of [bytes.Buffer]. *)
Definition WriteRune (buf : string) (r : Z) : string :=
  if Z.ltb (utf8.uint32 r) utf8.RuneSelf
  then String.append buf (String (utf8.byte r) EmptyString)
  else String.append buf (utf8.AppendRune r).

Definition flushLine (render : string -> string) (textStrBuf textLineBuf : string) : string :=
  if Nat.ltb 0 (String.length textLineBuf)
  then String.append textStrBuf (render textLineBuf)
  else textStrBuf.

Fixpoint renderLines (render : string -> string) (runes : list Z)
  (textStrBuf textLineBuf : string) : string :=
  match runes with
  | [] => flushLine render textStrBuf textLineBuf
  | r :: rest =>
      if Z.eqb r 13 then
        let rest' := match rest with
                     | r' :: rest'' => if Z.eqb r' 10 then rest'' else rest
                     | [] => rest
                     end in
        renderLines render rest'
          (String.append (flushLine render textStrBuf textLineBuf) lineFeed) EmptyString
      else if Z.eqb r 10 then
        renderLines render rest
          (String.append (flushLine render textStrBuf textLineBuf) lineFeed) EmptyString
      else
        renderLines render rest textStrBuf (WriteRune textLineBuf r)
  end.

(** ** The encoders ([encode.go]) *)

Record FileInfo := {
  Format : cmd.Format;
  Delimiter : ascii;
  DelimiterPositions : option (list nat);
  LineBreak : text.LineBreak;
  NoHeader : bool;
  Encoding : text.Encoding;
  JsonEscape : txjson.EscapeType;
  PrettyPrint : bool;
  EncloseAll : bool
}.

(** [fileInfo.Delimiter = d]. *)
Definition setDelimiter (fileInfo : FileInfo) (d : ascii) : FileInfo :=
  {| Format := Format fileInfo;
     Delimiter := d;
     DelimiterPositions := DelimiterPositions fileInfo;
     LineBreak := LineBreak fileInfo;
     NoHeader := NoHeader fileInfo;
     Encoding := Encoding fileInfo;
     JsonEscape := JsonEscape fileInfo;
     PrettyPrint := PrettyPrint fileInfo;
     EncloseAll := EncloseAll fileInfo |}.

Definition tab : ascii := "009".

Section Encoders.
Context {VT : ValueText} {Env : Environment}.

(** [LogWarn(msg, quiet)]: the call reaches the logging sink. *)
Definition LogWarn (msg : string) (quiet : bool) : M unit :=
  fun w => (Done tt, {| written := written w;
                        warnings := warnings w ++ [(msg, quiet)];
                        paletteEnabled := paletteEnabled w |}).

Definition enablePalette : M unit :=
  fun w => (Done tt, {| written := written w;
                        warnings := warnings w;
                        paletteEnabled := true |}).

(** One [Write] on the caller's stream. *)
Definition fpWrite (s : string) : M unit :=
  fun w =>
    match fp_Write (written w) s with
    | Some msg => (Failed (collaboratorError msg), w)
    | None => (Done tt, {| written := written w ++ [s];
                           warnings := warnings w;
                           paletteEnabled := paletteEnabled w |})
    end.

(** A buffered writer that is flushed: text reaches the stream in one
    piece, and an empty buffer does not touch the stream. *)
Definition Flush (buf : string) : M unit :=
  if String.eqb buf "" then ret tt else fpWrite buf.

(** [w.Flush()] as a statement: its result is dropped. *)
Definition FlushIgnoringError (buf : string) : M unit :=
  fun w => (Done tt, snd (Flush buf w)).

Definition csvCell (encloseAll : bool) (v : value.Primary) : csv.Field :=
  let '(str, e, _) := ConvertFieldContents v false in
  let quote :=
    encloseAll && (cmd.Effect_eqb e cmd.StringEffect || cmd.Effect_eqb e cmd.DatetimeEffect) in
  csv.NewField str quote.

Definition encodeCSV (v : View) (delimiter : ascii) (lineBreak : text.LineBreak)
  (withoutHeader : bool) (encoding : text.Encoding) (encloseAll : bool) : M unit :=
  let '(header, records) := bareValues v in
  let w := {| csv.Delimiter := delimiter; csv.LineBreak := lineBreak;
              csv.Encoding := encoding |} in
  let fields := replicate (length header) (csv.NewField "" false) in
  let* buf :=
    lift (andThen
            (if negb withoutHeader then
               match assignFrom (fun name => csv.NewField name encloseAll) 0 header fields with
               | None => Panicked
               | Some fields' =>
                   andThen (fromReply (csv_Write w fields')) (fun t => Done (fields', t))
               end
             else Done (fields, ""))
            (fun '(fields', buf) =>
               writeRecords (csvCell encloseAll) (csv_Write w) records fields' buf)) in
  FlushIgnoringError buf.

Definition fixedCell (v : value.Primary) : fixedlen.Field :=
  let '(str, _, a) := ConvertFieldContents v false in
  fixedlen.NewField str a.

Definition encodeFixedLengthFormat (v : View) (positions : option (list nat))
  (lineBreak : text.LineBreak) (withoutHeader : bool) (encoding : text.Encoding) : M unit :=
  let '(header, records) := bareValues v in
  match positions with
  | None =>
      let fieldList :=
        (if negb withoutHeader
         then [map (fun name => fixedlen.NewField name text.NotAligned) header]
         else [])
        ++ map (map fixedCell) records in
      let w := {| fixedlen.Positions := fixedlen_GeneratePositions encoding fieldList;
                  fixedlen.LineBreak := lineBreak;
                  fixedlen.Encoding := encoding;
                  fixedlen.InsertSpace := true |} in
      let* buf := lift (writeRows (fixedlen_Write w) fieldList "") in
      FlushIgnoringError buf
  | Some ps =>
      let w := {| fixedlen.Positions := ps;
                  fixedlen.LineBreak := lineBreak;
                  fixedlen.Encoding := encoding;
                  fixedlen.InsertSpace := false |} in
      let fields := replicate (length header) (fixedlen.NewField "" text.NotAligned) in
      let* buf :=
        lift (andThen
                (if negb withoutHeader then
                   match assignFrom (fun name => fixedlen.NewField name text.NotAligned)
                                    0 header fields with
                   | None => Panicked
                   | Some fields' =>
                       andThen (fromReply (fixedlen_Write w fields')) (fun t => Done (fields', t))
                   end
                 else Done (fields, ""))
                (fun '(fields', buf) =>
                   writeRecords fixedCell (fixedlen_Write w) records fields' buf)) in
      FlushIgnoringError buf
  end.

Definition encodeJson (v : View) (lineBreak : text.LineBreak)
  (escapeType : txjson.EscapeType) (prettyPrint : bool) : M unit :=
  let '(header, records) := bareValues v in
  match ConvertTableValueToJsonStructure header records with
  | inl msg => raise (errorString ("encoding to json failed: " ++ msg))
  | inr data =>
      let e := {| txjson.EscapeType_ := escapeType;
                  txjson.LineBreak := lineBreak;
                  txjson.PrettyPrint := prettyPrint;
                  txjson.Palette :=
                    prettyPrint && cmd.Color GetFlags && negb GetPalette_isNil |} in
      let s := txjson_Encode e data in
      let* _ := (if txjson.Palette e then enablePalette else ret tt) in
      Flush s
  end.

Definition encodeLTSV (v : View) (lineBreak : text.LineBreak) (encoding : text.Encoding)
  : M unit :=
  let '(header, records) := bareValues v in
  match ltsv_NewWriter header with
  | Some msg => raise (collaboratorError msg)
  | None =>
      let w := {| ltsv.Header := header; ltsv.LineBreak := lineBreak;
                  ltsv.Encoding := encoding |} in
      let fields := replicate (length header) "" in
      let* buf :=
        lift (writeRecords (fun val => fst (fst (ConvertFieldContents val false)))
                           (ltsv_Write w) records fields "") in
      FlushIgnoringError buf
  end.

(** One cell of a text table: the converted value, rendered line by
    line through the palette for the plain format, and its alignment. *)
Definition textCell (format : cmd.Format) (isPlainTable : bool) (v : value.Primary)
  : table.Field * text.FieldAlignment :=
  let '(str, effect, align) := ConvertFieldContents v isPlainTable in
  let str' :=
    if cmd.Format_eqb format cmd.TEXT
    then renderLines (Palette_Render effect) (utf8.stringtoslicerune str) "" ""
    else str in
  (table.NewField str' align, align).

(** The inner loop of [encodeText] over the cells of record [i]:
    [rfields] grows by every cell, [aligns] only while [i == 0]. *)
Definition appendCells (format : cmd.Format) (isPlainTable : bool) (i : nat)
  (record : list value.Primary) (aligns : list text.FieldAlignment)
  : list table.Field * list text.FieldAlignment :=
  fold_left
    (fun '(rfields, aligns) v =>
       let '(field, align) := textCell format isPlainTable v in
       (rfields ++ [field], if Nat.eqb i 0 then aligns ++ [align] else aligns))
    record ([], aligns).

(** The outer loop: [for i, record := range records]. *)
Fixpoint appendRecords (format : cmd.Format) (isPlainTable : bool) (i : nat)
  (records : list (list value.Primary)) (e : table.Encoder)
  (aligns : list text.FieldAlignment) : table.Encoder * list text.FieldAlignment :=
  match records with
  | [] => (e, aligns)
  | record :: rest =>
      let '(rfields, aligns') := appendCells format isPlainTable i record aligns in
      appendRecords format isPlainTable (S i) rest (table.AppendRecord e rfields) aligns'
  end.

(** The table encoder as [encodeText] has set it up when it calls
    [e.Encode()]. *)
Definition textEncoder (header : list string) (records : list (list value.Primary))
  (format : cmd.Format) (tableFormat : table.Format) (isPlainTable : bool)
  (lineBreak : text.LineBreak) (withoutHeader : bool) (encoding : text.Encoding)
  : table.Encoder :=
  let e := table.NewEncoder tableFormat (length records) in
  let e := {| table.format := table.format e;
              table.recordLen := table.recordLen e;
              table.LineBreak := lineBreak;
              table.EastAsianEncoding := cmd.EastAsianEncoding GetFlags;
              table.CountDiacriticalSign := cmd.CountDiacriticalSign GetFlags;
              table.CountFormatCode := cmd.CountFormatCode GetFlags;
              table.WithoutHeader := withoutHeader;
              table.Encoding := encoding;
              table.header := table.header e;
              table.records := table.records e;
              table.alignments := table.alignments e |} in
  let e :=
    if negb withoutHeader
    then table.SetHeader e (map (fun name => table.NewField name text.Centering) header)
    else e in
  let '(e, aligns) := appendRecords format isPlainTable 0 records e [] in
  if cmd.Format_eqb format cmd.GFM then table.SetFieldAlignments e aligns else e.

(** [encodeText] from [table.NewEncoder] on: set the encoder up, let it
    encode, and write the text through a buffered writer. *)
Definition renderTable (header : list string) (records : list (list value.Primary))
  (format : cmd.Format) (tableFormat : table.Format) (isPlainTable : bool)
  (lineBreak : text.LineBreak) (withoutHeader : bool) (encoding : text.Encoding) : M unit :=
  let e := textEncoder header records format tableFormat isPlainTable
                       lineBreak withoutHeader encoding in
  let* s := lift (fromReply (table_Encode e)) in
  Flush s.

Definition encodeText (v : View) (format : cmd.Format) (lineBreak : text.LineBreak)
  (withoutHeader : bool) (encoding : text.Encoding) : M unit :=
  let '(header, records) := bareValues v in
  match format with
  | cmd.GFM =>
      renderTable header records format table.GFMTable false lineBreak withoutHeader encoding
  | cmd.ORG =>
      renderTable header records format table.OrgTable false lineBreak withoutHeader encoding
  | _ =>
      if Nat.ltb (length header) 1 then
        let* _ := LogWarn "Empty Fields" (cmd.Quiet GetFlags) in
        raise EmptyResultSetError
      else if Nat.ltb (length records) 1 then
        let* _ := LogWarn "Empty RecordSet" (cmd.Quiet GetFlags) in
        raise EmptyResultSetError
      else
        renderTable header records format table.PlainTable true lineBreak withoutHeader encoding
  end.

(** [EncodeView(fp, view, fileInfo)].  [fileInfo] is a pointer: the
    result carries the descriptor it points to after the call, next to
    the outcome and the world. *)
Definition EncodeView (v : View) (fileInfo : FileInfo) (w : World)
  : outcome unit * World * FileInfo :=
  match Format fileInfo with
  | cmd.FIXED =>
      (encodeFixedLengthFormat v (DelimiterPositions fileInfo) (LineBreak fileInfo)
                               (NoHeader fileInfo) (Encoding fileInfo) w, fileInfo)
  | cmd.JSON =>
      (encodeJson v (LineBreak fileInfo) (JsonEscape fileInfo) (PrettyPrint fileInfo) w,
       fileInfo)
  | cmd.LTSV =>
      (encodeLTSV v (LineBreak fileInfo) (Encoding fileInfo) w, fileInfo)
  | cmd.GFM | cmd.ORG | cmd.TEXT =>
      (encodeText v (Format fileInfo) (LineBreak fileInfo) (NoHeader fileInfo)
                  (Encoding fileInfo) w, fileInfo)
  | cmd.TSV =>
      let fileInfo := setDelimiter fileInfo tab in
      (encodeCSV v (Delimiter fileInfo) (LineBreak fileInfo) (NoHeader fileInfo)
                 (Encoding fileInfo) (EncloseAll fileInfo) w, fileInfo)
  | cmd.CSV =>
      (encodeCSV v (Delimiter fileInfo) (LineBreak fileInfo) (NoHeader fileInfo)
                 (Encoding fileInfo) (EncloseAll fileInfo) w, fileInfo)
  end.

End Encoders.

(** ** Vocabulary of the statements *)

(** The field at index [i] answers to [name]. *)
Definition matchedAt (name : string) (h : Header) (i : nat) : Prop :=
  exists f, h !! i = Some f /\ answersTo name f = true.

(** A join-produced duplicate column of [name] that comes from a table. *)
Definition joinProduced (name : string) (f : HeaderField) : bool :=
  joinDuplicate name f && isFromTable f.

(** The field at index [i] has [txt] as its column. *)
Definition columnAt (txt : string) (h : Header) (i : nat) : Prop :=
  exists f, h !! i = Some f /\ column f = txt.

(** [j] is the first index whose field satisfies [p]. *)
Definition firstAt (p : HeaderField -> bool) (h : Header) (j : nat) : Prop :=
  (exists f, h !! j = Some f /\ p f = true)
  /\ forall i f, h !! i = Some f -> p f = true -> j <= i.

(** [name] is answered to by two or more fields. *)
Definition duplicated (name : string) (h : Header) : Prop :=
  exists i j, i <> j /\ matchedAt name h i /\ matchedAt name h j.

(** The field at index [i] answers to [name] and is no join-produced
    duplicate column of it. *)
Definition plainAt (name : string) (h : Header) (i : nat) : Prop :=
  exists f, h !! i = Some f /\ plainMatch name f = true.

(** The runes of a text with every line break, of whichever style,
    turned into a line feed. *)
Fixpoint lineFeeds (runes : list Z) : list Z :=
  match runes with
  | [] => []
  | r :: rest =>
      if Z.eqb r 13 then
        10%Z :: match rest with
                | r' :: rest' => if Z.eqb r' 10 then lineFeeds rest' else lineFeeds rest
                | [] => []
                end
      else r :: lineFeeds rest
  end.

(** Runes written to an empty buffer one after the other. *)
Definition encodeRunes (runes : list Z) : string := fold_left WriteRune runes EmptyString.

(** Every byte of the text is below [RuneSelf]. *)
Definition isASCII (s : string) : bool :=
  forallb (fun c => Z.ltb (utf8.uint8 c) utf8.RuneSelf) (list_ascii_of_string s).

(** The text is well-formed UTF-8: what is written for valid runes. *)
Definition wellFormed (s : string) : Prop :=
  exists runes, Forall (fun r => utf8.ValidRune r = true) runes /\ s = encodeRunes runes.

(** A header with the numbers of its fields replaced. *)
Definition renumbered (g : HeaderField -> nat) (h : Header) : Header :=
  map (fun f => {| view := view f; column := column f; aliases := aliases f;
                   number := g f; isFromTable := isFromTable f;
                   isJoinColumn := isJoinColumn f |}) h.

(** [fileInfo.Format = f], as a caller reusing a descriptor writes it. *)
Definition setFormat (fileInfo : FileInfo) (f : cmd.Format) : FileInfo :=
  {| Format := f;
     Delimiter := Delimiter fileInfo;
     DelimiterPositions := DelimiterPositions fileInfo;
     LineBreak := LineBreak fileInfo;
     NoHeader := NoHeader fileInfo;
     Encoding := Encoding fileInfo;
     JsonEscape := JsonEscape fileInfo;
     PrettyPrint := PrettyPrint fileInfo;
     EncloseAll := EncloseAll fileInfo |}.

(** The world after one more warning and nothing else. *)
Definition warned (w : World) (msg : string) (quiet : bool) : World :=
  {| written := written w;
     warnings := warnings w ++ [(msg, quiet)];
     paletteEnabled := paletteEnabled w |}.

(** What a test observes of a resolution: the index, or the message. *)
Definition observed (r : HeaderError + nat) : string + nat :=
  match r with
  | inl e => inl (Error e)
  | inr i => inr i
  end.

(** [TestHeader_Update] looks at the error and then at the header the
    method was called on. *)
Definition updateStore : store := {[ 0 := updateHeader ]}.

Definition afterUpdate (reference : string) (fields : option (list string))
  : option string * Header :=
  let '(err, s') :=
    Update 0 reference (option_map (map parser.Build_Identifier) fields) updateStore in
  (option_map Error err, fieldsOf s' 0).

(** ** A concrete environment for running the encoders *)

Definition plainText : ValueText :=
  {| Float_String := fun _ => "0";
     Datetime_Format_RFC3339Nano := fun _ => "1970-01-01T00:00:00Z" |}.

Definition lineOf (sep : string) (cells : list string) : string :=
  String.append (String.concat sep cells) lineFeed.

(** Writers that join the cells of a record and never refuse, a stream
    that takes everything, no colours. *)
Definition plainEnvironment : Environment :=
  {| GetFlags := {| cmd.Quiet := false; cmd.Color := false;
                    cmd.EastAsianEncoding := false;
                    cmd.CountDiacriticalSign := false;
                    cmd.CountFormatCode := false |};
     GetPalette_isNil := false;
     Palette_Render := fun _ s => s;
     fp_Write := fun _ _ => None;
     csv_Write := fun w fields =>
       Text (lineOf (String (csv.Delimiter w) EmptyString) (map csv.Contents fields));
     fixedlen_GeneratePositions := fun _ _ => [];
     fixedlen_Write := fun _ fields => Text (lineOf " " (map fixedlen.Contents fields));
     JsonStructure := list (list value.Primary);
     ConvertTableValueToJsonStructure := fun _ records => inr records;
     txjson_Encode := fun _ _ => "[]";
     ltsv_NewWriter := fun _ => None;
     ltsv_Write := fun _ fields => Text (lineOf (String tab EmptyString) fields);
     table_Encode := fun e =>
       Text (String.concat ""
               (map (fun r => lineOf "|" (map table.Contents r))
                    (match table.header e with Some h => [h] | None => [] end
                     ++ table.records e))) |}.

(** The same environment with a JSON conversion that refuses every
    table. *)
Definition refusingEnvironment : Environment :=
  {| GetFlags := @GetFlags plainEnvironment;
     GetPalette_isNil := false;
     Palette_Render := fun _ s => s;
     fp_Write := fun _ _ => None;
     csv_Write := @csv_Write plainEnvironment;
     fixedlen_GeneratePositions := fun _ _ => [];
     fixedlen_Write := @fixedlen_Write plainEnvironment;
     JsonStructure := unit;
     ConvertTableValueToJsonStructure := fun _ _ => inl "unsupported";
     txjson_Encode := fun _ _ => "";
     ltsv_NewWriter := fun _ => None;
     ltsv_Write := @ltsv_Write plainEnvironment;
     table_Encode := @table_Encode plainEnvironment |}.

Definition emptyWorld : World :=
  {| written := []; warnings := []; paletteEnabled := false |}.

Definition cellOf (p : value.Primary) : Cell := {| Value := p; cache := [] |}.

(** The view of the spec's end-to-end scenarios: columns [c1], [c2] of
    table [t1] and the row [(1, x)]. *)
Definition scenarioView : View :=
  {| ViewHeader := NewHeader "t1" ["c1"; "c2"];
     ViewRecordSet := [[cellOf (value.Integer 1); cellOf (value.String "x")]] |}.

(** The header of [TestHeader_TableColumnNames] over one row of three
    cells. *)
Definition mixedView : View :=
  {| ViewHeader := tableColumnsHeader;
     ViewRecordSet := [[cellOf (value.Integer 1); cellOf (value.Integer 2);
                        cellOf (value.Integer 3)]] |}.

(** A header of one expression column, which does not come from a
    table (the [c3] of [TestHeader_ContainsObject]), over one row. *)
Definition expressionView : View :=
  {| ViewHeader := [Build_HeaderField "" "c3" [] 0 false false];
     ViewRecordSet := [[cellOf (value.Integer 1)]] |}.

(** The scenario's header over no record. *)
Definition emptyRecordsView : View :=
  {| ViewHeader := NewHeader "t1" ["c1"; "c2"]; ViewRecordSet := [] |}.

(** The scenario's header over two records of different kinds. *)
Definition twoRowsView : View :=
  {| ViewHeader := NewHeader "t1" ["c1"; "c2"];
     ViewRecordSet := [[cellOf (value.Integer 1); cellOf (value.String "x")];
                       [cellOf (value.String "y"); cellOf value.Null]] |}.

Definition csvInfo : FileInfo :=
  {| Format := cmd.CSV; Delimiter := ","; DelimiterPositions := None;
     LineBreak := text.LF; NoHeader := false; Encoding := text.UTF8;
     JsonEscape := txjson.Backslash; PrettyPrint := false; EncloseAll := false |}.

(** ** Rows of a writer that reuses its [fields] array

    The delimited, the positioned fixed-length and the LTSV encoder
    overwrite one array record by record.  [carriedRows fields rows] is
    what such an array holds each time it is handed to the writer: a
    row that is shorter than the array leaves, behind its own cells,
    the cells the array held before. *)
Fixpoint carriedRows {F} (fields : list F) (rows : list (list F)) : list (list F) :=
  match rows with
  | [] => []
  | r :: rest =>
      let row := r ++ drop (length r) fields in
      row :: carriedRows row rest
  end.

(** ** Physical lines of a cell

    The lines the runes of a text fall into at its line breaks (CR LF,
    CR or LF), each as the bytes written for it, [line] being the part
    of the first line written so far. *)
Fixpoint linesFrom (runes : list Z) (line : string) : list string :=
  match runes with
  | [] => [line]
  | r :: rest =>
      if Z.eqb r 13 then
        line :: match rest with
                | r' :: rest' =>
                    if Z.eqb r' 10 then linesFrom rest' EmptyString
                    else linesFrom rest EmptyString
                | [] => [EmptyString]
                end
      else if Z.eqb r 10 then line :: linesFrom rest EmptyString
      else linesFrom rest (WriteRune line r)
  end.

(** A line as it enters the rendered cell: an empty line is not handed
    to the palette. *)
Definition renderedLine (render : string -> string) (line : string) : string :=
  if Nat.ltb 0 (String.length line) then render line else EmptyString.

(** The text holds no line break. *)
Definition breakFree (s : string) : bool :=
  forallb (fun r => negb (Ascii.eqb r "013" || Ascii.eqb r "010")) (list_ascii_of_string s).

(** ** The text a stream has taken

    All that was written to the caller's stream, whatever the pieces
    it arrived in. *)
Definition streamText (w : World) : string := String.concat "" (written w).

(** ** Runtime information ([GetRuntimeInformation]) *)

Definition UncommittedInformation : string := "UNCOMMITTED".
Definition CreatedInformation : string := "CREATED".
Definition UpdatedInformation : string := "UPDATED".
Definition UpdatedViewsInformation : string := "UPDATED_VIEWS".
Definition LoadedTablesInformation : string := "LOADED_TABLES".
Definition WorkingDirectory : string := "WORKING_DIRECTORY".
Definition VersionInformation : string := "VERSION".

Definition RuntimeInformatinList : list string :=
  [ UncommittedInformation;
    CreatedInformation;
    UpdatedInformation;
    UpdatedViewsInformation;
    LoadedTablesInformation;
    WorkingDirectory;
    VersionInformation ].

(** What [GetRuntimeInformation] reads of the process: the tracker of
    uncommitted views, the size of the view cache, the working
    directory as [os.Getwd] reports it (or its error), the version, and
    [strings.ToUpper] of the Go runtime. *)
Class Process := {
  strings_ToUpper : string -> string;
  UncommittedViews_IsEmpty : bool;
  UncommittedViews_CountCreatedTables : nat;
  UncommittedViews_CountUpdatedTables : nat;
  UncommittedViews_CountUpdatedViews : nat;
  ViewCache_len : nat;
  os_Getwd : string + string;
  Version : string
}.

Inductive RuntimeInformationError :=
| InvalidRuntimeInformationError (name : string)
| GetwdError (msg : string).

(** [GetRuntimeInformation(expr)], [name] being [expr.Name]: the value,
    or the error next to which the source returns the nil value. *)
Definition GetRuntimeInformation {P : Process} (name : string)
  : RuntimeInformationError + value.Primary :=
  let upper := strings_ToUpper name in
  if String.eqb upper UncommittedInformation then
    inr (value.Boolean (negb UncommittedViews_IsEmpty))
  else if String.eqb upper CreatedInformation then
    inr (value.Integer (Z.of_nat UncommittedViews_CountCreatedTables))
  else if String.eqb upper UpdatedInformation then
    inr (value.Integer (Z.of_nat UncommittedViews_CountUpdatedTables))
  else if String.eqb upper UpdatedViewsInformation then
    inr (value.Integer (Z.of_nat UncommittedViews_CountUpdatedViews))
  else if String.eqb upper LoadedTablesInformation then
    inr (value.Integer (Z.of_nat ViewCache_len))
  else if String.eqb upper WorkingDirectory then
    match os_Getwd with
    | inl msg => inl (GetwdError msg)
    | inr wd => inr (value.String wd)
    end
  else if String.eqb upper VersionInformation then
    inr (value.String Version)
  else inl (InvalidRuntimeInformationError name).

(** A process for running it: ASCII upper-casing, one created table. *)
Definition upperRune (r : ascii) : ascii :=
  let n := nat_of_ascii r in
  if Nat.leb 97 n && Nat.leb n 122 then ascii_of_nat (n - 32) else r.

Definition someProcess : Process :=
  {| strings_ToUpper := fun s => string_of_list_ascii (map upperRune (list_ascii_of_string s));
     UncommittedViews_IsEmpty := false;
     UncommittedViews_CountCreatedTables := 1;
     UncommittedViews_CountUpdatedTables := 0;
     UncommittedViews_CountUpdatedViews := 0;
     ViewCache_len := 2;
     os_Getwd := inr "/home/csvq";
     Version := "v1.5.0" |}.

(** A stream that refuses every write. *)
Definition closedStreamEnvironment : Environment :=
  {| GetFlags := @GetFlags plainEnvironment;
     GetPalette_isNil := false;
     Palette_Render := fun _ s => s;
     fp_Write := fun _ _ => Some "closed";
     csv_Write := @csv_Write plainEnvironment;
     fixedlen_GeneratePositions := fun _ _ => [];
     fixedlen_Write := @fixedlen_Write plainEnvironment;
     JsonStructure := @JsonStructure plainEnvironment;
     ConvertTableValueToJsonStructure := @ConvertTableValueToJsonStructure plainEnvironment;
     txjson_Encode := @txjson_Encode plainEnvironment;
     ltsv_NewWriter := fun _ => None;
     ltsv_Write := @ltsv_Write plainEnvironment;
     table_Encode := @table_Encode plainEnvironment |}.

(** The scenario's header over a record of one cell only, after a full
    record. *)
Definition shortRowView : View :=
  {| ViewHeader := NewHeader "t1" ["c1"; "c2"];
     ViewRecordSet := [[cellOf (value.Integer 1); cellOf (value.String "x")];
                       [cellOf (value.Integer 2)]] |}.

(** ** The shared random generator ([cmd.GetRand])

    The package variables [random] and [getRand]: the generators made
    so far, each by the seed of its source, the one [random] points to
    (by its index, [None] for nil), and whether the [sync.Once] has
    run.  A call is one step, as [Once.Do] lets no second caller
    through before the first has finished; [now] is what
    [time.Now().UnixNano()] would give during the call. *)
Record RandPackage := {
  generators : list Z;
  random : option nat;
  getRand : bool
}.

Definition initialRandPackage : RandPackage :=
  {| generators := []; random := None; getRand := false |}.

Definition GetRand (now : Z) (s : RandPackage) : option nat * RandPackage :=
  let s' :=
    if getRand s then s
    else {| generators := generators s ++ [now];
            random := Some (length (generators s));
            getRand := true |} in
  (random s', s').

(** A run of calls, one clock reading per call. *)
Fixpoint GetRandCalls (nows : list Z) (s : RandPackage) : list (option nat) * RandPackage :=
  match nows with
  | [] => ([], s)
  | now :: rest =>
      let '(r, s') := GetRand now s in
      let '(rs, s'') := GetRandCalls rest s' in
      (r :: rs, s'')
  end.

(** * Properties *)

(** ** Positions of matching fields *)

Lemma positionsFrom_spec (p : HeaderField -> bool) (h : Header) :
  forall k i, i ∈ positionsFrom p k h <->
              exists f, k <= i /\ h !! (i - k) = Some f /\ p f = true.
Proof.
  induction h as [|g h IH]; intros k i; simpl.
  - split.
    + intros Hin. inversion Hin.
    + intros (f & _ & Hl & _). discriminate.
  - assert (Htail : i ∈ positionsFrom p (S k) h <->
                    exists f, k <= i /\ (g :: h) !! (i - k) = Some f /\ p f = true /\ i <> k).
    { rewrite IH. split.
      - intros (f & Hle & Hl & Hp). exists f. repeat split; try lia; auto.
        replace (i - k) with (S (i - S k)) by lia. exact Hl.
      - intros (f & Hle & Hl & Hp & Hne). exists f. repeat split; try lia; auto.
        replace (i - k) with (S (i - S k)) in Hl by lia. exact Hl. }
    destruct (p g) eqn:Hg.
    + rewrite elem_of_cons, Htail. split.
      * intros [-> | (f & Hle & Hl & Hp & _)].
        -- exists g. rewrite Nat.sub_diag. auto.
        -- exists f. auto.
      * intros (f & Hle & Hl & Hp).
        destruct (decide (i = k)) as [-> | Hne]; [now left | right].
        exists f. auto.
    + rewrite Htail. split.
      * intros (f & Hle & Hl & Hp & _). exists f. auto.
      * intros (f & Hle & Hl & Hp). exists f. repeat split; auto.
        intros ->. rewrite Nat.sub_diag in Hl. simpl in Hl. congruence.
Qed.

Lemma positions_spec (p : HeaderField -> bool) (h : Header) (i : nat) :
  i ∈ positions p h <-> exists f, h !! i = Some f /\ p f = true.
Proof.
  unfold positions. rewrite positionsFrom_spec. rewrite Nat.sub_0_r.
  split; intros (f & H); exists f; intuition lia.
Qed.

Lemma positionsFrom_lower (p : HeaderField -> bool) (h : Header) (k i : nat) :
  i ∈ positionsFrom p k h -> k <= i.
Proof. rewrite positionsFrom_spec. intros (f & Hle & _). exact Hle. Qed.

Lemma positionsFrom_NoDup (p : HeaderField -> bool) (h : Header) :
  forall k, NoDup (positionsFrom p k h).
Proof.
  induction h as [|g h IH]; intros k; simpl; [constructor|].
  destruct (p g); [|apply IH].
  constructor; [|apply IH].
  intros Hin. apply positionsFrom_lower in Hin. lia.
Qed.

Lemma positions_NoDup (p : HeaderField -> bool) (h : Header) : NoDup (positions p h).
Proof. apply positionsFrom_NoDup. Qed.

(** Two predicates that agree on the fields of a header select the same
    positions. *)
Lemma positionsFrom_ext (p q : HeaderField -> bool) (h : Header) :
  (forall f, f ∈ h -> p f = q f) ->
  forall k, positionsFrom p k h = positionsFrom q k h.
Proof.
  induction h as [|g h IH]; intros Hpq k; simpl; [reflexivity|].
  rewrite (Hpq g) by left.
  rewrite IH; [reflexivity|].
  intros f Hf. apply Hpq. now right.
Qed.

(** Positions come in increasing order: the head is the least. *)
Lemma positionsFrom_head_least (p : HeaderField -> bool) (h : Header) :
  forall k i rest j, positionsFrom p k h = i :: rest -> j ∈ rest -> i < j.
Proof.
  induction h as [|g h IH]; intros k i rest j; simpl; [discriminate|].
  destruct (p g).
  - intros [= <- <-] Hj. apply positionsFrom_lower in Hj. lia.
  - apply IH.
Qed.

(** Two different matching indices leave at least two positions. *)
Lemma positions_two (p : HeaderField -> bool) (h : Header) (i j : nat) :
  i <> j -> i ∈ positions p h -> j ∈ positions p h ->
  exists a b rest, positions p h = a :: b :: rest.
Proof.
  intros Hne Hi Hj.
  destruct (positions p h) as [|a [|b rest]] eqn:E.
  - inversion Hi.
  - apply list_elem_of_singleton in Hi, Hj. congruence.
  - eauto.
Qed.

(** ** The cases of [header_test.go], replayed *)

Example TestHeader_TableColumns :
  TableColumns tableColumnsHeader
  = [parser.FieldReference "t1" "c1"; parser.FieldReference "" "c3"].
Proof. reflexivity. Qed.

Example TestHeader_TableColumnNames :
  TableColumnNames tableColumnsHeader = ["c1"; "c3"].
Proof. reflexivity. Qed.

Example TestHeader_ContainsObject :
  map (fun e => observed (ContainsObject e containsObjectHeader))
      [ parser.AggregateFunction "count" [parser.AllColumns];
        parser.FieldReference "t2" "c1";
        parser.ColumnNumber "t1" 2;
        parser.IntegerValue 1;
        parser.IntegerValue 2 ]
  = [ inr 5; inr 4; inr 1;
      inl "[L:- C:-] field 1 is ambiguous";
      inl "[L:- C:-] field 2 does not exist" ].
Proof. vm_compute. reflexivity. Qed.

Example TestHeader_ContainsNumber :
  map (fun '(v, n) => observed (ContainsNumber v n containsNumberHeader))
      [ ("t1", 2%Z); ("t1", 0%Z); ("t1", 9%Z) ]
  = [ inr 1;
      inl "[L:- C:-] field t1.0 does not exist";
      inl "[L:- C:-] field t1.9 does not exist" ].
Proof. vm_compute. reflexivity. Qed.

Example TestHeader_Contains :
  map (fun '(v, c) => observed (Contains v c containsHeader))
      [ ("t2", "c1"); ("", "a2"); ("", "c2"); ("", "c4"); ("", "c1"); ("", "d1") ]
  = [ inr 3; inr 1; inr 1; inr 5;
      inl "[L:- C:-] field c1 is ambiguous";
      inl "[L:- C:-] field d1 does not exist" ].
Proof. vm_compute. reflexivity. Qed.

Example TestNewHeader :
  NewHeaderWithId "table1" ["column1"; "column2"]
  = [ Build_HeaderField "table1" InternalIdColumn [] 0 false false;
      Build_HeaderField "table1" "column1" [] 1 true false;
      Build_HeaderField "table1" "column2" [] 2 true false ].
Proof. reflexivity. Qed.

Example TestNewHeaderWithoutId :
  NewHeader "table1" ["column1"; "column2"]
  = [ Build_HeaderField "table1" "column1" [] 1 true false;
      Build_HeaderField "table1" "column2" [] 2 true false ].
Proof. reflexivity. Qed.

Example TestHeader_Update_with_fields :
  afterUpdate "ref1" (Some ["c1"; "c2"; "c3"])
  = (None, [ Build_HeaderField "ref1" "c1" [] 0 false false;
             Build_HeaderField "ref1" "c2" [] 0 false false;
             Build_HeaderField "ref1" "c3" [] 0 false false ]).
Proof. vm_compute. reflexivity. Qed.

Example TestHeader_Update_without_fields :
  afterUpdate "ref1" None
  = (None, [ Build_HeaderField "ref1" "column1" [] 0 false false;
             Build_HeaderField "ref1" "column2" [] 0 false false;
             Build_HeaderField "ref1" "column3" [] 0 false false ]).
Proof. vm_compute. reflexivity. Qed.

Example TestHeader_Update_field_length_error :
  fst (afterUpdate "ref1" (Some ["c1"; "c2"]))
  = Some "[L:- C:-] field length does not match".
Proof. vm_compute. reflexivity. Qed.

Example TestHeader_Update_duplicate_error :
  fst (afterUpdate "ref1" (Some ["c1"; "c2"; "c2"]))
  = Some "[L:- C:-] field name c2 is a duplicate".
Proof. vm_compute. reflexivity. Qed.

(** ** The field content converter *)

Section ConverterProperties.
Context {VT : ValueText}.

(** C6. A Ternary UNKNOWN and a Null convert, outside a text table, to
    the empty string with no style class and no alignment; for a text
    table they convert to the literals UNKNOWN and NULL, with the
    Ternary and the Null style class, centred. *)
Theorem ConvertFieldContents_unknown_and_null :
  ConvertFieldContents (value.Ternary ternary.UNKNOWN) false
    = ("", cmd.NoEffect, text.NotAligned)
  /\ ConvertFieldContents value.Null false
    = ("", cmd.NoEffect, text.NotAligned)
  /\ ConvertFieldContents (value.Ternary ternary.UNKNOWN) true
    = ("UNKNOWN", cmd.TernaryEffect, text.Centering)
  /\ ConvertFieldContents value.Null true
    = ("NULL", cmd.NullEffect, text.Centering).
Proof.
  unfold ConvertFieldContents; cbn [ternary.eqb ternary.String negb].
  repeat split.
Qed.

(** A Ternary that is not UNKNOWN prints as the Boolean it collapses to
    when the target is not a text table. *)
Lemma ConvertFieldContents_known_ternary (t : ternary.Value) :
  t <> ternary.UNKNOWN ->
  ConvertFieldContents (value.Ternary t) false
  = (strconv.FormatBool (ternary.ParseBool t), cmd.BooleanEffect, text.Centering).
Proof. destruct t; intros H; [reflexivity | reflexivity | congruence]. Qed.

(** C10. The converter is a total function into triples and has no
    error result; a value of none of the seven variants converts, for
    either target, to the empty string with no style class and no
    alignment, which is also what a Null converts to outside a text
    table. *)
Theorem ConvertFieldContents_total :
  (forall (val : value.Primary) (forTextTable : bool),
      exists s effect align, ConvertFieldContents val forTextTable = (s, effect, align))
  /\ (forall (tag : nat) (forTextTable : bool),
         ConvertFieldContents (value.Other tag) forTextTable
         = ("", cmd.NoEffect, text.NotAligned))
  /\ (forall (tag : nat) (forTextTable : bool),
         ConvertFieldContents (value.Other tag) forTextTable
         = ConvertFieldContents value.Null false)
  /\ (forall val : value.Primary,
         documented val = false <-> exists tag, val = value.Other tag).
Proof.
  split; [|split; [|split]].
  - intros val b. destruct (ConvertFieldContents val b) as [[s e] a]. eauto.
  - reflexivity.
  - reflexivity.
  - intros val. split.
    + destruct val; simpl; try discriminate. eauto.
    + intros [tag ->]. reflexivity.
Qed.

End ConverterProperties.

(** ** The shared flattening step *)

Lemma fold_left_snoc_map {A B} (g : A -> B) (l : list A) (acc : list B) :
  fold_left (fun acc x => acc ++ [g x]) l acc = acc ++ map g l.
Proof.
  revert acc. induction l as [|x l IH]; intros acc; simpl.
  - now rewrite app_nil_r.
  - rewrite IH. now rewrite <- app_assoc.
Qed.

(** The two append loops of [bareValues] dereference every cell of
    every record, in order. *)
Lemma bareValues_records (v : View) :
  snd (bareValues v) = map (map Value) (ViewRecordSet v).
Proof.
  unfold bareValues. cbn [snd].
  rewrite (fold_left_snoc_map
             (fun record => fold_left (fun row cell => row ++ [Value cell]) record [])).
  cbn [app]. apply map_ext. intros record.
  now rewrite (fold_left_snoc_map Value).
Qed.

Lemma bareValues_header (v : View) :
  fst (bareValues v) = TableColumnNames (ViewHeader v).
Proof. reflexivity. Qed.

Lemma TableColumnNames_all_from_table (h : Header) :
  Forall (fun f => isFromTable f = true) h -> TableColumnNames h = map column h.
Proof.
  unfold TableColumnNames. induction 1 as [|f h Hf _ IH]; [reflexivity|].
  simpl. rewrite Hf. simpl. now rewrite IH.
Qed.

Lemma TableColumnNames_length (h : Header) :
  length (TableColumnNames h) <= length h.
Proof.
  unfold TableColumnNames. rewrite length_map.
  induction h as [|f h IH]; simpl; [lia|].
  destruct (isFromTable f); simpl; lia.
Qed.

(** A field that does not come from a table costs the name list one
    name. *)
Lemma TableColumnNames_short (h : Header) :
  Exists (fun f => isFromTable f = false) h -> length (TableColumnNames h) < length h.
Proof.
  induction 1 as [f h Hf | f h _ IH].
  - pose proof (TableColumnNames_length h) as Hle.
    unfold TableColumnNames in *. simpl. rewrite Hf. simpl. lia.
  - unfold TableColumnNames in *. simpl.
    destruct (isFromTable f); simpl; rewrite ?length_map in *; simpl; lia.
Qed.

(** C2, as stated, fails: with a field that has [isFromTable == false]
    in the header, the name list is shorter than the header and than
    the flattened rows.  The view is the header of
    [TestHeader_TableColumnNames] over one row of three cells. *)
Lemma bareValues_names_skip_non_table_fields :
  ~ (forall v : View,
        Forall (fun record => length record = length (ViewHeader v)) (ViewRecordSet v) ->
        length (fst (bareValues v)) = length (ViewHeader v)
        /\ Forall (fun row => length row = length (fst (bareValues v))) (snd (bareValues v))).
Proof.
  intros H.
  destruct (H mixedView) as [Hlen _].
  - repeat constructor.
  - vm_compute in Hlen. discriminate.
Qed.

(** C2, amended.  The name list holds the column of every header field
    with [isFromTable], in header order, and nothing else, so it is
    never longer than the header; the rows hold the value of every
    cell, in order.  When every field of the header comes from a table
    and every record has the arity of the header, there is one name per
    header field and as many names as values in every flattened row. *)
Theorem bareValues_names_and_rows (v : View) :
  fst (bareValues v) = map column (List.filter isFromTable (ViewHeader v))
  /\ snd (bareValues v) = map (map Value) (ViewRecordSet v)
  /\ length (fst (bareValues v)) <= length (ViewHeader v)
  /\ (Forall (fun f => isFromTable f = true) (ViewHeader v) ->
      Forall (fun record => length record = length (ViewHeader v)) (ViewRecordSet v) ->
      fst (bareValues v) = map column (ViewHeader v)
      /\ length (fst (bareValues v)) = length (ViewHeader v)
      /\ Forall (fun row => length row = length (fst (bareValues v))) (snd (bareValues v))).
Proof.
  split; [reflexivity|].
  split; [apply bareValues_records|].
  split; [rewrite bareValues_header; apply TableColumnNames_length|].
  intros Hall Harity.
  assert (Hnames : fst (bareValues v) = map column (ViewHeader v)).
  { rewrite bareValues_header. now apply TableColumnNames_all_from_table. }
  split; [exact Hnames|].
  split; [now rewrite Hnames, length_map|].
  rewrite bareValues_records, Hnames, length_map.
  apply Forall_map. eapply Forall_impl; [exact Harity|].
  intros record Hr. simpl. now rewrite length_map.
Qed.

Lemma bareValues_names_and_rows_scenario :
  Forall (fun f => isFromTable f = true) (ViewHeader scenarioView)
  /\ Forall (fun record => length record = length (ViewHeader scenarioView))
            (ViewRecordSet scenarioView)
  /\ fst (bareValues scenarioView) = ["c1"; "c2"]
  /\ snd (bareValues scenarioView) = [[value.Integer 1; value.String "x"]].
Proof.
  assert (Hall : Forall (fun f => isFromTable f = true) (ViewHeader scenarioView))
    by (repeat constructor).
  assert (Harity : Forall (fun record => length record = length (ViewHeader scenarioView))
                          (ViewRecordSet scenarioView))
    by (repeat constructor).
  split; [exact Hall|]. split; [exact Harity|].
  destruct (bareValues_names_and_rows scenarioView) as (_ & Hrows & _ & Himp).
  destruct (Himp Hall Harity) as (Hnames & _).
  split; [exact Hnames | exact Hrows].
Defined.

(** ** The text table encoder *)

Section EncoderProperties.
Context {VT : ValueText} {Env : Environment}.

Lemma Flush_never_empty_result (s : string) (w : World) :
  fst (Flush s w) <> Failed EmptyResultSetError.
Proof.
  unfold Flush, fpWrite, ret.
  destruct (String.eqb s ""); [discriminate|].
  destruct (fp_Write (written w) s); discriminate.
Qed.

Lemma renderTable_never_empty_result header records format tableFormat plain lb wh enc
  (w : World) :
  fst (renderTable header records format tableFormat plain lb wh enc w)
  <> Failed EmptyResultSetError.
Proof.
  unfold renderTable, bind, lift, fromReply.
  destruct (table_Encode _) as [s | msg]; [|discriminate].
  apply Flush_never_empty_result.
Qed.

Lemma encodeText_GFM v lb wh enc :
  encodeText v cmd.GFM lb wh enc
  = renderTable (fst (bareValues v)) (snd (bareValues v))
                cmd.GFM table.GFMTable false lb wh enc.
Proof. reflexivity. Qed.

Lemma encodeText_ORG v lb wh enc :
  encodeText v cmd.ORG lb wh enc
  = renderTable (fst (bareValues v)) (snd (bareValues v))
                cmd.ORG table.OrgTable false lb wh enc.
Proof. reflexivity. Qed.

(** The three ways of the plain text table. *)
Lemma encodeText_TEXT v lb wh enc :
  encodeText v cmd.TEXT lb wh enc
  = match fst (bareValues v), ViewRecordSet v with
    | [], _ =>
        let* _ := LogWarn "Empty Fields" (cmd.Quiet GetFlags) in raise EmptyResultSetError
    | _ :: _, [] =>
        let* _ := LogWarn "Empty RecordSet" (cmd.Quiet GetFlags) in raise EmptyResultSetError
    | _ :: _, _ :: _ =>
        renderTable (fst (bareValues v)) (snd (bareValues v))
                    cmd.TEXT table.PlainTable true lb wh enc
    end.
Proof.
  unfold encodeText.
  pose proof (bareValues_records v) as Hr.
  destruct (bareValues v) as [header records]. cbn [fst snd] in *.
  destruct header as [|name header]; [reflexivity|].
  subst records.
  destruct (ViewRecordSet v) as [|r rs]; reflexivity.
Qed.

Lemma encodeText_TEXT_empty_iff (v : View) lb wh enc (w : World) :
  fst (encodeText v cmd.TEXT lb wh enc w) = Failed EmptyResultSetError
  <-> fst (bareValues v) = [] \/ ViewRecordSet v = [].
Proof.
  rewrite encodeText_TEXT. split.
  - destruct (fst (bareValues v)) as [|name header]; [now left|].
    destruct (ViewRecordSet v) as [|r rs]; [now right|].
    intros H. now apply renderTable_never_empty_result in H.
  - destruct (fst (bareValues v)) as [|name header]; [reflexivity|].
    destruct (ViewRecordSet v) as [|r rs]; [reflexivity|].
    intros [H | H]; discriminate.
Qed.

(** C7, amended.  Encoding a view as a plain text table fails with
    [EmptyResultSetError] exactly when the header has no field with
    [isFromTable] (the column names the encoder works on are empty; an
    empty header is the first case of it) or the record set is empty.
    It then leaves the stream untouched and has logged one warning,
    "Empty Fields" or "Empty RecordSet", naming the empty side.
    Encoding the same view as a GFM or an Org table never fails with
    [EmptyResultSetError]. *)
Theorem encodeText_empty_result_set (v : View) (lb : text.LineBreak) (wh : bool)
  (enc : text.Encoding) (w : World) :
  (fst (encodeText v cmd.TEXT lb wh enc w) = Failed EmptyResultSetError
   <-> TableColumnNames (ViewHeader v) = [] \/ ViewRecordSet v = [])
  /\ (ViewHeader v = [] -> TableColumnNames (ViewHeader v) = [])
  /\ (TableColumnNames (ViewHeader v) = [] ->
      encodeText v cmd.TEXT lb wh enc w
      = (Failed EmptyResultSetError, warned w "Empty Fields" (cmd.Quiet GetFlags)))
  /\ (TableColumnNames (ViewHeader v) <> [] -> ViewRecordSet v = [] ->
      encodeText v cmd.TEXT lb wh enc w
      = (Failed EmptyResultSetError, warned w "Empty RecordSet" (cmd.Quiet GetFlags)))
  /\ (forall (msg : string) (quiet : bool),
         written (warned w msg quiet) = written w
         /\ warnings (warned w msg quiet) = warnings w ++ [(msg, quiet)])
  /\ fst (encodeText v cmd.GFM lb wh enc w) <> Failed EmptyResultSetError
  /\ fst (encodeText v cmd.ORG lb wh enc w) <> Failed EmptyResultSetError.
Proof.
  rewrite <- bareValues_header.
  split; [apply encodeText_TEXT_empty_iff|].
  split; [intros Hh; now rewrite bareValues_header, Hh|].
  rewrite encodeText_TEXT, encodeText_GFM, encodeText_ORG.
  repeat split.
  - intros ->. reflexivity.
  - intros Hne ->. destruct (fst (bareValues v)); [congruence | reflexivity].
  - apply renderTable_never_empty_result.
  - apply renderTable_never_empty_result.
Qed.

(** For a view whose header fields all come from a table, the header
    side of the condition is the emptiness of the header itself. *)
Lemma encodeText_empty_result_set_table_view (v : View) lb wh enc (w : World) :
  Forall (fun f => isFromTable f = true) (ViewHeader v) ->
  (fst (encodeText v cmd.TEXT lb wh enc w) = Failed EmptyResultSetError
   <-> ViewHeader v = [] \/ ViewRecordSet v = []).
Proof.
  intros Hall.
  rewrite encodeText_TEXT_empty_iff, bareValues_header,
    (TableColumnNames_all_from_table _ Hall).
  destruct (ViewHeader v); simpl; intuition congruence.
Qed.

(** *** The alignment markers of a GFM table *)

Lemma textCell_align (format : cmd.Format) (plain : bool) (v : value.Primary) :
  snd (textCell format plain v) = snd (ConvertFieldContents v plain).
Proof.
  unfold textCell. destruct (ConvertFieldContents v plain) as [[s e] a]. reflexivity.
Qed.

Lemma appendCells_spec (format : cmd.Format) (plain : bool) (i : nat)
  (record : list value.Primary) (aligns : list text.FieldAlignment) :
  appendCells format plain i record aligns
  = (map (fun v => fst (textCell format plain v)) record,
     if Nat.eqb i 0
     then aligns ++ map (fun v => snd (ConvertFieldContents v plain)) record
     else aligns).
Proof.
  unfold appendCells.
  assert (Hgen : forall rfields,
             fold_left
               (fun '(rfields, aligns) v =>
                  let '(field, align) := textCell format plain v in
                  (rfields ++ [field], if Nat.eqb i 0 then aligns ++ [align] else aligns))
               record (rfields, aligns)
             = (rfields ++ map (fun v => fst (textCell format plain v)) record,
                if Nat.eqb i 0
                then aligns ++ map (fun v => snd (ConvertFieldContents v plain)) record
                else aligns)).
  { revert aligns. induction record as [|v record IH]; intros aligns rfields; simpl.
    - rewrite !app_nil_r. now destruct (Nat.eqb i 0).
    - pose proof (textCell_align format plain v) as Ha.
      destruct (textCell format plain v) as [field align]. simpl in Ha. subst align.
      rewrite IH. destruct (Nat.eqb i 0); now rewrite <- !app_assoc. }
  apply (Hgen []).
Qed.

(** Records after the first leave [aligns] as it is. *)
Lemma appendRecords_later (format : cmd.Format) (plain : bool)
  (records : list (list value.Primary)) :
  forall (i : nat) (e : table.Encoder) (aligns : list text.FieldAlignment),
    snd (appendRecords format plain (S i) records e aligns) = aligns.
Proof.
  induction records as [|record rest IH]; intros i e aligns; simpl; [reflexivity|].
  rewrite appendCells_spec. simpl. apply IH.
Qed.

Lemma appendRecords_first (format : cmd.Format) (plain : bool)
  (record : list value.Primary) (rest : list (list value.Primary)) (e : table.Encoder) :
  snd (appendRecords format plain 0 (record :: rest) e [])
  = map (fun v => snd (ConvertFieldContents v plain)) record.
Proof. simpl. rewrite appendCells_spec. simpl. apply appendRecords_later. Qed.

Lemma textEncoder_GFM_alignments (header : list string)
  (records : list (list value.Primary)) lb wh enc :
  table.alignments (textEncoder header records cmd.GFM table.GFMTable false lb wh enc)
  = Some (snd (appendRecords cmd.GFM false 0 records
                 (if negb wh
                  then table.SetHeader
                         {| table.format := table.GFMTable;
                            table.recordLen := length records;
                            table.LineBreak := lb;
                            table.EastAsianEncoding := cmd.EastAsianEncoding GetFlags;
                            table.CountDiacriticalSign := cmd.CountDiacriticalSign GetFlags;
                            table.CountFormatCode := cmd.CountFormatCode GetFlags;
                            table.WithoutHeader := wh;
                            table.Encoding := enc;
                            table.header := None;
                            table.records := [];
                            table.alignments := None |}
                         (map (fun name => table.NewField name text.Centering) header)
                  else
                    {| table.format := table.GFMTable;
                       table.recordLen := length records;
                       table.LineBreak := lb;
                       table.EastAsianEncoding := cmd.EastAsianEncoding GetFlags;
                       table.CountDiacriticalSign := cmd.CountDiacriticalSign GetFlags;
                       table.CountFormatCode := cmd.CountFormatCode GetFlags;
                       table.WithoutHeader := wh;
                       table.Encoding := enc;
                       table.header := None;
                       table.records := [];
                       table.alignments := None |})
                 [])).
Proof.
  unfold textEncoder. cbn [table.NewEncoder table.format table.recordLen table.header
                           table.records table.alignments cmd.Format_eqb].
  destruct (appendRecords _ _ _ _ _ _) as [e aligns]. reflexivity.
Qed.

(** C8. For a view with at least one record, the alignments that
    [encodeText] hands to the GFM table encoder are the alignment hints
    of the converter for the cells of the first record, one per cell
    and in order; no later record has a part in them. *)
Theorem encodeText_GFM_alignments (v : View) (first : list Cell) (later : RecordSet)
  (lb : text.LineBreak) (wh : bool) (enc : text.Encoding) :
  ViewRecordSet v = first :: later ->
  let e := textEncoder (fst (bareValues v)) (snd (bareValues v))
                       cmd.GFM table.GFMTable false lb wh enc in
  encodeText v cmd.GFM lb wh enc = (let* s := lift (fromReply (table_Encode e)) in Flush s)
  /\ table.alignments e
     = Some (map (fun cell => snd (ConvertFieldContents (Value cell) false)) first)
  /\ (forall aligns, table.alignments e = Some aligns -> length aligns = length first).
Proof.
  intros Hrecords e.
  assert (Ha : table.alignments e
               = Some (map (fun cell => snd (ConvertFieldContents (Value cell) false)) first)).
  { unfold e. rewrite textEncoder_GFM_alignments, bareValues_records, Hrecords.
    cbn [map]. rewrite appendRecords_first. now rewrite map_map. }
  split; [reflexivity|]. split; [exact Ha|].
  intros aligns Hal. rewrite Ha in Hal. injection Hal as <-. apply length_map.
Qed.

(** Outside GFM no alignments are set on the table encoder. *)
Lemma textEncoder_no_alignments (header : list string)
  (records : list (list value.Primary)) (format : cmd.Format) tf plain lb wh enc :
  format <> cmd.GFM ->
  table.alignments (textEncoder header records format tf plain lb wh enc) = None.
Proof.
  intros Hf. unfold textEncoder.
  assert (Hkeep : forall rs i e0 al,
             table.alignments (fst (appendRecords format plain i rs e0 al))
             = table.alignments e0).
  { induction rs as [|r rs IH]; intros i e0 al; simpl; [reflexivity|].
    rewrite appendCells_spec. rewrite IH. reflexivity. }
  match goal with
  | |- context [appendRecords format plain 0 records ?e0 []] =>
      pose proof (Hkeep records 0 e0 []) as Hk;
      destruct (appendRecords format plain 0 records e0 []) as [e1 al]
  end.
  simpl in Hk.
  destruct format; try congruence; simpl; rewrite Hk; now destruct wh.
Qed.

(** ** The dispatcher *)

(** C9. With the TSV format, [EncodeView] sets the delimiter of the
    caller's descriptor to the tab character and encodes as delimited
    text with that delimiter; the descriptor keeps the tab after the
    call, so that a later encode as CSV through the same descriptor
    writes tabs, whatever delimiter the descriptor had. *)
Theorem EncodeView_TSV_sets_delimiter (v : View) (fileInfo : FileInfo) (w : World) :
  Format fileInfo = cmd.TSV ->
  EncodeView v fileInfo w
  = (encodeCSV v tab (LineBreak fileInfo) (NoHeader fileInfo) (Encoding fileInfo)
               (EncloseAll fileInfo) w,
     setDelimiter fileInfo tab)
  /\ Delimiter (snd (EncodeView v fileInfo w)) = tab
  /\ (forall (v' : View) (w' : World),
         fst (EncodeView v' (setFormat (snd (EncodeView v fileInfo w)) cmd.CSV) w')
         = encodeCSV v' tab (LineBreak fileInfo) (NoHeader fileInfo) (Encoding fileInfo)
                     (EncloseAll fileInfo) w').
Proof.
  intros Hf. unfold EncodeView. rewrite Hf. cbn.
  repeat split.
Qed.

(** Every other format leaves the descriptor as it was. *)
Lemma EncodeView_keeps_descriptor (v : View) (fileInfo : FileInfo) (w : World) :
  Format fileInfo <> cmd.TSV -> snd (EncodeView v fileInfo w) = fileInfo.
Proof.
  intros Hf. unfold EncodeView. destruct (Format fileInfo); try reflexivity. congruence.
Qed.

End EncoderProperties.

(** ** The encoders at work *)

(** C7, as stated, fails: a header that is not empty but has no field
    from a table, over a record set that is not empty, is refused as an
    empty result set all the same. *)
Lemma encodeText_refuses_header_without_table_fields :
  ~ (forall (VT : ValueText) (Env : Environment) (v : View) (lb : text.LineBreak)
            (wh : bool) (enc : text.Encoding) (w : World),
        fst (encodeText v cmd.TEXT lb wh enc w) = Failed EmptyResultSetError
        <-> ViewHeader v = [] \/ ViewRecordSet v = []).
Proof.
  intros H.
  destruct (H plainText plainEnvironment expressionView text.LF false text.UTF8 emptyWorld)
    as [Hfail _].
  destruct Hfail as [Hh | Hr]; [reflexivity | discriminate | discriminate].
Qed.

Example expressionView_as_text :
  @encodeText plainText plainEnvironment expressionView cmd.TEXT text.LF false text.UTF8
              emptyWorld
  = (Failed EmptyResultSetError,
     {| written := []; warnings := [("Empty Fields", false)]; paletteEnabled := false |}).
Proof. reflexivity. Qed.

(** The spec's scenario of the empty record set under a header that is
    not empty: refused as plain text with nothing written, rendered as
    GFM with the header row. *)
Example empty_record_set_as_text :
  @EncodeView plainText plainEnvironment emptyRecordsView (setFormat csvInfo cmd.TEXT)
              emptyWorld
  = (Failed EmptyResultSetError,
     {| written := []; warnings := [("Empty RecordSet", false)]; paletteEnabled := false |},
     setFormat csvInfo cmd.TEXT).
Proof. reflexivity. Qed.

Example empty_record_set_as_GFM :
  fst (fst (@EncodeView plainText plainEnvironment emptyRecordsView
                        (setFormat csvInfo cmd.GFM) emptyWorld))
  = Done tt.
Proof. reflexivity. Qed.

(** The spec's delimited scenario: two lines, [c1,c2] and [1,x]. *)
Example scenario_as_CSV :
  written (snd (fst (@EncodeView plainText plainEnvironment scenarioView csvInfo emptyWorld)))
  = [String.append "c1,c2" (String.append lineFeed (String.append "1,x" lineFeed))].
Proof. reflexivity. Qed.

(** A record longer than the name list runs the delimited writer out of
    its [fields] array. *)
Example mixedView_as_CSV_panics :
  fst (fst (@EncodeView plainText plainEnvironment mixedView csvInfo emptyWorld)) = Panicked.
Proof. reflexivity. Qed.

Lemma encodeText_GFM_alignments_two_rows :
  ViewRecordSet twoRowsView
  = [cellOf (value.Integer 1); cellOf (value.String "x")]
      :: [[cellOf (value.String "y"); cellOf value.Null]]
  /\ table.alignments
       (@textEncoder plainText plainEnvironment
          (fst (bareValues twoRowsView)) (snd (bareValues twoRowsView))
          cmd.GFM table.GFMTable false text.LF false text.UTF8)
     = Some [text.RightAligned; text.NotAligned].
Proof.
  split; [reflexivity|].
  exact (proj1 (proj2 (@encodeText_GFM_alignments plainText plainEnvironment twoRowsView
                         [cellOf (value.Integer 1); cellOf (value.String "x")]
                         [[cellOf (value.String "y"); cellOf value.Null]]
                         text.LF false text.UTF8 eq_refl))).
Defined.

Lemma EncodeView_TSV_sets_delimiter_scenario :
  Format (setFormat csvInfo cmd.TSV) = cmd.TSV
  /\ Delimiter (setFormat csvInfo cmd.TSV) = ","%char
  /\ Delimiter (snd (@EncodeView plainText plainEnvironment scenarioView
                                 (setFormat csvInfo cmd.TSV) emptyWorld)) = tab.
Proof.
  split; [reflexivity|]. split; [reflexivity|].
  exact (proj1 (proj2 (@EncodeView_TSV_sets_delimiter plainText plainEnvironment
                         scenarioView (setFormat csvInfo cmd.TSV) emptyWorld eq_refl))).
Defined.

(** After one TSV encode, a CSV encode through the same descriptor
    writes tabs. *)
Example CSV_after_TSV_writes_tabs :
  let fileInfo := snd (@EncodeView plainText plainEnvironment scenarioView
                                   (setFormat csvInfo cmd.TSV) emptyWorld) in
  written (snd (fst (@EncodeView plainText plainEnvironment scenarioView
                                 (setFormat fileInfo cmd.CSV) emptyWorld)))
  = [String.append "c1" (String tab (String.append "c2"
       (String.append lineFeed (String.append "1" (String tab (String.append "x" lineFeed))))))].
Proof. reflexivity. Qed.

(** ** Header resolution *)

Lemma positionsFrom_map (r : HeaderField -> HeaderField) (p : HeaderField -> bool)
  (h : Header) :
  forall k, positionsFrom p k (map r h) = positionsFrom (fun f => p (r f)) k h.
Proof.
  induction h as [|g h IH]; intros k; simpl; [reflexivity|].
  now rewrite !IH.
Qed.

Lemma positions_none (p : HeaderField -> bool) (h : Header) :
  (forall f, f ∈ h -> p f = false) -> positions p h = [].
Proof.
  intros Hp. unfold positions.
  rewrite (positionsFrom_ext p (fun _ => false) h Hp).
  generalize 0. induction h as [|g h IH]; intros k; simpl; [reflexivity|].
  apply IH. intros f Hf. apply Hp. now right.
Qed.

(** The head of the positions is the first matching index. *)
Lemma positions_head (p : HeaderField -> bool) (h : Header) (j : nat) :
  firstAt p h j -> exists rest, positions p h = j :: rest.
Proof.
  intros [Hj Hleast].
  apply positions_spec in Hj.
  destruct (positions p h) as [|a rest] eqn:E; [inversion Hj|].
  exists rest. f_equal.
  assert (Ha : a ∈ positions p h) by (rewrite E; left).
  apply positions_spec in Ha. destruct Ha as (f & Hf & Hp).
  pose proof (Hleast a f Hf Hp) as Hle.
  apply elem_of_cons in Hj. destruct Hj as [-> | Hin]; [reflexivity|].
  pose proof (positionsFrom_head_least p h 0 a rest j E Hin). lia.
Qed.

(** [uniquely] over positions, case by case. *)
Lemma uniquely_not_exist (e : parser.QueryExpression) (p : HeaderField -> bool) (h : Header) :
  uniquely e (positions p h) = inl (FieldNotExistError e)
  <-> forall i, ~ i ∈ positions p h.
Proof.
  destruct (positions p h) as [|a [|b rest]]; simpl; split; try discriminate.
  - intros _ i Hi. inversion Hi.
  - reflexivity.
  - intros H. exfalso. apply (H a). left.
  - intros H. exfalso. apply (H a). left.
Qed.

Lemma uniquely_found (e : parser.QueryExpression) (p : HeaderField -> bool) (h : Header)
  (i : nat) :
  uniquely e (positions p h) = inr i
  <-> i ∈ positions p h /\ forall j, j ∈ positions p h -> j = i.
Proof.
  pose proof (positions_NoDup p h) as Hnd.
  destruct (positions p h) as [|a [|b rest]]; simpl; split; try discriminate.
  - intros [Hi _]. inversion Hi.
  - intros [= ->]. split; [left|]. intros j Hj. now apply list_elem_of_singleton in Hj.
  - intros [Hi _]. apply list_elem_of_singleton in Hi. now subst.
  - intros [_ Hall]. exfalso.
    assert (a = i) by (apply Hall; left).
    assert (b = i) by (apply Hall; right; left).
    subst. apply NoDup_cons in Hnd. destruct Hnd as [Hnot _]. apply Hnot. left.
Qed.

Lemma uniquely_ambiguous (e : parser.QueryExpression) (p : HeaderField -> bool) (h : Header) :
  uniquely e (positions p h) = inl (FieldAmbiguousError e)
  <-> exists i j, i <> j /\ i ∈ positions p h /\ j ∈ positions p h.
Proof.
  pose proof (positions_NoDup p h) as Hnd.
  destruct (positions p h) as [|a [|b rest]] eqn:E; simpl; split; try discriminate.
  - intros (i & _ & _ & Hi & _). inversion Hi.
  - intros (i & j & Hne & Hi & Hj).
    apply list_elem_of_singleton in Hi, Hj. congruence.
  - intros _. exists a, b. repeat split; [|left|right; left].
    intros ->. apply NoDup_cons in Hnd. destruct Hnd as [Hnot _]. apply Hnot. left.
  - reflexivity.
Qed.

Lemma columnAt_positions (txt : string) (h : Header) (i : nat) :
  i ∈ positions (fun f => true && String.eqb (column f) txt) h <-> columnAt txt h i.
Proof.
  rewrite positions_spec. unfold columnAt.
  split; intros (f & Hf & Hp); exists f; split; auto.
  - simpl in Hp. now apply String.eqb_eq in Hp.
  - simpl. now apply String.eqb_eq.
Qed.

(** C3. Resolving a bare integer literal looks at nothing but the
    columns: it fails as not existing exactly when no field has the
    literal's decimal text as its column, returns an index exactly when
    that field is the only one with this column, and fails as
    ambiguous exactly when two fields have it; the numbers of the
    fields may be replaced at will without changing the result. *)
Theorem ContainsObject_integer_literal (h : Header) (n : Z) :
  let lit := parser.IntegerValue n in
  let txt := strconv.FormatInt n in
  (ContainsObject lit h = inl (FieldNotExistError lit)
   <-> forall i, ~ columnAt txt h i)
  /\ (forall i, ContainsObject lit h = inr i
                <-> columnAt txt h i /\ forall j, columnAt txt h j -> j = i)
  /\ (ContainsObject lit h = inl (FieldAmbiguousError lit)
      <-> exists i j, i <> j /\ columnAt txt h i /\ columnAt txt h j)
  /\ (forall g : HeaderField -> nat,
         ContainsObject lit (renumbered g h) = ContainsObject lit h)
  /\ Error (FieldNotExistError lit) = ("[L:- C:-] field " ++ txt ++ " does not exist")%string
  /\ Error (FieldAmbiguousError lit) = ("[L:- C:-] field " ++ txt ++ " is ambiguous")%string.
Proof.
  intros lit txt.
  change (ContainsObject lit h)
    with (uniquely lit (positions (fun f => true && String.eqb (column f) txt) h)).
  split; [|split; [|split; [|split; [|split]]]].
  - rewrite uniquely_not_exist.
    split; intros H i Hi; apply (H i); now apply columnAt_positions.
  - intros i. rewrite uniquely_found, columnAt_positions.
    split; intros [Hi Hall]; (split; [exact Hi|]); intros j Hj; apply Hall;
      now apply columnAt_positions.
  - rewrite uniquely_ambiguous.
    split; intros (i & j & Hne & Hi & Hj); exists i, j; repeat split; auto;
      now apply columnAt_positions.
  - intros g.
    change (ContainsObject lit (renumbered g h))
      with (uniquely lit (positions (fun f => true && String.eqb (column f) txt)
                                    (renumbered g h))).
    unfold renumbered, positions. now rewrite positionsFrom_map.
  - reflexivity.
  - reflexivity.
Qed.

(** *** Unqualified names carried by several fields *)

Lemma Contains_unqualified (name : string) (h : Header) :
  Contains "" name h
  = match positions (answersTo name) h with
    | [] => inl (FieldNotExistError (parser.FieldReference "" name))
    | [i] => inr i
    | _ =>
        match positions (plainMatch name) h, positions (joinDuplicate name) h with
        | _ :: _ :: _, _ => inl (FieldAmbiguousError (parser.FieldReference "" name))
        | _, j :: _ => inr j
        | _, [] => inl (FieldAmbiguousError (parser.FieldReference "" name))
        end
    end.
Proof. reflexivity. Qed.

Lemma duplicated_positions (name : string) (h : Header) :
  duplicated name h -> exists a b rest, positions (answersTo name) h = a :: b :: rest.
Proof.
  intros (i & j & Hne & Hi & Hj).
  apply (positions_two _ _ i j Hne); now apply positions_spec.
Qed.

(** Two or more positions are two different matching indices. *)
Lemma positions_several (p : HeaderField -> bool) (h : Header) :
  (exists a b rest, positions p h = a :: b :: rest)
  <-> exists i i', i <> i' /\ i ∈ positions p h /\ i' ∈ positions p h.
Proof.
  split.
  - intros (a & b & rest & E).
    pose proof (positions_NoDup p h) as Hnd. rewrite E in *.
    exists a, b. repeat split; [|left|right; left].
    intros ->. apply NoDup_cons in Hnd. destruct Hnd as [Hnot _]. apply Hnot. left.
  - intros (i & i' & Hne & Hi & Hi'). now apply (positions_two p h i i').
Qed.

Lemma plainAt_positions (name : string) (h : Header) (i : nat) :
  i ∈ positions (plainMatch name) h <-> plainAt name h i.
Proof. apply positions_spec. Qed.

Lemma joinDuplicate_answersTo (name : string) (f : HeaderField) :
  joinDuplicate name f = true -> answersTo name f = true.
Proof.
  unfold joinDuplicate, answersTo. intros H.
  apply andb_true_iff in H. destruct H as [-> _]. reflexivity.
Qed.

(** The first of the positions is a first matching index. *)
Lemma positions_first (p : HeaderField -> bool) (h : Header) (j : nat) (rest : list nat) :
  positions p h = j :: rest -> firstAt p h j.
Proof.
  intros E. split.
  - apply positions_spec. rewrite E. left.
  - intros i f Hf Hp.
    assert (Hi : i ∈ positions p h) by (apply positions_spec; eauto).
    rewrite E in Hi. apply elem_of_cons in Hi. destruct Hi as [-> | Hi]; [lia|].
    pose proof (positionsFrom_head_least p h 0 j rest i E Hi). lia.
Qed.

Lemma firstAt_positions (p : HeaderField -> bool) (h : Header) (j : nat) :
  firstAt p h j <-> exists rest, positions p h = j :: rest.
Proof.
  split; [apply positions_head|]. intros [rest E]. now apply (positions_first p h j rest).
Qed.

(** Where several fields answer to the name and at most one of them is
    no join duplicate, a join duplicate is among them. *)
Lemma join_duplicate_among (name : string) (h : Header) :
  duplicated name h ->
  (forall a b rest, positions (plainMatch name) h <> a :: b :: rest) ->
  exists j rest, positions (joinDuplicate name) h = j :: rest.
Proof.
  intros Hdup Hplain.
  destruct (positions (joinDuplicate name) h) as [|j rest] eqn:E; [|eauto].
  exfalso.
  destruct (duplicated_positions name h Hdup) as (a & b & rest & Ha).
  apply (Hplain a b rest). rewrite <- Ha.
  apply positionsFrom_ext. intros f Hf. unfold plainMatch.
  destruct (joinDuplicate name f) eqn:Hj; [|now rewrite andb_true_r].
  exfalso. apply list_elem_of_lookup in Hf. destruct Hf as [i Hi].
  assert (Hin : i ∈ positions (joinDuplicate name) h) by (apply positions_spec; eauto).
  rewrite E in Hin. inversion Hin.
Qed.

(** The result of [Contains] for a name that several fields answer to,
    by the number of answering fields that are no join duplicates. *)
Lemma Contains_duplicated (name : string) (h : Header) :
  duplicated name h ->
  ((exists a b rest, positions (plainMatch name) h = a :: b :: rest)
   /\ Contains "" name h = inl (FieldAmbiguousError (parser.FieldReference "" name)))
  \/ ((forall a b rest, positions (plainMatch name) h <> a :: b :: rest)
      /\ exists j rest, positions (joinDuplicate name) h = j :: rest
                        /\ Contains "" name h = inr j).
Proof.
  intros Hdup. rewrite Contains_unqualified.
  destruct (duplicated_positions name h Hdup) as (a & b & rest & ->).
  destruct (positions (plainMatch name) h) as [|x [|y more]] eqn:Ep.
  - right. split; [discriminate|].
    destruct (join_duplicate_among name h Hdup) as (j & rest' & Ej).
    { rewrite Ep. discriminate. }
    rewrite Ej. eauto.
  - right. split; [discriminate|].
    destruct (join_duplicate_among name h Hdup) as (j & rest' & Ej).
    { rewrite Ep. discriminate. }
    rewrite Ej. eauto.
  - left. split; [eauto | reflexivity].
Qed.



(** The ambiguous case of [TestHeader_Contains]: [c1] of [t1] and of
    [t2], neither a join column. *)
Example Contains_c1_ambiguous :
  Contains "" "c1" containsHeader = inl (FieldAmbiguousError (parser.FieldReference "" "c1"))
  /\ forallb (fun f => negb (answersTo "c1" f) || negb (isJoinColumn f)) containsHeader = true.
Proof. split; reflexivity. Qed.

(** The ambiguity stays when the join column of the same name is there
    as well, and goes when only one side keeps its own column. *)
Example Contains_joined_header :
  Contains "" "c1" joinedHeader = inl (FieldAmbiguousError (parser.FieldReference "" "c1"))
  /\ Contains "" "c1" (drop 1 joinedHeader) = inr 1
  /\ Contains "" "c1" (drop 2 joinedHeader) = inr 0.
Proof. repeat split. Qed.

(** ** Update *)

Lemma existsb_eqb_elem_of (x : string) (names : list string) :
  existsb (String.eqb x) names = true <-> x ∈ names.
Proof.
  induction names as [|y names IH]; simpl.
  - split; [discriminate | intros H; inversion H].
  - rewrite orb_true_iff, IH, elem_of_cons, String.eqb_eq. reflexivity.
Qed.

Lemma firstDuplicate_None (fields : list parser.Identifier) :
  forall names,
    firstDuplicate names fields = None
    <-> NoDup (map parser.Literal fields)
        /\ forall x, x ∈ map parser.Literal fields -> ~ x ∈ names.
Proof.
  induction fields as [|f fields IH]; intros names; simpl.
  - split; [|reflexivity]. intros _. split; [constructor|]. intros x Hx. inversion Hx.
  - destruct (existsb (String.eqb (parser.Literal f)) names) eqn:Hex.
    + apply existsb_eqb_elem_of in Hex. split; [discriminate|].
      intros [_ Hfresh]. exfalso. apply (Hfresh (parser.Literal f)); [left | exact Hex].
    + assert (Hnot : ~ parser.Literal f ∈ names).
      { intros Hin. apply existsb_eqb_elem_of in Hin. congruence. }
      rewrite IH, NoDup_cons. split.
      * intros [Hnd Hfresh]. split; [split; [|exact Hnd]|].
        -- intros Hin. apply (Hfresh _ Hin). apply elem_of_app. right. left.
        -- intros x Hx. apply elem_of_cons in Hx. destruct Hx as [-> | Hx]; [exact Hnot|].
           intros Hin. apply (Hfresh _ Hx). apply elem_of_app. now left.
      * intros [[Hhead Hnd] Hfresh]. split; [exact Hnd|].
        intros x Hx Hin. apply elem_of_app in Hin. destruct Hin as [Hin | Hin].
        -- apply (Hfresh x); [now right | exact Hin].
        -- apply list_elem_of_singleton in Hin. subst. contradiction.
Qed.

(** The reported duplicate is one of the replacements, and its name
    was met before it. *)
Lemma firstDuplicate_Some (fields : list parser.Identifier) :
  forall names d,
    firstDuplicate names fields = Some d ->
    exists before after,
      fields = before ++ d :: after
      /\ parser.Literal d ∈ names ++ map parser.Literal before.
Proof.
  induction fields as [|f fields IH]; intros names d; simpl; [discriminate|].
  destruct (existsb (String.eqb (parser.Literal f)) names) eqn:Hex.
  - intros [= <-]. exists [], fields. split; [reflexivity|].
    rewrite app_nil_r. now apply existsb_eqb_elem_of.
  - intros Hd. destruct (IH _ _ Hd) as (before & after & -> & Hin).
    exists (f :: before), after. split; [reflexivity|].
    simpl. rewrite <- app_assoc in Hin. exact Hin.
Qed.

Lemma rebound_nil (reference : string) (fields : option (list parser.Identifier)) :
  rebound reference fields [] = [].
Proof. destruct fields; reflexivity. Qed.

Lemma rebound_without_fields (reference : string) (h : Header) :
  length (rebound reference None h) = length h
  /\ map column (rebound reference None h) = map column h
  /\ map isFromTable (rebound reference None h) = map isFromTable h
  /\ Forall (fun f => view f = reference /\ aliases f = [] /\ number f = 0)
            (rebound reference None h).
Proof.
  unfold rebound. rewrite length_map, !map_map. simpl.
  repeat split. apply Forall_map. apply Forall_forall. intros f _. simpl. auto.
Qed.

Lemma rebound_with_fields (reference : string) (fields : list parser.Identifier) :
  forall h : Header,
    length fields = length h ->
    length (rebound reference (Some fields) h) = length h
    /\ map column (rebound reference (Some fields) h) = map parser.Literal fields
    /\ Forall (fun f => view f = reference /\ aliases f = [] /\ number f = 0)
              (rebound reference (Some fields) h).
Proof.
  induction fields as [|i fields IH]; intros [|f h] Hlen; simpl in *; try discriminate.
  - repeat split. constructor.
  - injection Hlen as Hlen. destruct (IH h Hlen) as (Hl & Hc & Hf).
    simpl in *. repeat split.
    + now rewrite Hl.
    + now rewrite Hc.
    + constructor; [simpl; auto | exact Hf].
Qed.

Lemma fieldsOf_alter (g : Header -> Header) (h : nat) (s : store) :
  g [] = [] -> fieldsOf (alter g h s) h = g (fieldsOf s h).
Proof.
  intros Hg. unfold fieldsOf. rewrite lookup_alter_eq.
  destruct (s !! h); simpl; [reflexivity | now rewrite Hg].
Qed.

Lemma checkReplacements_spec (fields : list parser.Identifier) (h : Header) :
  (length fields <> length h ->
   checkReplacements (Some fields) h = Some FieldLengthNotMatchError)
  /\ (length fields = length h -> NoDup (map parser.Literal fields) ->
      checkReplacements (Some fields) h = None)
  /\ (length fields = length h -> ~ NoDup (map parser.Literal fields) ->
      exists d before after,
        checkReplacements (Some fields) h = Some (DuplicateFieldNameError d)
        /\ fields = before ++ d :: after
        /\ parser.Literal d ∈ map parser.Literal before).
Proof.
  unfold checkReplacements.
  destruct (Nat.eqb_spec (length fields) (length h)) as [Heq | Hne]; simpl.
  - split; [congruence|]. split.
    + intros _ Hnd.
      assert (Hn : firstDuplicate [] fields = None).
      { apply firstDuplicate_None. split; [exact Hnd|]. intros x _ Hx. inversion Hx. }
      now rewrite Hn.
    + intros _ Hdup. destruct (firstDuplicate [] fields) as [d|] eqn:Hd.
      * destruct (firstDuplicate_Some _ _ _ Hd) as (before & after & Hsplit & Hin).
        exists d, before, after. repeat split; auto.
      * exfalso. apply Hdup. now apply firstDuplicate_None in Hd.
  - split; [reflexivity|]. split; intros; congruence.
Qed.

(** C4. [Update] without replacement fields succeeds and leaves the
    header with as many fields and the same columns, every view set to
    the reference, aliases and numbers cleared.  With replacement
    fields of another length than the header it fails with "field
    length does not match"; with replacement fields of the right length
    among which a name is repeated it fails with "field name <x> is a
    duplicate", <x> being the first repeated name; both leave the
    header as it was.  It succeeds exactly on replacement fields of the
    right length without a repeated name, and then the columns are the
    replacement names, every view is the reference, aliases and numbers
    are cleared. *)
Theorem Update_rebinds_header (s : store) (h : nat) (reference : string) :
  let before := fieldsOf s h in
  (fst (Update h reference None s) = None
   /\ length (fieldsOf (snd (Update h reference None s)) h) = length before
   /\ map column (fieldsOf (snd (Update h reference None s)) h) = map column before
   /\ Forall (fun f => view f = reference /\ aliases f = [] /\ number f = 0)
             (fieldsOf (snd (Update h reference None s)) h))
  /\ (forall fields,
         length fields <> length before ->
         Update h reference (Some fields) s = (Some FieldLengthNotMatchError, s))
  /\ (forall fields,
         length fields = length before ->
         ~ NoDup (map parser.Literal fields) ->
         exists d first rest,
           Update h reference (Some fields) s = (Some (DuplicateFieldNameError d), s)
           /\ fields = first ++ d :: rest
           /\ parser.Literal d ∈ map parser.Literal first)
  /\ (forall fields,
         fst (Update h reference (Some fields) s) = None
         <-> length fields = length before /\ NoDup (map parser.Literal fields))
  /\ (forall fields,
         fst (Update h reference (Some fields) s) = None ->
         length (fieldsOf (snd (Update h reference (Some fields) s)) h) = length before
         /\ map column (fieldsOf (snd (Update h reference (Some fields) s)) h)
            = map parser.Literal fields
         /\ Forall (fun f => view f = reference /\ aliases f = [] /\ number f = 0)
                   (fieldsOf (snd (Update h reference (Some fields) s)) h))
  /\ Error FieldLengthNotMatchError = "[L:- C:-] field length does not match"
  /\ (forall d, Error (DuplicateFieldNameError d)
                = ("[L:- C:-] field name " ++ parser.Literal d ++ " is a duplicate")%string).
Proof.
  intros before.
  assert (Hok : forall fields,
             fst (Update h reference (Some fields) s) = None
             <-> length fields = length before /\ NoDup (map parser.Literal fields)).
  { intros fields. unfold Update. fold before.
    destruct (checkReplacements_spec fields before) as (Hlen & Hgood & Hdup).
    destruct (decide (length fields = length before)) as [Heq | Hne].
    - destruct (NoDup_dec (map parser.Literal fields)) as [Hnd | Hnd].
      + rewrite (Hgood Heq Hnd). simpl. tauto.
      + destruct (Hdup Heq Hnd) as (d & b & a & -> & _). simpl.
        split; [discriminate | tauto].
    - rewrite (Hlen Hne). simpl. split; [discriminate | tauto]. }
  split; [|split; [|split; [|split; [exact Hok|split; [|split]]]]].
  - unfold Update. simpl.
    rewrite fieldsOf_alter by apply rebound_nil. fold before.
    destruct (rebound_without_fields reference before) as (Hl & Hc & _ & Hf).
    auto.
  - intros fields Hne. unfold Update. fold before.
    destruct (checkReplacements_spec fields before) as (Hlen & _).
    now rewrite (Hlen Hne).
  - intros fields Heq Hnd. unfold Update. fold before.
    destruct (checkReplacements_spec fields before) as (_ & _ & Hdup).
    destruct (Hdup Heq Hnd) as (d & b & a & Hc & Hsplit & Hin).
    exists d, b, a. now rewrite Hc.
  - intros fields Hnone.
    destruct (proj1 (Hok fields) Hnone) as [Heq Hnd].
    unfold Update. fold before.
    destruct (checkReplacements_spec fields before) as (_ & Hgood & _).
    rewrite (Hgood Heq Hnd). simpl.
    rewrite fieldsOf_alter by apply rebound_nil. fold before.
    apply rebound_with_fields. exact Heq.
  - reflexivity.
  - reflexivity.
Qed.

Lemma Update_rebinds_header_tests :
  fieldsOf updateStore 0 = updateHeader
  /\ fst (Update 0 "ref1" None updateStore) = None
  /\ map column (fieldsOf (snd (Update 0 "ref1" None updateStore)) 0)
     = ["column1"; "column2"; "column3"]
  /\ Update 0 "ref1" (Some [parser.Build_Identifier "c1"; parser.Build_Identifier "c2"])
            updateStore
     = (Some FieldLengthNotMatchError, updateStore).
Proof.
  destruct (Update_rebinds_header updateStore 0 "ref1")
    as ((Hok & _ & Hcolumns & _) & Hlength & _).
  split; [reflexivity|]. split; [exact Hok|]. split; [exact Hcolumns|].
  apply Hlength. vm_compute. discriminate.
Defined.

(** C5, as stated, fails: [Update] hands back an error and nothing
    else, and the header it was applied to has changed after the call
    ([TestHeader_Update] compares [v.Header] itself with the expected
    fields). *)
Lemma Update_changes_the_header_it_is_applied_to :
  ~ (forall (s : store) (h : nat) (reference : string)
            (fields : option (list parser.Identifier)),
        fieldsOf (snd (Update h reference fields s)) h = fieldsOf s h).
Proof.
  intros H.
  specialize (H updateStore 0 "ref1" None).
  vm_compute in H. discriminate.
Qed.

Lemma checkReplacements_passed (fields : list parser.Identifier) (h : Header) :
  checkReplacements (Some fields) h = None -> length fields = length h.
Proof.
  unfold checkReplacements.
  destruct (Nat.eqb_spec (length fields) (length h)); simpl; [auto | discriminate].
Qed.

Lemma rebound_fields (reference : string) (fields : option (list parser.Identifier))
  (h : Header) :
  checkReplacements fields h = None ->
  length (rebound reference fields h) = length h
  /\ Forall (fun f => view f = reference /\ aliases f = [] /\ number f = 0)
            (rebound reference fields h).
Proof.
  destruct fields as [fs|]; intros Hc.
  - apply checkReplacements_passed in Hc.
    destruct (rebound_with_fields reference fs h Hc) as (Hl & _ & Hf). auto.
  - destruct (rebound_without_fields reference h) as (Hl & _ & _ & Hf). auto.
Qed.

(** C5, amended.  [Update] returns an error and no header.  When it
    succeeds, the header it is applied to is itself rewritten: read
    through the same reference after the call, it has as many fields as
    before, every one with the new view, no alias and no number (and
    the replacement column if one was given).  When it fails, the store
    of headers is as before.  No other header is ever touched. *)
Theorem Update_in_place (s : store) (h : nat) (reference : string)
  (fields : option (list parser.Identifier)) :
  (fst (Update h reference fields s) = None ->
   fieldsOf (snd (Update h reference fields s)) h
   = rebound reference fields (fieldsOf s h)
   /\ length (fieldsOf (snd (Update h reference fields s)) h) = length (fieldsOf s h)
   /\ Forall (fun f => view f = reference /\ aliases f = [] /\ number f = 0)
             (fieldsOf (snd (Update h reference fields s)) h))
  /\ (forall e, fst (Update h reference fields s) = Some e ->
                snd (Update h reference fields s) = s)
  /\ (forall h', h' <> h -> snd (Update h reference fields s) !! h' = s !! h').
Proof.
  unfold Update.
  destruct (checkReplacements fields (fieldsOf s h)) as [err|] eqn:Hc; simpl.
  - split; [discriminate|]. split; reflexivity.
  - split.
    + intros _. rewrite fieldsOf_alter by apply rebound_nil.
      split; [reflexivity|]. now apply rebound_fields.
    + split; [discriminate|].
      intros h' Hne. now apply lookup_alter_ne.
Qed.

(** Two variables that hold the same header see the same fields after
    an update through one of them. *)
Example Update_seen_through_alias :
  let original := 0 in
  let alias := original in
  let s' := snd (Update alias "ref1" None updateStore) in
  map view (fieldsOf updateStore original) = ["table1"; "table1"; "table2"]
  /\ map view (fieldsOf s' original) = ["ref1"; "ref1"; "ref1"]
  /\ map aliases (fieldsOf updateStore original) = [["alias1"]; ["alias2"]; []]
  /\ map aliases (fieldsOf s' original) = [[]; []; []].
Proof. vm_compute. repeat split. Qed.

(** ** Further properties of the encoders *)

Section FurtherEncoderProperties.
Context {VT : ValueText} {Env : Environment}.

(** Only the TSV format touches the caller's descriptor. *)
Theorem EncodeView_descriptor_frame (v : View) (fileInfo : FileInfo) (w : World) :
  Format fileInfo = cmd.TSV \/ snd (EncodeView v fileInfo w) = fileInfo.
Proof.
  unfold EncodeView. destruct (Format fileInfo); auto.
Qed.

(** With the enclose-all option the delimited writer quotes the cells
    styled as String or Datetime and no other; without it, none. *)
Theorem csvCell_quotes_strings_and_datetimes (v : value.Primary) :
  (csv.Quote (csvCell true v) = true
   <-> (exists raw, v = value.String raw) \/ (exists t, v = value.Datetime t))
  /\ csv.Quote (csvCell false v) = false
  /\ csv.Contents (csvCell true v) = fst (fst (ConvertFieldContents v false))
  /\ csv.Contents (csvCell false v) = fst (fst (ConvertFieldContents v false)).
Proof.
  unfold csvCell.
  destruct v as [raw | i | f | b | t | d | | tag]; try destruct t; cbn;
    (split; [split; [try discriminate; eauto
                    | intros [[x Hx] | [x Hx]]; solve [discriminate Hx | reflexivity]]
            | repeat split]).
Qed.

(** A failure to convert the table to a JSON structure is reported
    with the prefix "encoding to json failed: ", and nothing has been
    written or logged by then. *)
Theorem encodeJson_wraps_conversion_error (v : View) (lb : text.LineBreak)
  (escapeType : txjson.EscapeType) (prettyPrint : bool) (w : World) (msg : string) :
  ConvertTableValueToJsonStructure (fst (bareValues v)) (snd (bareValues v)) = inl msg ->
  encodeJson v lb escapeType prettyPrint w
  = (Failed (errorString (String.append "encoding to json failed: " msg)), w).
Proof.
  intros Hc. unfold encodeJson.
  destruct (bareValues v) as [header records]. cbn [fst snd] in Hc.
  now rewrite Hc.
Qed.

End FurtherEncoderProperties.

Lemma encodeJson_wraps_conversion_error_refusing :
  fst (fst (@EncodeView plainText refusingEnvironment scenarioView
                        (setFormat csvInfo cmd.JSON) emptyWorld))
  = Failed (errorString "encoding to json failed: unsupported").
Proof.
  exact (f_equal fst
           (@encodeJson_wraps_conversion_error refusingEnvironment scenarioView text.LF
              txjson.Backslash false emptyWorld "unsupported" eq_refl)).
Defined.

(** ** Line rendering of a cell *)

Lemma append_assoc (a b c : string) :
  String.append (String.append a b) c = String.append a (String.append b c).
Proof.
  induction a as [|x a IH]; [reflexivity|].
  change (String x (String.append (String.append a b) c)
          = String x (String.append a (String.append b c))).
  now rewrite IH.
Qed.

Lemma append_empty (a : string) : String.append a EmptyString = a.
Proof.
  induction a as [|x a IH]; [reflexivity|].
  change (String x (String.append a EmptyString) = String x a).
  now rewrite IH.
Qed.

(** *** Bytes and runes *)

Lemma uint8_range (c : ascii) : (0 <= utf8.uint8 c < 256)%Z.
Proof.
  unfold utf8.uint8. pose proof (N_ascii_bounded c). lia.
Qed.

Lemma byte_uint8 (c : ascii) : utf8.byte (utf8.uint8 c) = c.
Proof.
  unfold utf8.byte. rewrite Z.mod_small by apply uint8_range.
  unfold utf8.uint8. rewrite N2Z.id. apply ascii_N_embedding.
Qed.

Lemma uint8_byte (x : Z) : utf8.uint8 (utf8.byte x) = (x mod 256)%Z.
Proof.
  unfold utf8.uint8, utf8.byte.
  pose proof (Z.mod_pos_bound x 256 eq_refl) as Hx.
  rewrite N_ascii_embedding by lia. lia.
Qed.

Lemma uint32_small (r : Z) : (0 <= r < 2 ^ 32)%Z -> utf8.uint32 r = r.
Proof. intros Hr. unfold utf8.uint32. now apply Z.mod_small. Qed.

Lemma WriteRune_append (a b : string) (r : Z) :
  WriteRune (String.append a b) r = String.append a (WriteRune b r).
Proof.
  unfold WriteRune. destruct (Z.ltb (utf8.uint32 r) utf8.RuneSelf); apply append_assoc.
Qed.

Lemma encodeRunes_from (runes : list Z) :
  forall buf, fold_left WriteRune runes buf = String.append buf (encodeRunes runes).
Proof.
  unfold encodeRunes.
  induction runes as [|r rest IH]; intros buf; cbn [fold_left].
  - now rewrite append_empty.
  - rewrite (IH (WriteRune buf r)), (IH (WriteRune EmptyString r)).
    rewrite <- append_assoc. f_equal.
    rewrite <- (append_empty buf) at 1. apply WriteRune_append.
Qed.

Lemma WriteRune_line_feed (buf : string) : WriteRune buf 10 = String.append buf lineFeed.
Proof. reflexivity. Qed.

(** A byte below [RuneSelf] is its own rune and is written as itself. *)
Lemma WriteRune_uint8 (buf : string) (c : ascii) :
  Z.ltb (utf8.uint8 c) utf8.RuneSelf = true ->
  WriteRune buf (utf8.uint8 c) = String.append buf (String c EmptyString).
Proof.
  intros Hc. unfold WriteRune.
  rewrite uint32_small by (pose proof (uint8_range c); lia).
  now rewrite Hc, byte_uint8.
Qed.

Lemma stringtoslicerune_ASCII (s : string) :
  isASCII s = true -> encodeRunes (utf8.stringtoslicerune s) = s.
Proof.
  unfold isASCII. induction s as [|c s IH]; [reflexivity|].
  cbn [list_ascii_of_string forallb utf8.stringtoslicerune].
  intros H. apply andb_true_iff in H. destruct H as [Hc Hs].
  rewrite Hc. unfold encodeRunes. cbn [fold_left].
  rewrite encodeRunes_from, WriteRune_uint8 by exact Hc.
  rewrite (IH Hs). reflexivity.
Qed.

(** *** Decoding what was encoded *)

Lemma land_low (x k : Z) : (0 <= k)%Z -> Z.land x (2 ^ k - 1) = (x mod 2 ^ k)%Z.
Proof.
  intros Hk. rewrite <- Z.land_ones by exact Hk.
  now rewrite Z.ones_equiv, <- Z.sub_1_r.
Qed.

Lemma lor_disjoint (a y k : Z) :
  (0 <= k)%Z -> (0 <= y < 2 ^ k)%Z -> Z.lor (a * 2 ^ k) y = (a * 2 ^ k + y)%Z.
Proof.
  intros Hk Hy.
  assert (Hland : Z.land (a * 2 ^ k) y = 0%Z).
  { apply Z.bits_inj'. intros n Hn. rewrite Z.land_spec, Z.bits_0.
    destruct (Z.lt_ge_cases n k) as [Hlt | Hge].
    - now rewrite Z.mul_pow2_bits_low.
    - destruct (Z.eq_dec y 0%Z) as [-> | Hy0]; [now rewrite Z.bits_0, andb_false_r|].
      rewrite (Z.bits_above_log2 y n), andb_false_r; [reflexivity | lia|].
      apply Z.lt_le_trans with k; [|exact Hge].
      apply Z.log2_lt_pow2; lia. }
  pose proof (Z.add_lor_land (a * 2 ^ k) y) as H. rewrite Hland in H. lia.
Qed.

Ltac utf8_constants :=
  unfold utf8.t2, utf8.t3, utf8.t4, utf8.t5, utf8.tx, utf8.locb, utf8.hicb,
    utf8.maskx, utf8.mask2, utf8.mask3, utf8.mask4,
    utf8.rune1Max, utf8.rune2Max, utf8.rune3Max,
    utf8.surrogateMin, utf8.surrogateMax, utf8.MaxRune, utf8.RuneSelf in *.

Ltac decide_comparisons :=
  repeat match goal with
         | |- context [Z.leb ?a ?b] =>
             first [ rewrite (proj2 (Z.leb_le a b)) by lia
                   | rewrite (proj2 (Z.leb_gt a b)) by lia ]
         | |- context [Z.ltb ?a ?b] =>
             first [ rewrite (proj2 (Z.ltb_lt a b)) by lia
                   | rewrite (proj2 (Z.ltb_ge a b)) by lia ]
         end.

(** The low bits of a number above a multiple of their range. *)
Lemma mod_sum (base x k : Z) :
  (base mod 2 ^ k = 0)%Z -> (0 <= x < 2 ^ k)%Z -> ((base + x) mod 2 ^ k = x)%Z.
Proof.
  intros Hbase Hx.
  assert (Hpos : (0 < 2 ^ k)%Z) by lia.
  rewrite Z.add_mod, Hbase, Z.add_0_l, Z.mod_mod by lia. now apply Z.mod_small.
Qed.

Lemma decoderune_two (c0 c1 : ascii) (rest : string) (q m : Z) :
  utf8.uint8 c0 = (192 + q)%Z -> utf8.uint8 c1 = (128 + m)%Z ->
  (2 <= q < 32)%Z -> (0 <= m < 64)%Z ->
  utf8.decoderune (String c0 (String c1 rest)) = ((q * 64 + m)%Z, 2).
Proof.
  intros H0 H1 Hq Hm.
  unfold utf8.decoderune, utf8.continuation. rewrite H0, H1. utf8_constants.
  change 31%Z with (2 ^ 5 - 1)%Z. change 63%Z with (2 ^ 6 - 1)%Z.
  rewrite !land_low by lia.
  rewrite (mod_sum 192 q 5), (mod_sum 128 m 6) by (reflexivity || (cbn; lia)).
  rewrite Z.shiftl_mul_pow2, lor_disjoint by (cbn; lia).
  change (2 ^ 6)%Z with 64%Z. change (2 ^ 7)%Z with 128%Z.
  decide_comparisons. reflexivity.
Qed.

Lemma decoderune_three (c0 c1 c2 : ascii) (rest : string) (a b c : Z) :
  utf8.uint8 c0 = (224 + a)%Z ->
  utf8.uint8 c1 = (128 + b)%Z ->
  utf8.uint8 c2 = (128 + c)%Z ->
  (0 <= a < 16)%Z -> (0 <= b < 64)%Z -> (0 <= c < 64)%Z ->
  let r := ((a * 64 + b) * 64 + c)%Z in
  (2048 <= r)%Z -> ~ (55296 <= r <= 57343)%Z ->
  utf8.decoderune (String c0 (String c1 (String c2 rest))) = (r, 3).
Proof.
  intros H0 H1 H2 Ha Hb Hc r Hlow Hsur.
  unfold utf8.decoderune, utf8.continuation. rewrite H0, H1, H2. utf8_constants.
  decide_comparisons. cbn [andb].
  change 15%Z with (2 ^ 4 - 1)%Z. change 63%Z with (2 ^ 6 - 1)%Z.
  rewrite !land_low by lia.
  rewrite (mod_sum 224 a 4), (mod_sum 128 b 6), (mod_sum 128 c 6)
    by (reflexivity || (cbn; lia)).
  rewrite !Z.shiftl_mul_pow2 by lia.
  replace (b * 2 ^ 6)%Z with (0 * 2 ^ 12 + b * 64)%Z by (cbn; lia).
  rewrite (lor_disjoint a (0 * 2 ^ 12 + b * 64) 12) by (cbn; lia).
  replace (a * 2 ^ 12 + (0 * 2 ^ 12 + b * 64))%Z with ((a * 64 + b) * 2 ^ 6)%Z
    by (cbn; lia).
  rewrite lor_disjoint by (cbn; lia).
  change (2 ^ 6)%Z with 64%Z. change (2 ^ 11)%Z with 2048%Z. fold r.
  decide_comparisons. cbn [andb].
  destruct (Z.leb_spec 55296 r) as [Hge | Hlt].
  - rewrite (proj2 (Z.leb_gt r 57343)) by lia. reflexivity.
  - reflexivity.
Qed.

Lemma decoderune_four (c0 c1 c2 c3 : ascii) (rest : string) (a b c d : Z) :
  utf8.uint8 c0 = (240 + a)%Z ->
  utf8.uint8 c1 = (128 + b)%Z ->
  utf8.uint8 c2 = (128 + c)%Z ->
  utf8.uint8 c3 = (128 + d)%Z ->
  (0 <= a < 8)%Z -> (0 <= b < 64)%Z -> (0 <= c < 64)%Z -> (0 <= d < 64)%Z ->
  let r := (((a * 64 + b) * 64 + c) * 64 + d)%Z in
  (65536 <= r <= 1114111)%Z ->
  utf8.decoderune (String c0 (String c1 (String c2 (String c3 rest)))) = (r, 4).
Proof.
  intros H0 H1 H2 H3 Ha Hb Hc Hd r Hr.
  unfold utf8.decoderune, utf8.continuation. rewrite H0, H1, H2, H3. utf8_constants.
  decide_comparisons. cbn [andb].
  change 7%Z with (2 ^ 3 - 1)%Z. change 63%Z with (2 ^ 6 - 1)%Z.
  rewrite !land_low by lia.
  rewrite (mod_sum 240 a 3), (mod_sum 128 b 6), (mod_sum 128 c 6), (mod_sum 128 d 6)
    by (reflexivity || (cbn; lia)).
  rewrite !Z.shiftl_mul_pow2 by lia.
  replace (b * 2 ^ 12)%Z with (0 * 2 ^ 18 + b * 4096)%Z by (cbn; lia).
  rewrite (lor_disjoint a (0 * 2 ^ 18 + b * 4096) 18) by (cbn; lia).
  replace (a * 2 ^ 18 + (0 * 2 ^ 18 + b * 4096))%Z with ((a * 64 + b) * 2 ^ 12)%Z
    by (cbn; lia).
  replace (c * 2 ^ 6)%Z with (0 * 2 ^ 12 + c * 64)%Z by (cbn; lia).
  rewrite (lor_disjoint (a * 64 + b) (0 * 2 ^ 12 + c * 64) 12) by (cbn; lia).
  replace ((a * 64 + b) * 2 ^ 12 + (0 * 2 ^ 12 + c * 64))%Z
    with (((a * 64 + b) * 64 + c) * 2 ^ 6)%Z by (cbn; lia).
  rewrite lor_disjoint by (cbn; lia).
  change (2 ^ 6)%Z with 64%Z. change (2 ^ 16)%Z with 65536%Z. fold r.
  decide_comparisons. reflexivity.
Qed.

(** The numbers of the bytes [AppendRune] writes. *)
Lemma continuation_byte (x : Z) :
  utf8.uint8 (utf8.byte (Z.lor utf8.tx (Z.land (x mod 256) utf8.maskx)))
  = (128 + x mod 64)%Z.
Proof.
  utf8_constants. change 63%Z with (2 ^ 6 - 1)%Z. rewrite land_low by lia.
  change (2 ^ 6)%Z with 64%Z.
  replace ((x mod 256) mod 64)%Z with (x mod 64)%Z by (Z.div_mod_to_equations; lia).
  pose proof (Z.mod_pos_bound x 64 eq_refl) as Hx.
  change 128%Z with (2 * 2 ^ 6)%Z at 1. rewrite lor_disjoint by (cbn; lia).
  rewrite uint8_byte. cbn. apply Z.mod_small. lia.
Qed.

Lemma leading_byte (t k h : Z) :
  (0 <= k)%Z -> (t mod 2 ^ k = 0)%Z -> (0 <= t)%Z -> (0 <= h < 2 ^ k)%Z ->
  (t + h < 256)%Z ->
  utf8.uint8 (utf8.byte (Z.lor t (h mod 256))) = (t + h)%Z.
Proof.
  intros Hk Ht Ht0 Hh Hsmall.
  rewrite (Z.mod_small h 256) by lia.
  assert (Hdiv : t = (t / 2 ^ k * 2 ^ k)%Z).
  { pose proof (Z.div_mod t (2 ^ k) ltac:(lia)) as H. rewrite Ht in H. lia. }
  rewrite Hdiv at 1. rewrite lor_disjoint, <- Hdiv by lia.
  rewrite uint8_byte. apply Z.mod_small. lia.
Qed.

Lemma stringtoslicerune_WriteRune (r : Z) (rest : string) :
  utf8.ValidRune r = true ->
  utf8.stringtoslicerune (String.append (WriteRune EmptyString r) rest)
  = r :: utf8.stringtoslicerune rest.
Proof.
  unfold utf8.ValidRune. utf8_constants. intros Hvalid.
  assert (Hr : (0 <= r < 55296 \/ 57343 < r <= 1114111)%Z).
  { destruct (Z.leb 0 r && Z.ltb r 55296) eqn:E.
    - apply andb_true_iff in E. destruct E as [E1 E2].
      apply Z.leb_le in E1. apply Z.ltb_lt in E2. lia.
    - destruct (Z.ltb 57343 r && Z.leb r 1114111) eqn:E'; [|discriminate].
      apply andb_true_iff in E'. destruct E' as [E1 E2].
      apply Z.ltb_lt in E1. apply Z.leb_le in E2. lia. }
  clear Hvalid.
  unfold WriteRune, utf8.AppendRune. rewrite uint32_small by lia. utf8_constants.
  change (2 ^ 7 - 1)%Z with 127%Z. change (2 ^ 11 - 1)%Z with 2047%Z.
  change (2 ^ 16 - 1)%Z with 65535%Z.
  destruct (Z.ltb_spec r 128) as [H1 | H1].
  - (* one byte *)
    change (String.append (String.append EmptyString (String (utf8.byte r) EmptyString)) rest)
      with (String (utf8.byte r) rest).
    cbn [utf8.stringtoslicerune].
    rewrite uint8_byte, (Z.mod_small r 256) by lia.
    unfold utf8.RuneSelf. now rewrite (proj2 (Z.ltb_lt r 128)) by lia.
  - rewrite (proj2 (Z.leb_gt r 127)) by lia. cbv zeta.
    destruct (Z.leb_spec r 2047) as [H2 | H2].
    + (* two bytes *)
      set (c0 := utf8.byte (Z.lor 192 (Z.shiftr r 6 mod 256))).
      set (c1 := utf8.byte (Z.lor 128 (Z.land (r mod 256) 63))).
      change (String.append (String.append EmptyString (String c0 (String c1 EmptyString))) rest)
        with (String c0 (String c1 rest)).
      assert (Hq : (2 <= r / 64 < 32)%Z) by (Z.div_mod_to_equations; lia).
      assert (Hm : (0 <= r mod 64 < 64)%Z) by (apply Z.mod_pos_bound; lia).
      assert (E0 : utf8.uint8 c0 = (192 + r / 64)%Z).
      { unfold c0. rewrite Z.shiftr_div_pow2 by lia. change (2 ^ 6)%Z with 64%Z.
        apply (leading_byte 192 6); [lia | reflexivity | lia | change (2 ^ 6)%Z with 64%Z; lia | lia]. }
      assert (E1 : utf8.uint8 c1 = (128 + r mod 64)%Z) by apply continuation_byte.
      cbn [utf8.stringtoslicerune].
      rewrite E0. unfold utf8.RuneSelf. rewrite (proj2 (Z.ltb_ge _ 128)) by lia.
      rewrite (decoderune_two c0 c1 rest (r / 64) (r mod 64) E0 E1 Hq Hm).
      f_equal. Z.div_mod_to_equations; lia.
    + destruct (Z.ltb_spec 1114111 r) as [H3 | H3]; [lia|].
      assert (Hsur : Z.leb 55296 r && Z.leb r 57343 = false).
      { apply andb_false_iff.
        destruct Hr as [Hr | Hr]; [left; apply Z.leb_gt | right; apply Z.leb_gt]; lia. }
      rewrite Hsur. cbn [orb].
      destruct (Z.leb_spec r 65535) as [H4 | H4].
      * (* three bytes *)
        unfold utf8.threeBytes. utf8_constants.
        set (c0 := utf8.byte (Z.lor 224 (Z.shiftr r 12 mod 256))).
        set (c1 := utf8.byte (Z.lor 128 (Z.land (Z.shiftr r 6 mod 256) 63))).
        set (c2 := utf8.byte (Z.lor 128 (Z.land (r mod 256) 63))).
        change (String.append
                  (String.append EmptyString (String c0 (String c1 (String c2 EmptyString))))
                  rest)
          with (String c0 (String c1 (String c2 rest))).
        assert (Ha : (0 <= r / 4096 < 16)%Z) by (Z.div_mod_to_equations; lia).
        assert (Hb : (0 <= (r / 64) mod 64 < 64)%Z) by (apply Z.mod_pos_bound; lia).
        assert (Hc : (0 <= r mod 64 < 64)%Z) by (apply Z.mod_pos_bound; lia).
        assert (E0 : utf8.uint8 c0 = (224 + r / 4096)%Z).
        { unfold c0. rewrite Z.shiftr_div_pow2 by lia. change (2 ^ 12)%Z with 4096%Z.
          apply (leading_byte 224 4); [lia | reflexivity | lia | change (2 ^ 4)%Z with 16%Z; lia | lia]. }
        assert (E1 : utf8.uint8 c1 = (128 + (r / 64) mod 64)%Z).
        { unfold c1. rewrite Z.shiftr_div_pow2 by lia. change (2 ^ 6)%Z with 64%Z.
          apply continuation_byte. }
        assert (E2 : utf8.uint8 c2 = (128 + r mod 64)%Z) by apply continuation_byte.
        assert (Hsame : (r = (r / 4096 * 64 + (r / 64) mod 64) * 64 + r mod 64)%Z)
          by (Z.div_mod_to_equations; lia).
        cbn [utf8.stringtoslicerune].
        rewrite E0. unfold utf8.RuneSelf. rewrite (proj2 (Z.ltb_ge _ 128)) by lia.
        rewrite (decoderune_three c0 c1 c2 rest (r / 4096) ((r / 64) mod 64) (r mod 64)
                   E0 E1 E2 Ha Hb Hc) by (rewrite <- Hsame; lia).
        now rewrite <- Hsame.
      * (* four bytes *)
        unfold utf8.fourBytes. utf8_constants.
        set (c0 := utf8.byte (Z.lor 240 (Z.shiftr r 18 mod 256))).
        set (c1 := utf8.byte (Z.lor 128 (Z.land (Z.shiftr r 12 mod 256) 63))).
        set (c2 := utf8.byte (Z.lor 128 (Z.land (Z.shiftr r 6 mod 256) 63))).
        set (c3 := utf8.byte (Z.lor 128 (Z.land (r mod 256) 63))).
        change (String.append
                  (String.append EmptyString
                     (String c0 (String c1 (String c2 (String c3 EmptyString)))))
                  rest)
          with (String c0 (String c1 (String c2 (String c3 rest)))).
        assert (Ha : (0 <= r / 262144 < 8)%Z) by (Z.div_mod_to_equations; lia).
        assert (Hb : (0 <= (r / 4096) mod 64 < 64)%Z) by (apply Z.mod_pos_bound; lia).
        assert (Hc : (0 <= (r / 64) mod 64 < 64)%Z) by (apply Z.mod_pos_bound; lia).
        assert (Hd : (0 <= r mod 64 < 64)%Z) by (apply Z.mod_pos_bound; lia).
        assert (E0 : utf8.uint8 c0 = (240 + r / 262144)%Z).
        { unfold c0. rewrite Z.shiftr_div_pow2 by lia. change (2 ^ 18)%Z with 262144%Z.
          apply (leading_byte 240 3); [lia | reflexivity | lia | change (2 ^ 3)%Z with 8%Z; lia | lia]. }
        assert (E1 : utf8.uint8 c1 = (128 + (r / 4096) mod 64)%Z).
        { unfold c1. rewrite Z.shiftr_div_pow2 by lia. change (2 ^ 12)%Z with 4096%Z.
          apply continuation_byte. }
        assert (E2 : utf8.uint8 c2 = (128 + (r / 64) mod 64)%Z).
        { unfold c2. rewrite Z.shiftr_div_pow2 by lia. change (2 ^ 6)%Z with 64%Z.
          apply continuation_byte. }
        assert (E3 : utf8.uint8 c3 = (128 + r mod 64)%Z) by apply continuation_byte.
        assert (Hsame : (r = ((r / 262144 * 64 + (r / 4096) mod 64) * 64
                              + (r / 64) mod 64) * 64 + r mod 64)%Z)
          by (Z.div_mod_to_equations; lia).
        cbn [utf8.stringtoslicerune].
        rewrite E0. unfold utf8.RuneSelf. rewrite (proj2 (Z.ltb_ge _ 128)) by lia.
        rewrite (decoderune_four c0 c1 c2 c3 rest (r / 262144) ((r / 4096) mod 64)
                   ((r / 64) mod 64) (r mod 64) E0 E1 E2 E3 Ha Hb Hc Hd)
          by (rewrite <- Hsame; lia).
        now rewrite <- Hsame.
Qed.

(** Decoding inverts encoding: the runes of what was written for valid
    runes are those runes. *)
Lemma stringtoslicerune_encodeRunes (runes : list Z) :
  Forall (fun r => utf8.ValidRune r = true) runes ->
  utf8.stringtoslicerune (encodeRunes runes) = runes.
Proof.
  induction 1 as [|r rest Hr Hrest IH]; [reflexivity|].
  unfold encodeRunes. cbn [fold_left]. rewrite encodeRunes_from.
  rewrite stringtoslicerune_WriteRune by exact Hr. now rewrite IH.
Qed.

Lemma stringtoslicerune_wellFormed (s : string) :
  wellFormed s -> encodeRunes (utf8.stringtoslicerune s) = s.
Proof.
  intros (runes & Hvalid & ->). now rewrite stringtoslicerune_encodeRunes.
Qed.

Lemma lineFeeds_no_CR (runes : list Z) :
  Forall (fun r => r <> 13%Z) runes -> lineFeeds runes = runes.
Proof.
  induction 1 as [|r rest Hr Hrest IH]; [reflexivity|].
  cbn [lineFeeds]. apply Z.eqb_neq in Hr. now rewrite Hr, IH.
Qed.

(** *** A palette that leaves the text as it is *)

Lemma flushLine_unrendered (textStrBuf textLineBuf : string) :
  flushLine (fun s => s) textStrBuf textLineBuf = String.append textStrBuf textLineBuf.
Proof.
  unfold flushLine. destruct textLineBuf; [now rewrite append_empty | reflexivity].
Qed.

Lemma renderLines_unrendered (runes : list Z) :
  forall textStrBuf textLineBuf,
    renderLines (fun s => s) runes textStrBuf textLineBuf
    = String.append textStrBuf
        (String.append textLineBuf (encodeRunes (lineFeeds runes))).
Proof.
  assert (Hbound : forall n (l : list Z), length l <= n ->
             forall str line,
               renderLines (fun s => s) l str line
               = String.append str (String.append line (encodeRunes (lineFeeds l)))).
  { assert (Hbreak : forall (l : list Z) str line,
               (forall str' line',
                   renderLines (fun s => s) l str' line'
                   = String.append str' (String.append line' (encodeRunes (lineFeeds l)))) ->
               renderLines (fun s => s) l
                 (String.append (flushLine (fun s => s) str line) lineFeed) EmptyString
               = String.append str
                   (String.append line (encodeRunes (10%Z :: lineFeeds l)))).
    { intros l str line IHl. rewrite IHl, flushLine_unrendered.
      unfold encodeRunes at 2. cbn [fold_left].
      rewrite encodeRunes_from, WriteRune_line_feed.
      rewrite !append_assoc. reflexivity. }
    induction n as [|n IH]; intros l Hlen str line.
    - destruct l; [|simpl in Hlen; lia].
      cbn [renderLines lineFeeds]. rewrite flushLine_unrendered.
      change (encodeRunes []) with EmptyString. now rewrite append_empty.
    - destruct l as [|r rest]; cbn [renderLines lineFeeds].
      + rewrite flushLine_unrendered.
        change (encodeRunes []) with EmptyString. now rewrite append_empty.
      + simpl in Hlen.
        destruct (Z.eqb r 13) eqn:Hcr.
        * destruct rest as [|r' rest'].
          -- apply Hbreak. intros str' line'. apply IH. simpl. lia.
          -- simpl in Hlen.
             destruct (Z.eqb r' 10) eqn:Hlf;
               apply Hbreak; intros str' line'; apply IH; simpl; lia.
        * destruct (Z.eqb r 10) eqn:Hlf.
          -- apply Z.eqb_eq in Hlf. subst r.
             apply Hbreak. intros str' line'. apply IH. lia.
          -- rewrite IH by lia.
             unfold encodeRunes at 2. cbn [fold_left].
             rewrite (encodeRunes_from (lineFeeds rest) (WriteRune EmptyString r)).
             rewrite <- (append_empty line) at 1.
             rewrite WriteRune_append, !append_assoc. reflexivity. }
  intros str line. now apply (Hbound (length runes)).
Qed.


(** A byte that is no UTF-8 comes out as U+FFFD, a two-byte letter as
    itself. *)
Example renderLines_invalid_byte :
  renderLines (fun s => s) (utf8.stringtoslicerune (String "255" "a")) "" ""
  = String "239" (String "191" (String "189" "a"))
  /\ renderLines (fun s => s) (utf8.stringtoslicerune (String "195" (String "169" "a"))) "" ""
     = String "195" (String "169" "a").
Proof. vm_compute. split; reflexivity. Qed.

Example renderLines_three_breaks :
  renderLines (fun s => String.append "<" (String.append s ">"))
              (utf8.stringtoslicerune
                 (string_of_list_ascii
                    ["a"; "013"; "010"; "b"; "013"; "c"; "010"; "010"; "d"]%char)) "" ""
  = string_of_list_ascii
      ["<"; "a"; ">"; "010"; "<"; "b"; ">"; "010"; "<"; "c"; ">"; "010"; "010";
       "<"; "d"; ">"]%char.
Proof. vm_compute. reflexivity. Qed.

(** ** Writers that reuse one array of fields *)

(** The index loop, within bounds: the cells land at [i], [i+1], ...
    and the rest of the array stays. *)
Lemma assignFrom_fits {A F} (cell : A -> F) (xs : list A) :
  forall (i : nat) (fields : list F),
    i + length xs <= length fields ->
    assignFrom cell i xs fields
    = Some (take i fields ++ map cell xs ++ drop (i + length xs) fields).
Proof.
  induction xs as [|v rest IH]; intros i fields Hfit; simpl in *.
  - rewrite Nat.add_0_r. now rewrite take_drop.
  - assert (Hi : i < length fields) by lia.
    apply Nat.ltb_lt in Hi as Hlt. rewrite Hlt.
    rewrite IH by (rewrite length_insert; lia).
    f_equal.
    rewrite (take_S_r _ i (cell v)) by (now apply list_lookup_insert_eq).
    rewrite take_insert_ge by lia.
    rewrite drop_insert_lt by lia.
    rewrite <- app_assoc. simpl.
    now replace (i + S (length rest)) with (S (i + length rest)) by lia.
Qed.

(** The index loop, out of bounds: it panics exactly when the cells do
    not fit. *)
Lemma assignFrom_panics {A F} (cell : A -> F) (xs : list A) :
  forall (i : nat) (fields : list F),
    assignFrom cell i xs fields = None <-> xs <> [] /\ length fields < i + length xs.
Proof.
  induction xs as [|v rest IH]; intros i fields; simpl.
  - split; [discriminate | intros [H _]; congruence].
  - destruct (Nat.ltb_spec i (length fields)) as [Hlt | Hge].
    + rewrite IH, length_insert. split.
      * intros [_ H]. split; [discriminate | lia].
      * intros [_ H]. destruct rest as [|v' rest']; [simpl in *; lia|].
        split; [discriminate | simpl in *; lia].
    + split; [intros _; split; [discriminate | lia] | reflexivity].
Qed.

Lemma carriedRows_length {F} (rows : list (list F)) :
  forall fields : list F,
    Forall (fun r => length r <= length fields) rows ->
    Forall (fun row => length row = length fields) (carriedRows fields rows).
Proof.
  induction rows as [|r rest IH]; intros fields Hall; simpl; [constructor|].
  apply Forall_cons in Hall. destruct Hall as [Hr Hrest].
  assert (Hlen : length (r ++ drop (length r) fields) = length fields).
  { rewrite length_app, length_drop. lia. }
  constructor; [exact Hlen|].
  eapply Forall_impl.
  - apply IH. eapply Forall_impl; [exact Hrest|]. intros x Hx. simpl in *. lia.
  - intros row Hrow. simpl in *. lia.
Qed.

(** Rows that fill the array are handed on as they are. *)
Lemma carriedRows_full {F} (rows : list (list F)) :
  forall fields : list F,
    Forall (fun r => length r = length fields) rows -> carriedRows fields rows = rows.
Proof.
  induction rows as [|r rest IH]; intros fields Hall; simpl; [reflexivity|].
  apply Forall_cons in Hall. destruct Hall as [Hr Hrest].
  rewrite drop_ge by lia. rewrite app_nil_r. f_equal.
  apply IH. eapply Forall_impl; [exact Hrest|]. intros x Hx. simpl in *. congruence.
Qed.

(** As long as no record is longer than the array, the record loop is
    the plain loop over the carried rows. *)
Lemma writeRecords_carried {F} (cell : value.Primary -> F) (write : list F -> reply)
  (records : list (list value.Primary)) :
  forall (fields : list F) (buf : string),
    Forall (fun r => length r <= length fields) records ->
    writeRecords cell write records fields buf
    = writeRows write (carriedRows fields (map (map cell) records)) buf.
Proof.
  induction records as [|r rest IH]; intros fields buf Hall; simpl; [reflexivity|].
  apply Forall_cons in Hall. destruct Hall as [Hr Hrest].
  rewrite assignFrom_fits by (simpl; lia).
  rewrite take_0, length_map. simpl.
  destruct (write (map cell r ++ drop (length r) fields)) as [t | msg]; simpl; [|reflexivity].
  apply IH. eapply Forall_impl; [exact Hrest|].
  intros x Hx. simpl in *. rewrite length_app, length_map, length_drop. lia.
Qed.

Lemma writeRows_never_panics {F} (write : list F -> reply) (rows : list (list F)) :
  forall buf, writeRows write rows buf <> Panicked.
Proof.
  induction rows as [|r rest IH]; intros buf; simpl; [discriminate|].
  destruct (write r); simpl; [apply IH | discriminate].
Qed.

(** The loop panics only at a record that is longer than the array. *)
Lemma writeRecords_panics_long_record {F} (cell : value.Primary -> F)
  (write : list F -> reply) (records : list (list value.Primary)) :
  forall (fields : list F) (buf : string),
    writeRecords cell write records fields buf = Panicked ->
    Exists (fun r => length fields < length r) records.
Proof.
  induction records as [|r rest IH]; intros fields buf; simpl; [discriminate|].
  destruct (assignFrom cell 0 r fields) as [fields'|] eqn:Ha.
  - destruct (Nat.le_gt_cases (length r) (length fields)) as [Hle | Hgt];
      [|intros _; now left].
    rewrite assignFrom_fits in Ha by (simpl; lia). injection Ha as <-.
    destruct (write _); simpl; [|discriminate].
    intros Hp. right. apply IH in Hp.
    eapply Exists_impl; [exact Hp|]. intros x Hx. simpl in *.
    rewrite ?length_app, ?length_map, ?length_drop in Hx. simpl in Hx. lia.
  - intros _. left. apply assignFrom_panics in Ha. simpl in Ha. lia.
Qed.

(** With a writer that takes every row, the loop panics at the first
    record that is longer than the array. *)
Lemma writeRecords_long_record_panics {F} (cell : value.Primary -> F)
  (write : list F -> reply) (records : list (list value.Primary)) :
  (forall row, exists t, write row = Text t) ->
  forall (fields : list F) (buf : string),
    Exists (fun r => length fields < length r) records ->
    writeRecords cell write records fields buf = Panicked.
Proof.
  intros Htakes.
  induction records as [|r rest IH]; intros fields buf Hex; simpl.
  - inversion Hex.
  - destruct (Nat.le_gt_cases (length r) (length fields)) as [Hle | Hgt].
    + rewrite assignFrom_fits by (simpl; lia).
      destruct (Htakes (take 0 fields ++ map cell r ++ drop (0 + length r) fields))
        as [t ->]. simpl.
      apply IH. apply Exists_cons in Hex. destruct Hex as [Hr | Hrest]; [lia|].
      eapply Exists_impl; [exact Hrest|]. intros x Hx. simpl in *.
      rewrite length_app, length_map, length_drop. lia.
    + assert (Ha : assignFrom cell 0 r fields = None).
      { apply assignFrom_panics. split; [|simpl; lia]. intros ->. simpl in Hgt. lia. }
      now rewrite Ha.
Qed.

(** The header row and the record loop of the delimited and the
    positioned fixed-length encoder, for records that fit the array. *)
Lemma indexed_rows {F} (zero : F) (headerCell : string -> F)
  (cell : value.Primary -> F) (write : list F -> reply)
  (header : list string) (records : list (list value.Primary)) (withoutHeader : bool) :
  Forall (fun r => length r <= length header) records ->
  andThen
    (if negb withoutHeader then
       match assignFrom headerCell 0 header (replicate (length header) zero) with
       | None => Panicked
       | Some fields' => andThen (fromReply (write fields')) (fun t => Done (fields', t))
       end
     else Done (replicate (length header) zero, ""))
    (fun '(fields', buf) => writeRecords cell write records fields' buf)
  = writeRows write
      (if withoutHeader
       then carriedRows (replicate (length header) zero) (map (map cell) records)
       else map headerCell header
              :: carriedRows (map headerCell header) (map (map cell) records))
      "".
Proof.
  intros Hfit. destruct withoutHeader; simpl.
  - apply writeRecords_carried. now rewrite length_replicate.
  - rewrite assignFrom_fits by (rewrite length_replicate; simpl; lia).
    rewrite take_0. simpl.
    rewrite drop_ge by (rewrite length_replicate; lia). rewrite app_nil_r.
    destruct (write (map headerCell header)) as [t | msg]; simpl; [|reflexivity].
    apply writeRecords_carried. now rewrite length_map.
Qed.

(** ** The delimited, fixed-length and LTSV encoders *)

Section IndexedEncoders.
Context {VT : ValueText} {Env : Environment}.

(** [encodeCSV] over the two components of [bareValues]. *)
Lemma encodeCSV_body (v : View) (d : ascii) (lb : text.LineBreak) (wh : bool)
  (enc : text.Encoding) (ea : bool) :
  encodeCSV v d lb wh enc ea
  = (let header := TableColumnNames (ViewHeader v) in
     let records := map (map Value) (ViewRecordSet v) in
     let w := {| csv.Delimiter := d; csv.LineBreak := lb; csv.Encoding := enc |} in
     let fields := replicate (length header) (csv.NewField "" false) in
     let* buf :=
       lift (andThen
               (if negb wh then
                  match assignFrom (fun name => csv.NewField name ea) 0 header fields with
                  | None => Panicked
                  | Some fields' =>
                      andThen (fromReply (csv_Write w fields')) (fun t => Done (fields', t))
                  end
                else Done (fields, ""))
               (fun '(fields', buf) =>
                  writeRecords (csvCell ea) (csv_Write w) records fields' buf)) in
     FlushIgnoringError buf).
Proof.
  pose proof (bareValues_header v) as Hh. pose proof (bareValues_records v) as Hr.
  unfold encodeCSV. destruct (bareValues v) as [header records].
  cbn [fst snd] in Hh, Hr. subst header records. reflexivity.
Qed.

Lemma records_fit (v : View) (n : nat) :
  Forall (fun record => length record <= n) (ViewRecordSet v) ->
  Forall (fun r => length r <= n) (map (map Value) (ViewRecordSet v)).
Proof.
  intros H. apply Forall_map. eapply Forall_impl; [exact H|].
  intros r Hr. simpl. now rewrite length_map.
Qed.

Lemma cells_of_records {F} (cell : value.Primary -> F) (rs : RecordSet) :
  map (map cell) (map (map Value) rs)
  = map (fun record => map (fun c => cell (Value c)) record) rs.
Proof. rewrite map_map. apply map_ext. intros r. apply map_map. Qed.

(** The rows of the delimited encoder when no record has more cells
    than there are column names: the row of the names unless the header
    is suppressed, then for every record its converted cells, followed,
    where the record is short, by what the row before it had there (the
    names, or empty unquoted fields without a header row). *)
Theorem encodeCSV_carries_cells_of_previous_row (v : View) (d : ascii)
  (lb : text.LineBreak) (wh : bool) (enc : text.Encoding) (ea : bool) :
  Forall (fun record => length record <= length (TableColumnNames (ViewHeader v)))
         (ViewRecordSet v) ->
  encodeCSV v d lb wh enc ea
  = (let w := {| csv.Delimiter := d; csv.LineBreak := lb; csv.Encoding := enc |} in
     let names := map (fun name => csv.NewField name ea) (TableColumnNames (ViewHeader v)) in
     let cells := map (fun record => map (fun c => csvCell ea (Value c)) record)
                      (ViewRecordSet v) in
     let rows :=
       if wh
       then carriedRows (replicate (length names) (csv.NewField "" false)) cells
       else names :: carriedRows names cells in
     let* buf := lift (writeRows (csv_Write w) rows "") in
     FlushIgnoringError buf).
Proof.
  intros Hfit. rewrite encodeCSV_body. cbv zeta.
  rewrite indexed_rows by (now apply records_fit).
  rewrite length_map, (cells_of_records (csvCell ea)). reflexivity.
Qed.

(** The rows of the delimited encoder for a view whose records all
    have as many cells as there are column names: the row of the names
    unless the header is suppressed, then one row per record with the
    converted cells of that record, in order. *)
Theorem encodeCSV_writes_rows (v : View) (d : ascii) (lb : text.LineBreak) (wh : bool)
  (enc : text.Encoding) (ea : bool) :
  Forall (fun record => length record = length (TableColumnNames (ViewHeader v)))
         (ViewRecordSet v) ->
  encodeCSV v d lb wh enc ea
  = (let w := {| csv.Delimiter := d; csv.LineBreak := lb; csv.Encoding := enc |} in
     let rows :=
       (if wh then []
        else [map (fun name => csv.NewField name ea) (TableColumnNames (ViewHeader v))])
       ++ map (fun record => map (fun c => csvCell ea (Value c)) record) (ViewRecordSet v) in
     let* buf := lift (writeRows (csv_Write w) rows "") in
     FlushIgnoringError buf).
Proof.
  intros Harity. rewrite encodeCSV_body. cbv zeta.
  rewrite indexed_rows.
  - rewrite (cells_of_records (csvCell ea)).
    assert (Hfull : forall (fields : list csv.Field),
               length fields = length (TableColumnNames (ViewHeader v)) ->
               carriedRows fields
                 (map (fun record => map (fun c => csvCell ea (Value c)) record)
                      (ViewRecordSet v))
               = map (fun record => map (fun c => csvCell ea (Value c)) record)
                     (ViewRecordSet v)).
    { intros fields Hlen. apply carriedRows_full.
      apply Forall_map. eapply Forall_impl; [exact Harity|].
      intros r Hr. simpl in *. rewrite length_map. congruence. }
    destruct wh; rewrite Hfull; try reflexivity.
    + apply length_replicate.
    + apply length_map.
  - apply records_fit. eapply Forall_impl; [exact Harity|]. intros r Hr. simpl in *. lia.
Qed.

Lemma indexed_panics_long_record {F} (zero : F) (headerCell : string -> F)
  (cell : value.Primary -> F) (write : list F -> reply)
  (header : list string) (records : list (list value.Primary)) (withoutHeader : bool) :
  andThen
    (if negb withoutHeader then
       match assignFrom headerCell 0 header (replicate (length header) zero) with
       | None => Panicked
       | Some fields' => andThen (fromReply (write fields')) (fun t => Done (fields', t))
       end
     else Done (replicate (length header) zero, ""))
    (fun '(fields', buf) => writeRecords cell write records fields' buf)
  = Panicked ->
  Exists (fun r => length header < length r) records.
Proof.
  destruct withoutHeader; simpl.
  - intros Hp. apply writeRecords_panics_long_record in Hp.
    now rewrite length_replicate in Hp.
  - rewrite assignFrom_fits by (rewrite length_replicate; simpl; lia).
    destruct (write _) as [t | msg]; simpl; [|discriminate].
    intros Hp. apply writeRecords_panics_long_record in Hp.
    eapply Exists_impl; [exact Hp|]. intros r Hr. simpl in *.
    rewrite ?length_app, ?length_map, ?length_drop, ?length_replicate in Hr.
    simpl in Hr. lia.
Qed.

Lemma indexed_long_record_panics {F} (zero : F) (headerCell : string -> F)
  (cell : value.Primary -> F) (write : list F -> reply)
  (header : list string) (records : list (list value.Primary)) (withoutHeader : bool) :
  (forall row, exists t, write row = Text t) ->
  Exists (fun r => length header < length r) records ->
  andThen
    (if negb withoutHeader then
       match assignFrom headerCell 0 header (replicate (length header) zero) with
       | None => Panicked
       | Some fields' => andThen (fromReply (write fields')) (fun t => Done (fields', t))
       end
     else Done (replicate (length header) zero, ""))
    (fun '(fields', buf) => writeRecords cell write records fields' buf)
  = Panicked.
Proof.
  intros Htakes Hlong. destruct withoutHeader; simpl.
  - apply writeRecords_long_record_panics; [exact Htakes|].
    now rewrite length_replicate.
  - rewrite assignFrom_fits by (rewrite length_replicate; simpl; lia).
    match goal with |- context [write ?row] => destruct (Htakes row) as [t ->] end.
    simpl.
    apply writeRecords_long_record_panics; [exact Htakes|].
    eapply Exists_impl; [exact Hlong|]. intros r Hr. simpl in *.
    rewrite ?length_app, ?length_map, ?length_drop, ?length_replicate.
    simpl. lia.
Qed.

Lemma long_records_flattened (v : View) (n : nat) :
  Exists (fun r => n < length r) (map (map Value) (ViewRecordSet v))
  <-> Exists (fun record => n < length record) (ViewRecordSet v).
Proof.
  rewrite Exists_map. split; intros H; (eapply Exists_impl; [exact H|]);
    intros r Hr; simpl in *; now rewrite length_map in *.
Qed.

(** With a writer that takes every row, the delimited encoder panics
    (index out of range) when a record has more cells than there are
    column names: it ends neither with an error nor normally. *)
Theorem encodeCSV_panics_on_long_record (v : View) (d : ascii) (lb : text.LineBreak)
  (wh : bool) (enc : text.Encoding) (ea : bool) (w : World) :
  (forall row, exists t,
      csv_Write {| csv.Delimiter := d; csv.LineBreak := lb; csv.Encoding := enc |} row
      = Text t) ->
  Exists (fun record => length (TableColumnNames (ViewHeader v)) < length record)
         (ViewRecordSet v) ->
  fst (encodeCSV v d lb wh enc ea w) = Panicked.
Proof.
  intros Htakes Hlong. rewrite encodeCSV_body. cbv zeta.
  unfold bind, lift.
  rewrite indexed_long_record_panics; [reflexivity | exact Htakes |].
  now apply long_records_flattened.
Qed.

(** A column that does not come from a table makes every record of the
    header's arity too long for the column names. *)
Lemma non_table_field_long_records (v : View) :
  Exists (fun f => isFromTable f = false) (ViewHeader v) ->
  Forall (fun record => length record = length (ViewHeader v)) (ViewRecordSet v) ->
  ViewRecordSet v <> [] ->
  Exists (fun record => length (TableColumnNames (ViewHeader v)) < length record)
         (ViewRecordSet v).
Proof.
  intros Hnon Harity Hne. apply TableColumnNames_short in Hnon.
  destruct (ViewRecordSet v) as [|r rs]; [congruence|].
  left. apply Forall_cons in Harity. destruct Harity as [Hr _]. lia.
Qed.

(** [encodeFixedLengthFormat] over the two components of [bareValues]. *)
Lemma encodeFixedLengthFormat_body (v : View) (positions : option (list nat))
  (lb : text.LineBreak) (wh : bool) (enc : text.Encoding) :
  encodeFixedLengthFormat v positions lb wh enc
  = (let header := TableColumnNames (ViewHeader v) in
     let records := map (map Value) (ViewRecordSet v) in
     match positions with
     | None =>
         let fieldList :=
           (if negb wh
            then [map (fun name => fixedlen.NewField name text.NotAligned) header]
            else [])
           ++ map (map fixedCell) records in
         let w := {| fixedlen.Positions := fixedlen_GeneratePositions enc fieldList;
                     fixedlen.LineBreak := lb;
                     fixedlen.Encoding := enc;
                     fixedlen.InsertSpace := true |} in
         let* buf := lift (writeRows (fixedlen_Write w) fieldList "") in
         FlushIgnoringError buf
     | Some ps =>
         let w := {| fixedlen.Positions := ps;
                     fixedlen.LineBreak := lb;
                     fixedlen.Encoding := enc;
                     fixedlen.InsertSpace := false |} in
         let fields := replicate (length header) (fixedlen.NewField "" text.NotAligned) in
         let* buf :=
           lift (andThen
                   (if negb wh then
                      match assignFrom (fun name => fixedlen.NewField name text.NotAligned)
                                       0 header fields with
                      | None => Panicked
                      | Some fields' =>
                          andThen (fromReply (fixedlen_Write w fields'))
                                  (fun t => Done (fields', t))
                      end
                    else Done (fields, ""))
                   (fun '(fields', buf) =>
                      writeRecords fixedCell (fixedlen_Write w) records fields' buf)) in
         FlushIgnoringError buf
     end).
Proof.
  pose proof (bareValues_header v) as Hh. pose proof (bareValues_records v) as Hr.
  unfold encodeFixedLengthFormat. destruct (bareValues v) as [header records].
  cbn [fst snd] in Hh, Hr. subst header records. reflexivity.
Qed.

(** The fixed-length encoder hands the same rows to its writer on both
    of its paths, for a view whose records all have as many cells as
    there are column names: the names, not aligned, unless the header
    is suppressed, then per record the converted cells with the
    converter's alignment.  Without positions the writer gets the
    positions measured over exactly these rows and inserts spaces; with
    positions it gets the given ones and inserts none. *)
Theorem encodeFixedLengthFormat_writes_rows (v : View) (positions : option (list nat))
  (lb : text.LineBreak) (wh : bool) (enc : text.Encoding) :
  Forall (fun record => length record = length (TableColumnNames (ViewHeader v)))
         (ViewRecordSet v) ->
  encodeFixedLengthFormat v positions lb wh enc
  = (let rows :=
       (if wh then []
        else [map (fun name => fixedlen.NewField name text.NotAligned)
                  (TableColumnNames (ViewHeader v))])
       ++ map (fun record => map (fun c => fixedCell (Value c)) record) (ViewRecordSet v) in
     let w :=
       match positions with
       | None => {| fixedlen.Positions := fixedlen_GeneratePositions enc rows;
                    fixedlen.LineBreak := lb;
                    fixedlen.Encoding := enc;
                    fixedlen.InsertSpace := true |}
       | Some ps => {| fixedlen.Positions := ps;
                       fixedlen.LineBreak := lb;
                       fixedlen.Encoding := enc;
                       fixedlen.InsertSpace := false |}
       end in
     let* buf := lift (writeRows (fixedlen_Write w) rows "") in
     FlushIgnoringError buf).
Proof.
  intros Harity. rewrite encodeFixedLengthFormat_body. cbv zeta.
  destruct positions as [ps|].
  - rewrite indexed_rows.
    + rewrite (cells_of_records fixedCell).
      assert (Hfull : forall (fields : list fixedlen.Field),
                 length fields = length (TableColumnNames (ViewHeader v)) ->
                 carriedRows fields
                   (map (fun record => map (fun c => fixedCell (Value c)) record)
                        (ViewRecordSet v))
                 = map (fun record => map (fun c => fixedCell (Value c)) record)
                       (ViewRecordSet v)).
      { intros fields Hlen. apply carriedRows_full.
        apply Forall_map. eapply Forall_impl; [exact Harity|].
        intros r Hr. simpl in *. rewrite length_map. congruence. }
      destruct wh; rewrite Hfull; try reflexivity.
      * apply length_replicate.
      * apply length_map.
    + apply records_fit. eapply Forall_impl; [exact Harity|]. intros r Hr. simpl in *. lia.
  - rewrite (cells_of_records fixedCell). now destruct wh.
Qed.

(** The two paths of the fixed-length encoder part on a record that is
    shorter than the column names (none being longer): without
    positions the record is measured and written with the cells it has;
    with positions it is written at full width, the missing cells being
    those of the row before. *)
Theorem encodeFixedLengthFormat_short_records (v : View) (positions : option (list nat))
  (lb : text.LineBreak) (wh : bool) (enc : text.Encoding) :
  Forall (fun record => length record <= length (TableColumnNames (ViewHeader v)))
         (ViewRecordSet v) ->
  encodeFixedLengthFormat v positions lb wh enc
  = (let names := map (fun name => fixedlen.NewField name text.NotAligned)
                      (TableColumnNames (ViewHeader v)) in
     let cells := map (fun record => map (fun c => fixedCell (Value c)) record)
                      (ViewRecordSet v) in
     match positions with
     | None =>
         let rows := (if wh then [] else [names]) ++ cells in
         let w := {| fixedlen.Positions := fixedlen_GeneratePositions enc rows;
                     fixedlen.LineBreak := lb;
                     fixedlen.Encoding := enc;
                     fixedlen.InsertSpace := true |} in
         let* buf := lift (writeRows (fixedlen_Write w) rows "") in
         FlushIgnoringError buf
     | Some ps =>
         let rows :=
           if wh
           then carriedRows (replicate (length names) (fixedlen.NewField "" text.NotAligned))
                            cells
           else names :: carriedRows names cells in
         let w := {| fixedlen.Positions := ps;
                     fixedlen.LineBreak := lb;
                     fixedlen.Encoding := enc;
                     fixedlen.InsertSpace := false |} in
         let* buf := lift (writeRows (fixedlen_Write w) rows "") in
         FlushIgnoringError buf
     end).
Proof.
  intros Hfit. rewrite encodeFixedLengthFormat_body. cbv zeta.
  destruct positions as [ps|].
  - rewrite indexed_rows by (now apply records_fit).
    rewrite length_map, (cells_of_records fixedCell). reflexivity.
  - rewrite (cells_of_records fixedCell). now destruct wh.
Qed.

(** [encodeLTSV] over the two components of [bareValues]. *)
Lemma encodeLTSV_body (v : View) (lb : text.LineBreak) (enc : text.Encoding) :
  encodeLTSV v lb enc
  = (let header := TableColumnNames (ViewHeader v) in
     let records := map (map Value) (ViewRecordSet v) in
     match ltsv_NewWriter header with
     | Some msg => raise (collaboratorError msg)
     | None =>
         let w := {| ltsv.Header := header; ltsv.LineBreak := lb; ltsv.Encoding := enc |} in
         let fields := replicate (length header) "" in
         let* buf :=
           lift (writeRecords (fun val => fst (fst (ConvertFieldContents val false)))
                              (ltsv_Write w) records fields "") in
         FlushIgnoringError buf
     end).
Proof.
  pose proof (bareValues_header v) as Hh. pose proof (bareValues_records v) as Hr.
  unfold encodeLTSV. destruct (bareValues v) as [header records].
  cbn [fst snd] in Hh, Hr. subst header records. reflexivity.
Qed.

(** The LTSV encoder ends at once with the writer's error when the
    writer cannot be made for the column names (they are its labels),
    before any record is converted.  Otherwise, for a view whose
    records all have as many cells as there are column names, it hands
    the writer one row per record: the converter's texts of the cells,
    in order, for a target that is not a text table. *)
Theorem encodeLTSV_writes_rows (v : View) (lb : text.LineBreak) (enc : text.Encoding) :
  Forall (fun record => length record = length (TableColumnNames (ViewHeader v)))
         (ViewRecordSet v) ->
  encodeLTSV v lb enc
  = match ltsv_NewWriter (TableColumnNames (ViewHeader v)) with
    | Some msg => raise (collaboratorError msg)
    | None =>
        let w := {| ltsv.Header := TableColumnNames (ViewHeader v);
                    ltsv.LineBreak := lb; ltsv.Encoding := enc |} in
        let rows :=
          map (fun record =>
                 map (fun c => fst (fst (ConvertFieldContents (Value c) false))) record)
              (ViewRecordSet v) in
        let* buf := lift (writeRows (ltsv_Write w) rows "") in
        FlushIgnoringError buf
    end.
Proof.
  intros Harity. rewrite encodeLTSV_body. cbv zeta.
  destruct (ltsv_NewWriter _); [reflexivity|].
  rewrite writeRecords_carried.
  - rewrite (cells_of_records (fun val => fst (fst (ConvertFieldContents val false)))).
    rewrite carriedRows_full; [reflexivity|].
    apply Forall_map. eapply Forall_impl; [exact Harity|].
    intros r Hr. simpl in *. rewrite length_map, length_replicate. congruence.
  - rewrite length_replicate. apply records_fit.
    eapply Forall_impl; [exact Harity|]. intros r Hr. simpl in *. lia.
Qed.

(** *** What the encoders leave alone *)

(** Neither flush logs a warning or touches the palette, and neither
    panics or fails with the empty-result error. *)
Lemma Flush_frame (buf : string) (w : World) :
  warnings (snd (Flush buf w)) = warnings w
  /\ paletteEnabled (snd (Flush buf w)) = paletteEnabled w
  /\ fst (Flush buf w) <> Panicked.
Proof.
  unfold Flush, fpWrite, ret.
  destruct (String.eqb buf ""); [repeat split; discriminate|].
  destruct (fp_Write (written w) buf); repeat split; discriminate.
Qed.

Lemma FlushIgnoringError_frame (buf : string) (w : World) :
  warnings (snd (FlushIgnoringError buf w)) = warnings w
  /\ paletteEnabled (snd (FlushIgnoringError buf w)) = paletteEnabled w
  /\ fst (FlushIgnoringError buf w) = Done tt.
Proof.
  unfold FlushIgnoringError. cbn [fst snd].
  destruct (Flush_frame buf w) as (Hw & Hp & _). auto.
Qed.

(** A writer loop followed by the dropped flush. *)
Lemma loop_then_flush (o : outcome string) (w : World) :
  warnings (snd ((let* buf := lift o in FlushIgnoringError buf) w)) = warnings w
  /\ paletteEnabled (snd ((let* buf := lift o in FlushIgnoringError buf) w))
     = paletteEnabled w
  /\ fst ((let* buf := lift o in FlushIgnoringError buf) w)
     = andThen o (fun _ => Done tt)
  /\ (o = Panicked -> snd ((let* buf := lift o in FlushIgnoringError buf) w) = w).
Proof.
  unfold bind, lift. destruct o as [buf | e |]; cbn [fst snd andThen].
  - destruct (FlushIgnoringError_frame buf w) as (Hw & Hp & Hd).
    repeat split; auto; discriminate.
  - repeat split; discriminate.
  - repeat split.
Qed.

Lemma writeRows_not_empty_result {F} (write : list F -> reply) (rows : list (list F)) :
  forall buf, writeRows write rows buf <> Failed EmptyResultSetError.
Proof.
  induction rows as [|r rest IH]; intros buf; simpl; [discriminate|].
  destruct (write r); simpl; [apply IH | discriminate].
Qed.

Lemma writeRecords_not_empty_result {F} (cell : value.Primary -> F)
  (write : list F -> reply) (records : list (list value.Primary)) :
  forall fields buf, writeRecords cell write records fields buf <> Failed EmptyResultSetError.
Proof.
  induction records as [|r rest IH]; intros fields buf; simpl; [discriminate|].
  destruct (assignFrom cell 0 r fields); [|discriminate].
  destruct (write l); simpl; [apply IH | discriminate].
Qed.

Lemma indexed_not_empty_result {F} (zero : F) (headerCell : string -> F)
  (cell : value.Primary -> F) (write : list F -> reply)
  (header : list string) (records : list (list value.Primary)) (withoutHeader : bool) :
  andThen
    (if negb withoutHeader then
       match assignFrom headerCell 0 header (replicate (length header) zero) with
       | None => Panicked
       | Some fields' => andThen (fromReply (write fields')) (fun t => Done (fields', t))
       end
     else Done (replicate (length header) zero, ""))
    (fun '(fields', buf) => writeRecords cell write records fields' buf)
  <> Failed EmptyResultSetError.
Proof.
  destruct withoutHeader; simpl.
  - apply writeRecords_not_empty_result.
  - destruct (assignFrom _ _ _ _); simpl; [|discriminate].
    destruct (write l); simpl; [apply writeRecords_not_empty_result | discriminate].
Qed.

(** The three encoders that drop the result of their flush: no
    warning, no palette, no empty-result error, and a panic only at a
    record longer than the column names, with the world untouched. *)
Lemma indexed_encoder_frame (o : outcome string) (names : list string) (v : View)
  (w : World) :
  o <> Failed EmptyResultSetError ->
  (o = Panicked ->
   Exists (fun r => length names < length r) (map (map Value) (ViewRecordSet v))) ->
  let r := (let* buf := lift o in FlushIgnoringError buf) w in
  warnings (snd r) = warnings w
  /\ paletteEnabled (snd r) = paletteEnabled w
  /\ fst r <> Failed EmptyResultSetError
  /\ (fst r = Panicked ->
      Exists (fun record => length names < length record) (ViewRecordSet v) /\ snd r = w).
Proof.
  intros Hne Hpanic r.
  destruct (loop_then_flush o w) as (Hw & Hp & Hfst & Hsame). fold r in Hw, Hp, Hfst, Hsame.
  split; [exact Hw|]. split; [exact Hp|]. rewrite Hfst.
  split.
  - destruct o; simpl; congruence.
  - intros Ho. assert (o = Panicked) as Hop by (destruct o; simpl in Ho; congruence).
    split; [apply long_records_flattened; auto | auto].
Qed.

Lemma encodeCSV_frame (v : View) d lb wh enc ea (w : World) :
  let r := encodeCSV v d lb wh enc ea w in
  warnings (snd r) = warnings w
  /\ paletteEnabled (snd r) = paletteEnabled w
  /\ fst r <> Failed EmptyResultSetError
  /\ (fst r = Panicked ->
      Exists (fun record => length (TableColumnNames (ViewHeader v)) < length record)
             (ViewRecordSet v)
      /\ snd r = w).
Proof.
  rewrite encodeCSV_body. cbv zeta.
  apply indexed_encoder_frame.
  - apply indexed_not_empty_result.
  - apply indexed_panics_long_record.
Qed.

Lemma encodeLTSV_frame (v : View) lb enc (w : World) :
  let r := encodeLTSV v lb enc w in
  warnings (snd r) = warnings w
  /\ paletteEnabled (snd r) = paletteEnabled w
  /\ fst r <> Failed EmptyResultSetError
  /\ (fst r = Panicked ->
      Exists (fun record => length (TableColumnNames (ViewHeader v)) < length record)
             (ViewRecordSet v)
      /\ snd r = w).
Proof.
  rewrite encodeLTSV_body. cbv zeta.
  destruct (ltsv_NewWriter _).
  - unfold raise. cbn. repeat split; discriminate.
  - apply indexed_encoder_frame.
    + apply writeRecords_not_empty_result.
    + intros Hp. apply writeRecords_panics_long_record in Hp.
      now rewrite length_replicate in Hp.
Qed.

Lemma encodeFixedLengthFormat_frame (v : View) positions lb wh enc (w : World) :
  let r := encodeFixedLengthFormat v positions lb wh enc w in
  warnings (snd r) = warnings w
  /\ paletteEnabled (snd r) = paletteEnabled w
  /\ fst r <> Failed EmptyResultSetError
  /\ (fst r = Panicked ->
      positions <> None
      /\ Exists (fun record => length (TableColumnNames (ViewHeader v)) < length record)
                (ViewRecordSet v)
      /\ snd r = w).
Proof.
  rewrite encodeFixedLengthFormat_body. cbv zeta.
  destruct positions as [ps|].
  - match goal with
    | |- context [lift ?o] =>
        pose proof (indexed_encoder_frame o (TableColumnNames (ViewHeader v)) v w
                      (indexed_not_empty_result _ _ _ _ _ _ _)
                      (indexed_panics_long_record _ _ _ _ _ _ _)) as H
    end.
    cbv zeta in H. destruct H as (Hw & Hp & Hne & Hpanic).
    repeat split; auto; try discriminate; now apply Hpanic.
  - match goal with
    | |- context [lift (writeRows ?write ?rows ?buf)] =>
        destruct (loop_then_flush (writeRows write rows buf) w) as (Hw & Hp & Hfst & _);
        pose proof (writeRows_never_panics write rows buf) as Hnp;
        pose proof (writeRows_not_empty_result write rows buf) as Hner
    end.
    rewrite Hfst. split; [exact Hw|]. split; [exact Hp|].
    split.
    + intros H. destruct (writeRows _ _ _); simpl in H; congruence.
    + intros H. exfalso. destruct (writeRows _ _ _); simpl in H; congruence.
Qed.

Lemma encodeJson_body (v : View) (lb : text.LineBreak) (escapeType : txjson.EscapeType)
  (prettyPrint : bool) :
  encodeJson v lb escapeType prettyPrint
  = match ConvertTableValueToJsonStructure (TableColumnNames (ViewHeader v))
                                           (map (map Value) (ViewRecordSet v)) with
    | inl msg => raise (errorString ("encoding to json failed: " ++ msg))
    | inr data =>
        let e := {| txjson.EscapeType_ := escapeType;
                    txjson.LineBreak := lb;
                    txjson.PrettyPrint := prettyPrint;
                    txjson.Palette :=
                      prettyPrint && cmd.Color GetFlags && negb GetPalette_isNil |} in
        let* _ := (if txjson.Palette e then enablePalette else ret tt) in
        Flush (txjson_Encode e data)
    end.
Proof.
  pose proof (bareValues_header v) as Hh. pose proof (bareValues_records v) as Hr.
  unfold encodeJson. destruct (bareValues v) as [header records].
  cbn [fst snd] in Hh, Hr. subst header records. reflexivity.
Qed.

Lemma encodeJson_frame (v : View) lb escapeType prettyPrint (w : World) :
  let r := encodeJson v lb escapeType prettyPrint w in
  warnings (snd r) = warnings w
  /\ fst r <> Failed EmptyResultSetError
  /\ fst r <> Panicked
  /\ paletteEnabled (snd r)
     = paletteEnabled w
       || (prettyPrint && cmd.Color GetFlags && negb GetPalette_isNil
           && match ConvertTableValueToJsonStructure
                      (TableColumnNames (ViewHeader v))
                      (map (map Value) (ViewRecordSet v)) with
              | inl _ => false
              | inr _ => true
              end).
Proof.
  rewrite encodeJson_body.
  destruct (ConvertTableValueToJsonStructure _ _) as [msg | data]; cbv zeta.
  - unfold raise. cbn [fst snd]. rewrite andb_false_r, orb_false_r.
    repeat split; discriminate.
  - cbn [txjson.Palette]. rewrite andb_true_r.
    destruct (prettyPrint && cmd.Color GetFlags && negb GetPalette_isNil);
      unfold bind, enablePalette, ret;
      match goal with
      | |- context [Flush ?s ?w'] =>
          destruct (Flush_frame s w') as (Hw & Hp & Hnp);
          pose proof (Flush_never_empty_result s w') as Hne
      end; cbn [warnings paletteEnabled] in *.
    + rewrite orb_true_r. auto.
    + rewrite orb_false_r. auto.
Qed.

Lemma renderTable_frame header records format tableFormat plain lb wh enc (w : World) :
  let r := renderTable header records format tableFormat plain lb wh enc w in
  warnings (snd r) = warnings w
  /\ paletteEnabled (snd r) = paletteEnabled w
  /\ fst r <> Panicked.
Proof.
  unfold renderTable, bind, lift, fromReply.
  destruct (table_Encode _) as [s | msg]; cbn [fst snd].
  - apply Flush_frame.
  - repeat split; discriminate.
Qed.

Lemma encodeText_frame (v : View) (format : cmd.Format) lb wh enc (w : World) :
  let r := encodeText v format lb wh enc w in
  paletteEnabled (snd r) = paletteEnabled w
  /\ fst r <> Panicked
  /\ (fst r <> Failed EmptyResultSetError -> warnings (snd r) = warnings w)
  /\ (fst r = Failed EmptyResultSetError ->
      exists msg, (msg = "Empty Fields" \/ msg = "Empty RecordSet")
                  /\ snd r = warned w msg (cmd.Quiet GetFlags)).
Proof.
  unfold encodeText. destruct (bareValues v) as [header records].
  assert (Htable : forall tf plain,
             let r := renderTable header records format tf plain lb wh enc w in
             paletteEnabled (snd r) = paletteEnabled w
             /\ fst r <> Panicked
             /\ (fst r <> Failed EmptyResultSetError -> warnings (snd r) = warnings w)
             /\ (fst r = Failed EmptyResultSetError ->
                 exists msg, (msg = "Empty Fields" \/ msg = "Empty RecordSet")
                             /\ snd r = warned w msg (cmd.Quiet GetFlags))).
  { intros tf plain r.
    destruct (renderTable_frame header records format tf plain lb wh enc w)
      as (Hw & Hp & Hnp).
    pose proof (renderTable_never_empty_result header records format tf plain lb wh enc w).
    fold r in Hw, Hp, Hnp, H. repeat split; auto. intros; contradiction. }
  assert (Hempty : forall msg,
             msg = "Empty Fields" \/ msg = "Empty RecordSet" ->
             let r := (let* _ := LogWarn msg (cmd.Quiet GetFlags) in
                       @raise unit EmptyResultSetError) w in
             paletteEnabled (snd r) = paletteEnabled w
             /\ fst r <> Panicked
             /\ (fst r <> Failed EmptyResultSetError -> warnings (snd r) = warnings w)
             /\ (fst r = Failed EmptyResultSetError ->
                 exists msg, (msg = "Empty Fields" \/ msg = "Empty RecordSet")
                             /\ snd r = warned w msg (cmd.Quiet GetFlags))).
  { intros msg Hmsg r. unfold r, bind, LogWarn, raise. cbn [fst snd].
    split; [reflexivity|]. split; [discriminate|].
    split; [intros H; congruence|].
    intros _. exists msg. split; [exact Hmsg | reflexivity]. }
  destruct format; try apply Htable;
    (destruct (Nat.ltb (length header) 1); [apply Hempty; auto|]);
    (destruct (Nat.ltb (length records) 1); [apply Hempty; auto|]);
    apply Htable.
Qed.

(** The code of [EncodeView] panics only in the encoders that fill an
    array by index (delimited, LTSV, fixed-length with given
    positions), and only when a record has more cells than there are
    column names. *)
Theorem EncodeView_panics_only_on_long_record (v : View) (fileInfo : FileInfo)
  (w : World) :
  fst (fst (EncodeView v fileInfo w)) = Panicked ->
  (Format fileInfo = cmd.CSV \/ Format fileInfo = cmd.TSV \/ Format fileInfo = cmd.LTSV
   \/ (Format fileInfo = cmd.FIXED /\ DelimiterPositions fileInfo <> None))
  /\ Exists (fun record => length (TableColumnNames (ViewHeader v)) < length record)
            (ViewRecordSet v).
Proof.
  unfold EncodeView. destruct (Format fileInfo) eqn:Hf; cbn [fst snd]; intros Hp.
  - destruct (encodeCSV_frame v (Delimiter fileInfo) (LineBreak fileInfo)
                (NoHeader fileInfo) (Encoding fileInfo) (EncloseAll fileInfo) w)
      as (_ & _ & _ & Hpanic).
    destruct (Hpanic Hp). auto.
  - destruct (encodeCSV_frame v (Delimiter (setDelimiter fileInfo tab))
                (LineBreak (setDelimiter fileInfo tab)) (NoHeader (setDelimiter fileInfo tab))
                (Encoding (setDelimiter fileInfo tab))
                (EncloseAll (setDelimiter fileInfo tab)) w)
      as (_ & _ & _ & Hpanic).
    destruct (Hpanic Hp). auto.
  - destruct (encodeFixedLengthFormat_frame v (DelimiterPositions fileInfo)
                (LineBreak fileInfo) (NoHeader fileInfo) (Encoding fileInfo) w)
      as (_ & _ & _ & Hpanic).
    destruct (Hpanic Hp) as (Hpos & Hlong & Hw). auto 6.
  - destruct (encodeJson_frame v (LineBreak fileInfo) (JsonEscape fileInfo)
                (PrettyPrint fileInfo) w) as (_ & _ & Hnp & _).
    contradiction.
  - destruct (encodeLTSV_frame v (LineBreak fileInfo) (Encoding fileInfo) w)
      as (_ & _ & _ & Hpanic).
    destruct (Hpanic Hp). auto 6.
  - destruct (encodeText_frame v cmd.GFM (LineBreak fileInfo) (NoHeader fileInfo)
                (Encoding fileInfo) w) as (_ & Hnp & _). contradiction.
  - destruct (encodeText_frame v cmd.ORG (LineBreak fileInfo) (NoHeader fileInfo)
                (Encoding fileInfo) w) as (_ & Hnp & _). contradiction.
  - destruct (encodeText_frame v cmd.TEXT (LineBreak fileInfo) (NoHeader fileInfo)
                (Encoding fileInfo) w) as (_ & Hnp & _). contradiction.
Qed.

(** [EncodeView] fails with the empty-result error for the plain text
    table alone, exactly when the view has no column name or no record;
    it has then logged the one warning.  Whatever else [EncodeView]
    ends with, for any format, it has logged nothing. *)
Theorem EncodeView_empty_result_only_as_text (v : View) (fileInfo : FileInfo) (w : World) :
  (fst (fst (EncodeView v fileInfo w)) = Failed EmptyResultSetError
   <-> Format fileInfo = cmd.TEXT
       /\ (TableColumnNames (ViewHeader v) = [] \/ ViewRecordSet v = []))
  /\ (fst (fst (EncodeView v fileInfo w)) = Failed EmptyResultSetError ->
      exists msg, (msg = "Empty Fields" \/ msg = "Empty RecordSet")
                  /\ snd (fst (EncodeView v fileInfo w)) = warned w msg (cmd.Quiet GetFlags))
  /\ (fst (fst (EncodeView v fileInfo w)) <> Failed EmptyResultSetError ->
      warnings (snd (fst (EncodeView v fileInfo w))) = warnings w).
Proof.
  unfold EncodeView. destruct (Format fileInfo) eqn:Hf; cbn [fst snd].
  - destruct (encodeCSV_frame v (Delimiter fileInfo) (LineBreak fileInfo)
                (NoHeader fileInfo) (Encoding fileInfo) (EncloseAll fileInfo) w)
      as (Hw & _ & Hne & _).
    split; [split; [contradiction | intros [? _]; discriminate]|].
    split; [contradiction | auto].
  - destruct (encodeCSV_frame v (Delimiter (setDelimiter fileInfo tab))
                (LineBreak (setDelimiter fileInfo tab)) (NoHeader (setDelimiter fileInfo tab))
                (Encoding (setDelimiter fileInfo tab))
                (EncloseAll (setDelimiter fileInfo tab)) w)
      as (Hw & _ & Hne & _).
    split; [split; [contradiction | intros [? _]; discriminate]|].
    split; [contradiction | auto].
  - destruct (encodeFixedLengthFormat_frame v (DelimiterPositions fileInfo)
                (LineBreak fileInfo) (NoHeader fileInfo) (Encoding fileInfo) w)
      as (Hw & _ & Hne & _).
    split; [split; [contradiction | intros [? _]; discriminate]|].
    split; [contradiction | auto].
  - destruct (encodeJson_frame v (LineBreak fileInfo) (JsonEscape fileInfo)
                (PrettyPrint fileInfo) w) as (Hw & Hne & _).
    split; [split; [contradiction | intros [? _]; discriminate]|].
    split; [contradiction | auto].
  - destruct (encodeLTSV_frame v (LineBreak fileInfo) (Encoding fileInfo) w)
      as (Hw & _ & Hne & _).
    split; [split; [contradiction | intros [? _]; discriminate]|].
    split; [contradiction | auto].
  - destruct (encodeText_frame v cmd.GFM (LineBreak fileInfo) (NoHeader fileInfo)
                (Encoding fileInfo) w) as (_ & _ & Hw & Hmsg).
    rewrite encodeText_GFM in *.
    pose proof (renderTable_never_empty_result (fst (bareValues v)) (snd (bareValues v))
                  cmd.GFM table.GFMTable false (LineBreak fileInfo) (NoHeader fileInfo)
                  (Encoding fileInfo) w) as Hne.
    split; [split; [contradiction | intros [? _]; discriminate]|].
    split; [contradiction | auto].
  - destruct (encodeText_frame v cmd.ORG (LineBreak fileInfo) (NoHeader fileInfo)
                (Encoding fileInfo) w) as (_ & _ & Hw & Hmsg).
    rewrite encodeText_ORG in *.
    pose proof (renderTable_never_empty_result (fst (bareValues v)) (snd (bareValues v))
                  cmd.ORG table.OrgTable false (LineBreak fileInfo) (NoHeader fileInfo)
                  (Encoding fileInfo) w) as Hne.
    split; [split; [contradiction | intros [? _]; discriminate]|].
    split; [contradiction | auto].
  - destruct (encodeText_frame v cmd.TEXT (LineBreak fileInfo) (NoHeader fileInfo)
                (Encoding fileInfo) w) as (_ & _ & Hw & Hmsg).
    split; [|split; [exact Hmsg | exact Hw]].
    rewrite encodeText_TEXT_empty_iff, bareValues_header. intuition.
Qed.

(** The palette is switched on by the JSON encoder in pretty-print
    mode with colours, when a palette is there and the table converted
    to a JSON structure, and by nothing else: after [EncodeView] the
    palette is on exactly if it was on before or this was the case. *)
Theorem EncodeView_enables_palette_only_for_pretty_json (v : View) (fileInfo : FileInfo)
  (w : World) :
  paletteEnabled (snd (fst (EncodeView v fileInfo w)))
  = paletteEnabled w
    || (cmd.Format_eqb (Format fileInfo) cmd.JSON
        && PrettyPrint fileInfo && cmd.Color GetFlags && negb GetPalette_isNil
        && match ConvertTableValueToJsonStructure
                   (TableColumnNames (ViewHeader v))
                   (map (map Value) (ViewRecordSet v)) with
           | inl _ => false
           | inr _ => true
           end).
Proof.
  unfold EncodeView. destruct (Format fileInfo) eqn:Hf; cbn [fst snd cmd.Format_eqb andb];
    rewrite ?orb_false_r.
  - apply encodeCSV_frame.
  - apply encodeCSV_frame.
  - apply encodeFixedLengthFormat_frame.
  - apply encodeJson_frame.
  - apply encodeLTSV_frame.
  - apply encodeText_frame.
  - apply encodeText_frame.
  - apply encodeText_frame.
Qed.

End IndexedEncoders.

Lemma encodeCSV_carries_cells_of_previous_row_short_row :
  Forall (fun record => length record <= length (TableColumnNames (ViewHeader shortRowView)))
         (ViewRecordSet shortRowView)
  /\ written (snd (@encodeCSV plainText plainEnvironment shortRowView ","
                              text.LF false text.UTF8 false emptyWorld))
     = [String.concat "" [lineOf "," ["c1"; "c2"]; lineOf "," ["1"; "x"];
                          lineOf "," ["2"; "x"]]]
  /\ written (snd (@encodeCSV plainText plainEnvironment shortRowView ","
                              text.LF true text.UTF8 false emptyWorld))
     = [String.concat "" [lineOf "," ["1"; "x"]; lineOf "," ["2"; "x"]]].
Proof.
  assert (Hfit : Forall (fun record =>
                           length record
                           <= length (TableColumnNames (ViewHeader shortRowView)))
                        (ViewRecordSet shortRowView))
    by (repeat constructor).
  split; [exact Hfit|]. split.
  - rewrite (@encodeCSV_carries_cells_of_previous_row plainText plainEnvironment
               shortRowView "," text.LF false text.UTF8 false Hfit).
    reflexivity.
  - rewrite (@encodeCSV_carries_cells_of_previous_row plainText plainEnvironment
               shortRowView "," text.LF true text.UTF8 false Hfit).
    reflexivity.
Defined.

Lemma encodeCSV_writes_rows_scenario :
  Forall (fun record => length record = length (TableColumnNames (ViewHeader scenarioView)))
         (ViewRecordSet scenarioView)
  /\ written (snd (@encodeCSV plainText plainEnvironment scenarioView ","
                              text.LF false text.UTF8 false emptyWorld))
     = [String.concat "" [lineOf "," ["c1"; "c2"]; lineOf "," ["1"; "x"]]].
Proof.
  assert (Harity : Forall (fun record =>
                             length record
                             = length (TableColumnNames (ViewHeader scenarioView)))
                          (ViewRecordSet scenarioView))
    by (repeat constructor).
  split; [exact Harity|].
  rewrite (@encodeCSV_writes_rows plainText plainEnvironment
             scenarioView "," text.LF false text.UTF8 false Harity).
  reflexivity.
Defined.

Lemma encodeCSV_panics_on_long_record_mixed :
  length (TableColumnNames (ViewHeader mixedView)) = 2
  /\ map length (ViewRecordSet mixedView) = [3]
  /\ fst (@encodeCSV plainText plainEnvironment mixedView ","
                     text.LF false text.UTF8 false emptyWorld) = Panicked.
Proof.
  split; [reflexivity|]. split; [reflexivity|].
  apply (@encodeCSV_panics_on_long_record plainText plainEnvironment mixedView).
  - intros row. eexists. reflexivity.
  - constructor. cbn. lia.
Defined.

Lemma encodeFixedLengthFormat_writes_rows_scenario :
  Forall (fun record => length record = length (TableColumnNames (ViewHeader scenarioView)))
         (ViewRecordSet scenarioView)
  /\ written (snd (@encodeFixedLengthFormat plainText plainEnvironment scenarioView
                     (Some [2; 4]) text.LF false text.UTF8 emptyWorld))
     = [String.concat "" [lineOf " " ["c1"; "c2"]; lineOf " " ["1"; "x"]]]
  /\ written (snd (@encodeFixedLengthFormat plainText plainEnvironment scenarioView
                     None text.LF false text.UTF8 emptyWorld))
     = [String.concat "" [lineOf " " ["c1"; "c2"]; lineOf " " ["1"; "x"]]].
Proof.
  assert (Harity : Forall (fun record =>
                             length record
                             = length (TableColumnNames (ViewHeader scenarioView)))
                          (ViewRecordSet scenarioView))
    by (repeat constructor).
  split; [exact Harity|]. split.
  - rewrite (@encodeFixedLengthFormat_writes_rows plainText plainEnvironment
               scenarioView (Some [2; 4]) text.LF false text.UTF8 Harity).
    reflexivity.
  - rewrite (@encodeFixedLengthFormat_writes_rows plainText plainEnvironment
               scenarioView None text.LF false text.UTF8 Harity).
    reflexivity.
Defined.

Lemma encodeLTSV_writes_rows_scenario :
  Forall (fun record => length record = length (TableColumnNames (ViewHeader scenarioView)))
         (ViewRecordSet scenarioView)
  /\ written (snd (@encodeLTSV plainText plainEnvironment scenarioView
                               text.LF text.UTF8 emptyWorld))
     = [lineOf (String tab EmptyString) ["1"; "x"]].
Proof.
  assert (Harity : Forall (fun record =>
                             length record
                             = length (TableColumnNames (ViewHeader scenarioView)))
                          (ViewRecordSet scenarioView))
    by (repeat constructor).
  split; [exact Harity|].
  rewrite (@encodeLTSV_writes_rows plainText plainEnvironment
             scenarioView text.LF text.UTF8 Harity).
  reflexivity.
Defined.

Lemma EncodeView_panics_only_on_long_record_mixed :
  fst (fst (@EncodeView plainText plainEnvironment mixedView csvInfo emptyWorld)) = Panicked
  /\ Exists (fun record => length (TableColumnNames (ViewHeader mixedView)) < length record)
            (ViewRecordSet mixedView).
Proof.
  assert (Hp : fst (fst (@EncodeView plainText plainEnvironment mixedView csvInfo
                                     emptyWorld)) = Panicked)
    by reflexivity.
  split; [exact Hp|].
  exact (proj2 (@EncodeView_panics_only_on_long_record plainText plainEnvironment
                  mixedView csvInfo emptyWorld Hp)).
Defined.

Lemma encodeFixedLengthFormat_short_records_short_row :
  Forall (fun record => length record <= length (TableColumnNames (ViewHeader shortRowView)))
         (ViewRecordSet shortRowView)
  /\ written (snd (@encodeFixedLengthFormat plainText plainEnvironment shortRowView
                     None text.LF false text.UTF8 emptyWorld))
     = [String.concat "" [lineOf " " ["c1"; "c2"]; lineOf " " ["1"; "x"]; lineOf " " ["2"]]]
  /\ written (snd (@encodeFixedLengthFormat plainText plainEnvironment shortRowView
                     (Some [2; 4]) text.LF false text.UTF8 emptyWorld))
     = [String.concat "" [lineOf " " ["c1"; "c2"]; lineOf " " ["1"; "x"];
                          lineOf " " ["2"; "x"]]].
Proof.
  assert (Hfit : Forall (fun record =>
                           length record
                           <= length (TableColumnNames (ViewHeader shortRowView)))
                        (ViewRecordSet shortRowView))
    by (repeat constructor).
  split; [exact Hfit|]. split.
  - rewrite (@encodeFixedLengthFormat_short_records plainText plainEnvironment
               shortRowView None text.LF false text.UTF8 Hfit).
    reflexivity.
  - rewrite (@encodeFixedLengthFormat_short_records plainText plainEnvironment
               shortRowView (Some [2; 4]) text.LF false text.UTF8 Hfit).
    reflexivity.
Defined.

(** ** Success and the stream *)

Section StreamProperties.
Context {VT : ValueText} {Env : Environment}.

Lemma concat_snoc (l : list string) (s : string) :
  String.concat "" (l ++ [s]) = String.append (String.concat "" l) s.
Proof.
  induction l as [|x l IH]; [reflexivity|].
  destruct l as [|y l].
  - reflexivity.
  - change (String.concat "" ((x :: y :: l) ++ [s]))
      with (String.append x (String.append "" (String.concat "" ((y :: l) ++ [s])))).
    rewrite IH.
    change (String.concat "" (x :: y :: l))
      with (String.append x (String.append "" (String.concat "" (y :: l)))).
    now rewrite !append_assoc.
Qed.

Lemma Flush_done (s : string) (w : World) :
  fst (Flush s w) = Done tt ->
  streamText (snd (Flush s w)) = String.append (streamText w) s.
Proof.
  unfold Flush, fpWrite, ret, streamText.
  destruct (String.eqb s "") eqn:Hs; cbn [fst snd].
  - apply String.eqb_eq in Hs. subst s. intros _. now rewrite append_empty.
  - destruct (fp_Write (written w) s); cbn [fst snd written]; [discriminate|].
    intros _. apply concat_snoc.
Qed.

Lemma renderTable_done header records format tableFormat plain lb wh enc (w : World) :
  fst (renderTable header records format tableFormat plain lb wh enc w) = Done tt ->
  exists s,
    table_Encode (textEncoder header records format tableFormat plain lb wh enc) = Text s
    /\ streamText (snd (renderTable header records format tableFormat plain lb wh enc w))
       = String.append (streamText w) s.
Proof.
  unfold renderTable, bind, lift, fromReply.
  destruct (table_Encode _) as [s | msg]; cbn [fst snd]; [|discriminate].
  intros Hd. exists s. split; [reflexivity | now apply Flush_done].
Qed.

(** The text table encoder and the JSON encoder return the error of
    their flush: when they report no error, the stream has taken,
    after what it held, exactly the text that the collaborating
    encoder produced for the table. *)
Theorem text_and_json_success_means_written (v : View) (w : World) :
  (forall format lb wh enc,
      fst (encodeText v format lb wh enc w) = Done tt ->
      exists s,
        table_Encode
          (textEncoder (fst (bareValues v)) (snd (bareValues v)) format
             match format with
             | cmd.GFM => table.GFMTable
             | cmd.ORG => table.OrgTable
             | _ => table.PlainTable
             end
             match format with
             | cmd.GFM | cmd.ORG => false
             | _ => true
             end
             lb wh enc) = Text s
        /\ streamText (snd (encodeText v format lb wh enc w))
           = String.append (streamText w) s)
  /\ (forall lb escapeType prettyPrint,
         fst (encodeJson v lb escapeType prettyPrint w) = Done tt ->
         exists data,
           ConvertTableValueToJsonStructure (fst (bareValues v)) (snd (bareValues v))
           = inr data
           /\ streamText (snd (encodeJson v lb escapeType prettyPrint w))
              = String.append (streamText w)
                  (txjson_Encode
                     {| txjson.EscapeType_ := escapeType;
                        txjson.LineBreak := lb;
                        txjson.PrettyPrint := prettyPrint;
                        txjson.Palette :=
                          prettyPrint && cmd.Color GetFlags && negb GetPalette_isNil |}
                     data)).
Proof.
  split.
  - intros format lb wh enc. unfold encodeText.
    destruct (bareValues v) as [header records]. cbn [fst snd].
    destruct format; try apply renderTable_done;
      (destruct (Nat.ltb (length header) 1); [discriminate|]);
      (destruct (Nat.ltb (length records) 1); [discriminate|]);
      apply renderTable_done.
  - intros lb escapeType prettyPrint. unfold encodeJson.
    destruct (bareValues v) as [header records]. cbn [fst snd].
    destruct (ConvertTableValueToJsonStructure header records) as [msg | data];
      [discriminate|].
    cbv zeta. cbn [txjson.Palette].
    intros Hd. exists data. split; [reflexivity|].
    unfold bind in *.
    destruct (prettyPrint && cmd.Color GetFlags && negb GetPalette_isNil);
      unfold enablePalette, ret in *; cbn [fst snd] in *;
      now apply Flush_done in Hd.
Qed.

Lemma writeRows_taken {F} (write : list F -> reply) (rows : list (list F)) :
  (forall row, exists t, write row = Text t) ->
  forall buf, exists buf', writeRows write rows buf = Done buf'.
Proof.
  intros Htakes. induction rows as [|r rest IH]; intros buf; simpl; [eauto|].
  destruct (Htakes r) as [t ->]. simpl. apply IH.
Qed.

(** The delimited encoder drops the result of its flush: once its
    writer has taken every row (and no record is longer than the
    column names) it reports no error, whatever the stream does with
    what is flushed. *)
Theorem encodeCSV_reports_no_flush_error (v : View) (d : ascii)
  (lb : text.LineBreak) (wh : bool) (enc : text.Encoding) (ea : bool) (w : World) :
  Forall (fun record => length record <= length (TableColumnNames (ViewHeader v)))
         (ViewRecordSet v) ->
  (forall row, exists t,
      csv_Write {| csv.Delimiter := d; csv.LineBreak := lb; csv.Encoding := enc |} row
      = Text t) ->
  fst (encodeCSV v d lb wh enc ea w) = Done tt.
Proof.
  intros Hfit Htakes. rewrite encodeCSV_body. cbv zeta.
  rewrite indexed_rows by (now apply records_fit).
  match goal with
  | |- context [writeRows ?write ?rows ?buf] =>
      destruct (writeRows_taken write rows Htakes buf) as [buf' ->]
  end.
  reflexivity.
Qed.

(** ** What the table encoder is handed *)

Lemma appendRecords_records (format : cmd.Format) (plain : bool)
  (records : list (list value.Primary)) :
  forall (i : nat) (e : table.Encoder) (aligns : list text.FieldAlignment),
    let e' := fst (appendRecords format plain i records e aligns) in
    table.records e'
    = table.records e ++ map (map (fun val => fst (textCell format plain val))) records
    /\ table.header e' = table.header e
    /\ table.format e' = table.format e
    /\ table.recordLen e' = table.recordLen e
    /\ table.WithoutHeader e' = table.WithoutHeader e
    /\ table.LineBreak e' = table.LineBreak e
    /\ table.Encoding e' = table.Encoding e.
Proof.
  induction records as [|r rest IH]; intros i e aligns; simpl.
  - rewrite app_nil_r. repeat split.
  - rewrite appendCells_spec.
    destruct (IH (S i) (table.AppendRecord e (map (fun v => fst (textCell format plain v)) r))
                 (if Nat.eqb i 0
                  then aligns ++ map (fun v => snd (ConvertFieldContents v plain)) r
                  else aligns))
      as (Hr & Hh & Hf & Hl & Hw & Hb & He).
    cbv zeta in *. rewrite Hr, Hh, Hf, Hl, Hw, Hb, He. cbn.
    rewrite <- app_assoc. repeat split.
Qed.

(** By the time [encodeText] calls [Encode], the table encoder holds
    one record per record of the view, each with one field per cell in
    order, whatever the number of column names; a field carries the
    converter's alignment and, outside the plain format, the
    converter's text unchanged.  The header is absent when it is
    suppressed and otherwise the column names, all centred.  A GFM or
    Org table is not rendered "for a text table": a Null cell and an
    UNKNOWN cell are empty there, while the plain table shows the
    palette's rendering of NULL and UNKNOWN, centred. *)
Theorem textEncoder_contents (header : list string) (records : list (list value.Primary))
  (format : cmd.Format) (tableFormat : table.Format) (plain : bool)
  (lb : text.LineBreak) (wh : bool) (enc : text.Encoding) :
  let e := textEncoder header records format tableFormat plain lb wh enc in
  (table.records e = map (map (fun val => fst (textCell format plain val))) records
   /\ table.header e
      = (if wh then None
         else Some (map (fun name => table.NewField name text.Centering) header))
   /\ table.recordLen e = length records
   /\ table.format e = tableFormat
   /\ table.WithoutHeader e = wh)
  /\ (forall val,
         table.Alignment (fst (textCell format plain val))
         = snd (ConvertFieldContents val plain)
         /\ (format <> cmd.TEXT ->
             table.Contents (fst (textCell format plain val))
             = fst (fst (ConvertFieldContents val plain))))
  /\ (textCell cmd.GFM false value.Null = (table.NewField "" text.NotAligned, text.NotAligned)
      /\ textCell cmd.ORG false (value.Ternary ternary.UNKNOWN)
         = (table.NewField "" text.NotAligned, text.NotAligned)
      /\ textCell cmd.TEXT true value.Null
         = (table.NewField (Palette_Render cmd.NullEffect "NULL") text.Centering,
            text.Centering)
      /\ textCell cmd.TEXT true (value.Ternary ternary.UNKNOWN)
         = (table.NewField (Palette_Render cmd.TernaryEffect "UNKNOWN") text.Centering,
            text.Centering)).
Proof.
  intros e. split; [|split].
  - unfold e, textEncoder.
    match goal with
    | |- context [appendRecords format plain 0 records ?e0 []] =>
        pose proof (appendRecords_records format plain records 0 e0 []) as H;
        destruct (appendRecords format plain 0 records e0 []) as [e1 aligns]
    end.
    cbv zeta in H. cbn [fst] in H. destruct H as (Hr & Hh & Hf & Hl & Hw & _).
    assert (Hgoal :
              table.records e1
              = map (map (fun val => fst (textCell format plain val))) records
              /\ table.header e1
                 = (if wh then None
                    else Some (map (fun name => table.NewField name text.Centering) header))
              /\ table.recordLen e1 = length records
              /\ table.format e1 = tableFormat
              /\ table.WithoutHeader e1 = wh).
    { rewrite Hr, Hh, Hl, Hf, Hw. destruct wh; cbn; repeat split. }
    destruct (cmd.Format_eqb format cmd.GFM); exact Hgoal.
  - intros val. unfold textCell.
    destruct (ConvertFieldContents val plain) as [[s effect] align]. cbn.
    split; [reflexivity|]. intros Hf. destruct format; try reflexivity. congruence.
  - repeat split.
Qed.

End StreamProperties.

Lemma encodeCSV_reports_no_flush_error_closed_stream :
  (forall chunk, @fp_Write closedStreamEnvironment [] chunk = Some "closed")
  /\ fst (@encodeCSV plainText closedStreamEnvironment shortRowView ","
                     text.LF false text.UTF8 false emptyWorld) = Done tt.
Proof.
  split; [reflexivity|].
  apply (@encodeCSV_reports_no_flush_error plainText closedStreamEnvironment shortRowView).
  - repeat constructor.
  - intros row. eexists. reflexivity.
Defined.

(** ** The converter's style and alignment *)

Section ConverterInvariants.
Context {VT : ValueText}.

(** The alignment the converter returns is fixed by the style class it
    returns: right for a number, centred for a Boolean, Ternary or Null
    style, none otherwise.  A value without a style class has the empty
    text.  The Ternary and the Null style occur for text tables only,
    where every variant the type switch knows has a style; and but for
    a Ternary and a Null the target makes no difference. *)
Theorem ConvertFieldContents_style_fixes_alignment (val : value.Primary)
  (forTextTable : bool) :
  let text := fst (fst (ConvertFieldContents val forTextTable)) in
  let effect := snd (fst (ConvertFieldContents val forTextTable)) in
  let align := snd (ConvertFieldContents val forTextTable) in
  align = match effect with
          | cmd.NumberEffect => text.RightAligned
          | cmd.BooleanEffect | cmd.TernaryEffect | cmd.NullEffect => text.Centering
          | _ => text.NotAligned
          end
  /\ (effect = cmd.NoEffect -> text = "")
  /\ ((effect = cmd.TernaryEffect \/ effect = cmd.NullEffect) -> forTextTable = true)
  /\ (forTextTable = true -> documented val = true -> effect <> cmd.NoEffect)
  /\ ((forall t, val <> value.Ternary t) -> val <> value.Null ->
      ConvertFieldContents val true = ConvertFieldContents val false).
Proof.
  destruct val as [raw | i | f | b | t | d | | tag]; try destruct t;
    destruct forTextTable; cbn;
    (split; [reflexivity|]);
    (split; [try discriminate; reflexivity|]);
    (split; [intros [H | H]; solve [discriminate H | reflexivity]|]);
    (split; [intros; discriminate|]);
    intros Ht Hn; try reflexivity;
    solve [exfalso; eapply Ht; reflexivity | congruence].
Qed.

End ConverterInvariants.

(** ** The lines of a cell of the plain text table *)

Lemma flushLine_renderedLine (render : string -> string) (str line : string) :
  flushLine render str line = String.append str (renderedLine render line).
Proof.
  unfold flushLine, renderedLine.
  destruct (Nat.ltb 0 (String.length line)); [reflexivity | now rewrite append_empty].
Qed.

Lemma linesFrom_not_nil (runes : list Z) :
  forall line, linesFrom runes line <> [].
Proof.
  induction runes as [|r rest IH]; intros line; cbn [linesFrom]; [discriminate|].
  destruct (Z.eqb r 13); [discriminate|].
  destruct (Z.eqb r 10); [discriminate|]. apply IH.
Qed.

Lemma concat_cons (sep x : string) (l : list string) :
  l <> [] ->
  String.concat sep (x :: l) = String.append x (String.append sep (String.concat sep l)).
Proof. destruct l; [congruence | reflexivity]. Qed.

Lemma renderLines_lines (render : string -> string) (runes : list Z) :
  forall str line,
    renderLines render runes str line
    = String.append str
        (String.concat lineFeed (map (renderedLine render) (linesFrom runes line))).
Proof.
  assert (Hbound : forall n (l : list Z), length l <= n ->
             forall str line,
               renderLines render l str line
               = String.append str
                   (String.concat lineFeed (map (renderedLine render) (linesFrom l line)))).
  { assert (Hnext : forall (l : list Z) str line,
               (forall str' line', renderLines render l str' line'
                  = String.append str'
                      (String.concat lineFeed
                         (map (renderedLine render) (linesFrom l line')))) ->
               renderLines render l
                 (String.append (flushLine render str line) lineFeed) EmptyString
               = String.append str
                   (String.concat lineFeed
                      (map (renderedLine render) (line :: linesFrom l EmptyString)))).
    { intros l str line IHl. rewrite IHl. cbn [map].
      rewrite concat_cons.
      - rewrite flushLine_renderedLine, !append_assoc. reflexivity.
      - intros Hnil. apply map_eq_nil in Hnil. now apply linesFrom_not_nil in Hnil. }
    induction n as [|n IH]; intros l Hlen str line.
    - destruct l; [|simpl in Hlen; lia].
      cbn [renderLines linesFrom map String.concat]. apply flushLine_renderedLine.
    - destruct l as [|r rest]; cbn [renderLines linesFrom].
      + cbn [map String.concat]. apply flushLine_renderedLine.
      + simpl in Hlen.
        destruct (Z.eqb r 13) eqn:Hcr.
        * destruct rest as [|r' rest'].
          -- cbn [renderLines]. rewrite !flushLine_renderedLine.
             cbn [map]. rewrite concat_cons by discriminate.
             cbn [map String.concat].
             change (renderedLine render EmptyString) with EmptyString.
             rewrite !append_assoc, !append_empty. reflexivity.
          -- simpl in Hlen.
             destruct (Z.eqb r' 10) eqn:Hlf.
             ++ apply Hnext. intros str' line'. apply IH. lia.
             ++ apply Hnext. intros str' line'. apply IH. simpl. lia.
        * destruct (Z.eqb r 10) eqn:Hlf.
          -- apply Hnext. intros str' line'. apply IH. lia.
          -- apply IH. lia. }
  intros str line. now apply (Hbound (length runes)).
Qed.

(** *** No written rune brings a line break in *)

Lemma list_ascii_of_append (a b : string) :
  list_ascii_of_string (String.append a b)
  = list_ascii_of_string a ++ list_ascii_of_string b.
Proof.
  induction a as [|x a IH]; [reflexivity|].
  change (x :: list_ascii_of_string (String.append a b)
          = x :: (list_ascii_of_string a ++ list_ascii_of_string b)).
  now rewrite IH.
Qed.

Lemma breakFree_append (a b : string) :
  breakFree (String.append a b) = breakFree a && breakFree b.
Proof. unfold breakFree. now rewrite list_ascii_of_append, forallb_app. Qed.

(** A byte with its high bit set is no CR and no LF. *)
Lemma byte_high_bit (x : Z) :
  Z.testbit x 7 = true ->
  negb (Ascii.eqb (utf8.byte x) "013" || Ascii.eqb (utf8.byte x) "010") = true.
Proof.
  intros Hbit.
  assert (Hne : forall c, Z.testbit (utf8.uint8 c) 7 = false -> utf8.byte x <> c).
  { intros c Hc Heq. apply (f_equal utf8.uint8) in Heq. rewrite uint8_byte in Heq.
    rewrite <- Heq in Hc.
    change 256%Z with (2 ^ 8)%Z in Hc.
    rewrite Z.mod_pow2_bits_low in Hc by lia. congruence. }
  apply negb_true_iff, orb_false_iff.
  split; apply Ascii.eqb_neq, Hne; reflexivity.
Qed.

Lemma lor_high_bit (t x : Z) : Z.testbit t 7 = true -> Z.testbit (Z.lor t x) 7 = true.
Proof. intros Ht. now rewrite Z.lor_spec, Ht. Qed.

(** A byte-sized rune that is no CR and no LF is written as a byte that
    is neither. *)
Lemma byte_small (r : Z) :
  (0 <= r < 256)%Z -> r <> 13%Z -> r <> 10%Z ->
  negb (Ascii.eqb (utf8.byte r) "013" || Ascii.eqb (utf8.byte r) "010") = true.
Proof.
  intros Hr Hcr Hlf.
  assert (Hne : forall c, utf8.uint8 c <> r -> utf8.byte r <> c).
  { intros c Hc Heq. apply Hc. rewrite <- Heq, uint8_byte. now apply Z.mod_small. }
  apply negb_true_iff, orb_false_iff.
  split; apply Ascii.eqb_neq, Hne; [change (13%Z <> r) | change (10%Z <> r)]; lia.
Qed.

Lemma threeBytes_breakFree (r : Z) : breakFree (utf8.threeBytes r) = true.
Proof.
  unfold breakFree, utf8.threeBytes. cbn [list_ascii_of_string forallb].
  rewrite !byte_high_bit by (apply lor_high_bit; reflexivity). reflexivity.
Qed.

Lemma fourBytes_breakFree (r : Z) : breakFree (utf8.fourBytes r) = true.
Proof.
  unfold breakFree, utf8.fourBytes. cbn [list_ascii_of_string forallb].
  rewrite !byte_high_bit by (apply lor_high_bit; reflexivity). reflexivity.
Qed.

Lemma WriteRune_breakFree (line : string) (r : Z) :
  (0 <= r < 2 ^ 32)%Z -> r <> 13%Z -> r <> 10%Z ->
  breakFree line = true -> breakFree (WriteRune line r) = true.
Proof.
  intros Hr Hcr Hlf Hline.
  assert (Hbyte : forall bound, (utf8.uint32 r <= bound)%Z -> (bound < 256)%Z ->
                                breakFree (String (utf8.byte r) EmptyString) = true).
  { intros bound Hle Hb. rewrite uint32_small in Hle by exact Hr.
    unfold breakFree. cbn [list_ascii_of_string forallb].
    rewrite byte_small by lia. reflexivity. }
  unfold WriteRune.
  destruct (Z.ltb (utf8.uint32 r) utf8.RuneSelf) eqn:Hself;
    rewrite breakFree_append, Hline; cbn [andb].
  - apply Z.ltb_lt in Hself. apply (Hbyte 127%Z); [unfold utf8.RuneSelf in Hself; lia | lia].
  - unfold utf8.AppendRune.
    destruct (Z.leb (utf8.uint32 r) utf8.rune1Max) eqn:H1.
    + apply Z.leb_le in H1. apply (Hbyte 127%Z); [exact H1 | lia].
    + cbv zeta.
      destruct (Z.leb (utf8.uint32 r) utf8.rune2Max).
      * unfold breakFree. cbn [list_ascii_of_string forallb].
        rewrite !byte_high_bit by (apply lor_high_bit; reflexivity). reflexivity.
      * destruct (Z.ltb utf8.MaxRune (utf8.uint32 r)
                  || Z.leb utf8.surrogateMin (utf8.uint32 r)
                     && Z.leb (utf8.uint32 r) utf8.surrogateMax);
          [apply threeBytes_breakFree|].
        destruct (Z.leb (utf8.uint32 r) utf8.rune3Max);
          [apply threeBytes_breakFree | apply fourBytes_breakFree].
Qed.

(** *** The runes of a string are in range *)

Lemma lor_below (n a b : Z) :
  (0 < n)%Z -> (0 <= a < 2 ^ n)%Z -> (0 <= b < 2 ^ n)%Z -> (0 <= Z.lor a b < 2 ^ n)%Z.
Proof.
  intros Hn Ha Hb.
  assert (Hnonneg : (0 <= Z.lor a b)%Z) by (apply Z.lor_nonneg; lia).
  split; [exact Hnonneg|].
  destruct (Z.eq_dec (Z.lor a b) 0%Z) as [-> | Hne]; [apply Z.pow_pos_nonneg; lia|].
  apply Z.log2_lt_pow2; [lia|].
  rewrite Z.log2_lor by lia.
  assert (Hlog : forall x, (0 <= x < 2 ^ n)%Z -> (Z.log2 x < n)%Z).
  { intros x Hx. destruct (Z.eq_dec x 0%Z) as [-> | Hx0]; [exact Hn|].
    apply Z.log2_lt_pow2; lia. }
  pose proof (Hlog a Ha). pose proof (Hlog b Hb). lia.
Qed.

Lemma masked_shifted (x mask k : Z) :
  (0 <= x)%Z -> (0 <= mask < 64)%Z -> (0 <= k <= 18)%Z ->
  (0 <= Z.shiftl (Z.land x mask) k < 2 ^ 32)%Z.
Proof.
  intros Hx Hmask Hk.
  assert (Hland : (0 <= Z.land x mask < 2 ^ 6)%Z).
  { assert (H0 : (0 <= Z.land x mask)%Z) by (apply Z.land_nonneg; lia).
    split; [exact H0|].
    destruct (Z.eq_dec (Z.land x mask) 0%Z) as [-> | Hne]; [reflexivity|].
    apply Z.log2_lt_pow2; [lia|].
    assert (Hm : (0 < mask)%Z).
    { destruct (Z.eq_dec mask 0%Z) as [-> | Hm]; [rewrite Z.land_0_r in Hne|]; lia. }
    assert (Hlm : (Z.log2 mask < 6)%Z)
      by (apply Z.log2_lt_pow2; [lia | change (2 ^ 6)%Z with 64%Z; lia]).
    pose proof (Z.log2_land x mask Hx ltac:(lia)). lia. }
  rewrite Z.shiftl_mul_pow2 by lia.
  assert (Hpow : (0 < 2 ^ k <= 2 ^ 18)%Z).
  { split; [apply Z.pow_pos_nonneg; lia | apply Z.pow_le_mono_r; lia]. }
  change (2 ^ 18)%Z with 262144%Z in Hpow. change (2 ^ 6)%Z with 64%Z in Hland.
  change (2 ^ 32)%Z with 4294967296%Z. nia.
Qed.

Lemma masked_below (x mask : Z) :
  (0 <= x)%Z -> (0 <= mask < 64)%Z -> (0 <= Z.land x mask < 2 ^ 32)%Z.
Proof.
  intros Hx Hmask. pose proof (masked_shifted x mask 0%Z Hx Hmask ltac:(lia)) as H.
  now rewrite Z.shiftl_0_r in H.
Qed.

Lemma decoderune_range (s : string) : (0 <= fst (utf8.decoderune s) < 2 ^ 32)%Z.
Proof.
  assert (Herror : (0 <= utf8.RuneError < 2 ^ 32)%Z) by (unfold utf8.RuneError; lia).
  assert (Hpart : forall c mask k, (0 <= mask < 64)%Z -> (0 <= k <= 18)%Z ->
                                   (0 <= Z.shiftl (Z.land (utf8.uint8 c) mask) k < 2 ^ 32)%Z).
  { intros c mask k. apply masked_shifted. apply uint8_range. }
  assert (Hlast : forall c, (0 <= Z.land (utf8.uint8 c) utf8.maskx < 2 ^ 32)%Z).
  { intros c. apply masked_below; [apply uint8_range | unfold utf8.maskx; lia]. }
  unfold utf8.decoderune.
  repeat match goal with
         | |- context [if ?b then _ else _] => destruct b
         | |- context [match ?x with EmptyString => _ | String _ _ => _ end] => destruct x
         end;
    cbn [fst]; try exact Herror;
    repeat (apply lor_below; [lia| |]); try apply Hlast;
    apply Hpart; unfold utf8.mask2, utf8.mask3, utf8.mask4, utf8.maskx; lia.
Qed.

(** One step of the conversion: a rune, and the runes of a shorter
    string. *)
Lemma stringtoslicerune_step (c0 : ascii) (s1 : string) :
  exists r s',
    utf8.stringtoslicerune (String c0 s1) = r :: utf8.stringtoslicerune s'
    /\ String.length s' <= String.length s1
    /\ (0 <= r < 2 ^ 32)%Z.
Proof.
  cbn [utf8.stringtoslicerune].
  destruct (Z.ltb (utf8.uint8 c0) utf8.RuneSelf).
  - exists (utf8.uint8 c0), s1. split; [reflexivity|]. split; [lia|].
    pose proof (uint8_range c0). lia.
  - pose proof (decoderune_range (String c0 s1)) as Hr.
    destruct (utf8.decoderune (String c0 s1)) as [r width]. cbn [fst] in Hr.
    exists r.
    destruct width as [|[|[|[|[|width]]]]];
      try (exists s1; split; [reflexivity|]; split; [lia | exact Hr]).
    + destruct s1 as [|c1 s2]; [exists EmptyString | exists s2];
        (split; [reflexivity|]; split; [simpl; lia | exact Hr]).
    + destruct s1 as [|c1 [|c2 s3]];
        [exists EmptyString | exists (String c1 EmptyString) | exists s3];
        (split; [reflexivity|]; split; [simpl; lia | exact Hr]).
    + destruct s1 as [|c1 [|c2 [|c3 s4]]];
        [exists EmptyString | exists (String c1 EmptyString)
         | exists (String c1 (String c2 EmptyString)) | exists s4];
        (split; [reflexivity|]; split; [simpl; lia | exact Hr]).
Qed.

Lemma stringtoslicerune_range (s : string) :
  Forall (fun r => (0 <= r < 2 ^ 32)%Z) (utf8.stringtoslicerune s).
Proof.
  assert (Hbound : forall n s, String.length s <= n ->
                               Forall (fun r => (0 <= r < 2 ^ 32)%Z)
                                      (utf8.stringtoslicerune s)).
  { induction n as [|n IH]; intros [|c0 s1] Hlen; try (constructor; fail).
    - simpl in Hlen. lia.
    - simpl in Hlen.
      destruct (stringtoslicerune_step c0 s1) as (r & s' & -> & Hs' & Hr).
      constructor; [exact Hr | apply IH; lia]. }
  now apply (Hbound (String.length s)).
Qed.

Lemma linesFrom_breakFree (runes : list Z) :
  Forall (fun r => (0 <= r < 2 ^ 32)%Z) runes ->
  forall line, breakFree line = true ->
               Forall (fun l => breakFree l = true) (linesFrom runes line).
Proof.
  assert (Hbound : forall n (l : list Z), length l <= n ->
             Forall (fun r => (0 <= r < 2 ^ 32)%Z) l ->
             forall line, breakFree line = true ->
                          Forall (fun s => breakFree s = true) (linesFrom l line)).
  { induction n as [|n IH]; intros l Hlen Hrange line Hline.
    - destruct l; [|simpl in Hlen; lia]. cbn [linesFrom]. auto.
    - destruct l as [|r rest]; cbn [linesFrom]; [auto|].
      simpl in Hlen. apply Forall_cons in Hrange. destruct Hrange as [Hr Hrest].
      destruct (Z.eqb r 13) eqn:Hcr.
      + constructor; [exact Hline|].
        destruct rest as [|r' rest']; [auto|]. simpl in Hlen.
        destruct (Z.eqb r' 10).
        * apply Forall_cons in Hrest. destruct Hrest as [_ Hrest'].
          apply IH; [simpl; lia | exact Hrest' | reflexivity].
        * apply IH; [simpl; lia | exact Hrest | reflexivity].
      + destruct (Z.eqb r 10) eqn:Hlf.
        * constructor; [exact Hline|]. apply IH; [lia | exact Hrest | reflexivity].
        * apply IH; [lia | exact Hrest|].
          apply Z.eqb_neq in Hcr, Hlf. now apply WriteRune_breakFree. }
  intros Hrange line. now apply (Hbound (length runes)).
Qed.

(** The plain text table renders a cell line by line, whatever the
    palette does: the rendered cell is the rendered physical lines of
    the cell joined by line feeds, where the lines are those of the
    runes of the cell's text ([[]rune(str)]) written back, a line ends
    at a CR LF, a CR or an LF, an empty line is not handed to the
    palette, and no line that is handed to it holds a line break. *)
Theorem renderLines_renders_each_line (render : string -> string) (str : string) :
  let runes := utf8.stringtoslicerune str in
  renderLines render runes "" ""
  = String.concat lineFeed (map (renderedLine render) (linesFrom runes ""))
  /\ Forall (fun line => breakFree line = true) (linesFrom runes "")
  /\ renderedLine render "" = "".
Proof.
  intros runes. split; [|split].
  - apply (renderLines_lines render runes "" "").
  - apply linesFrom_breakFree; [apply stringtoslicerune_range | reflexivity].
  - reflexivity.
Qed.

(** ** Runtime information *)

Section RuntimeInformation.
Context {P : Process}.

Lemma String_eqb_In (s : string) (l : list string) :
  existsb (String.eqb s) l = true <-> In s l.
Proof.
  rewrite existsb_exists. split.
  - intros (x & Hin & Heq). apply String.eqb_eq in Heq. now subst.
  - intros Hin. exists s. split; [exact Hin | apply String.eqb_refl].
Qed.

(** [GetRuntimeInformation] compares the name without regard to case
    and reports it as it was written: the invalid-name error arises
    exactly for a name whose upper-casing is not in
    [RuntimeInformatinList], and carries the name unchanged.  The only
    other error is the one of [os.Getwd], and only under
    WORKING_DIRECTORY.  A value is a Boolean under UNCOMMITTED alone, a
    string under WORKING_DIRECTORY and VERSION alone, and otherwise an
    Integer that is not negative. *)
Theorem GetRuntimeInformation_names (name : string) :
  let upper := strings_ToUpper name in
  (GetRuntimeInformation name = inl (InvalidRuntimeInformationError name)
   <-> ~ In upper RuntimeInformatinList)
  /\ (forall other, GetRuntimeInformation name = inl (InvalidRuntimeInformationError other) ->
                    other = name)
  /\ (forall msg, GetRuntimeInformation name = inl (GetwdError msg)
                  <-> upper = WorkingDirectory /\ os_Getwd = inl msg)
  /\ (forall p, GetRuntimeInformation name = inr p ->
                match p with
                | value.Boolean b =>
                    upper = UncommittedInformation /\ b = negb UncommittedViews_IsEmpty
                | value.String s =>
                    (upper = WorkingDirectory /\ os_Getwd = inr s)
                    \/ (upper = VersionInformation /\ s = Version)
                | value.Integer i =>
                    (0 <= i)%Z
                    /\ In upper [CreatedInformation; UpdatedInformation;
                                 UpdatedViewsInformation; LoadedTablesInformation]
                | _ => False
                end).
Proof.
  intros upper. unfold GetRuntimeInformation. fold upper.
  rewrite <- String_eqb_In. cbn [existsb RuntimeInformatinList].
  destruct (String.eqb upper UncommittedInformation) eqn:H1;
    [apply String.eqb_eq in H1|];
    [|destruct (String.eqb upper CreatedInformation) eqn:H2;
      [apply String.eqb_eq in H2|];
      [|destruct (String.eqb upper UpdatedInformation) eqn:H3;
        [apply String.eqb_eq in H3|];
        [|destruct (String.eqb upper UpdatedViewsInformation) eqn:H4;
          [apply String.eqb_eq in H4|];
          [|destruct (String.eqb upper LoadedTablesInformation) eqn:H5;
            [apply String.eqb_eq in H5|];
            [|destruct (String.eqb upper WorkingDirectory) eqn:H6;
              [apply String.eqb_eq in H6|];
              [|destruct (String.eqb upper VersionInformation) eqn:H7;
                [apply String.eqb_eq in H7|]]]]]]].
  all: cbn [orb].
  all: try (destruct os_Getwd as [err | wd] eqn:Hwd).
  all: repeat match goal with |- _ /\ _ => split end.
  all: try (intros H; discriminate H).
  all: try (intros H; exfalso; apply H; reflexivity).
  all: try (intros other H; discriminate H).
  all: try (intros msg; split; [intros H; discriminate H | intros [Hu Hg]]).
  all: try (intros p H; injection H as <-).
  all: try (split; [lia | rewrite ?H2, ?H3, ?H4, ?H5; cbn; tauto]).
  all: try (split; [assumption | reflexivity]).
  all: try solve [left; split; [assumption | reflexivity]].
  all: try solve [right; split; [assumption | reflexivity]].
  all: try solve [rewrite Hu in *; discriminate].
  all: try solve [discriminate Hg].
  all: try solve [intros msg; split; [intros H; injection H as <-; auto
                                     | intros [_ Hg]; injection Hg as <-; reflexivity]].
  all: try solve [intros other H; injection H as <-; reflexivity].
  all: try solve [intros _; discriminate].
  all: try solve [reflexivity].
  all: split; [intros H; discriminate H | intros H; exfalso; apply H; reflexivity].
Qed.

End RuntimeInformation.

(** ** The shared random generator *)

Lemma GetRandCalls_done (nows : list Z) (s : RandPackage) :
  getRand s = true ->
  GetRandCalls nows s = (replicate (length nows) (random s), s).
Proof.
  intros Hdone. induction nows as [|now rest IH]; [reflexivity|].
  cbn [GetRandCalls]. unfold GetRand. rewrite Hdone. now rewrite IH.
Qed.

(** However often [GetRand] is called, one generator is made: the one
    seeded with the clock as the first call read it.  Every call
    returns that generator, and the clock of a later call is not looked
    at. *)
Theorem GetRand_one_generator (now : Z) (later : list Z) :
  let '(results, s) := GetRandCalls (now :: later) initialRandPackage in
  generators s = [now]
  /\ results = replicate (S (length later)) (Some 0)
  /\ (forall i r, results !! i = Some r -> exists g, r = Some g /\ generators s !! g = Some now)
  /\ forall later', length later' = length later ->
                    GetRandCalls (now :: later') initialRandPackage = (results, s).
Proof.
  cbn [GetRandCalls]. unfold GetRand at 1. cbn.
  rewrite GetRandCalls_done by reflexivity. cbn.
  split; [reflexivity|]. split; [reflexivity|]. split.
  - intros i r Hi. exists 0. split; [|reflexivity].
    destruct i; [now injection Hi as <-|].
    cbn in Hi. apply lookup_replicate in Hi. now destruct Hi as [-> _].
  - intros later' Hlen. rewrite GetRandCalls_done by reflexivity. cbn.
    now rewrite Hlen.
Qed.
